(** * Reconciliation and mutation engine of the STOQ pre-order upload scripts

    Shallow embedding of the three step scripts that add product variants
    to STOQ offers or remove them, and of the selection of the runner:

    - [JW_Step09_AddVariantsToNewSellingPlan.py]   (module [Step09]),
    - [JW_Step11_RemoveVariantsFromExistingOffers.py] (module [Step11] for
      its add functions, module [Step11Remove] for the removal and [main]),
    - [JW_Step12_AddVariantsToExistingOffers.py]   (module [Step12]),
    - [run_all.py], [parse_selection]              (module [RunAll]).

    Conventions of the embedding.

    - Python values read from JSON or from the data store are [PyVal]s;
      [py_str] is Python's [str()], [py_int] is Python's [int()].
    - The remote service, the data store and the process environment are
      one record [Env]; the script functions take it as first argument.
    - Effects (HTTP calls, [time.sleep], the wall clock, files written,
      exceptions) are threaded through the monad [M] over a [World].
    - Python lists mutated through a shared reference ([added_ok],
      [skipped_invalid]) are passed in and returned.
    - Loops and recursions that are not structural run on a counter; the
      facts of the second part show the counters are large enough.
    - Diagnostic [print] calls are not modelled, except the notice of
      [_coerce_ids_to_int], which is returned as data. *)

From Stdlib Require Import ZArith QArith Qminmax List String Ascii Bool Lia Lqa.
From Stdlib Require Import PeanoNat DecimalString DecimalZ Sorted Permutation.
Import ListNotations.

(* ================================================================== *)
(** * Part I. The programs                                              *)
(* ================================================================== *)

(** ** Python values, [str()] and [int()] *)

Module Py.

Inductive PyVal : Type :=
| PNone
| PInt (z : Z)
| PStr (s : string).

(** [str(z)] for an integer: the decimal numeral. *)
Definition Z_to_string (z : Z) : string :=
  NilZero.string_of_int (Z.to_int z).

(** [str(v)]. *)
Definition py_str (v : PyVal) : string :=
  match v with
  | PNone => "None"
  | PInt z => Z_to_string z
  | PStr s => s
  end.

(** ASCII white space, as stripped by [int()] and [str.strip()]. *)
Definition is_space (c : ascii) : bool :=
  let n := N_of_ascii c in
  ((9 <=? n) && (n <=? 13) || (28 <=? n) && (n <=? 32))%N.

Fixpoint lstrip (s : string) : string :=
  match s with
  | EmptyString => EmptyString
  | String c s' => if is_space c then lstrip s' else s
  end.

Fixpoint string_rev_onto (s acc : string) : string :=
  match s with
  | EmptyString => acc
  | String c s' => string_rev_onto s' (String c acc)
  end.

Definition string_rev (s : string) : string := string_rev_onto s EmptyString.

Definition strip (s : string) : string :=
  string_rev (lstrip (string_rev (lstrip s))).

Definition digit_of (c : ascii) : option Z :=
  let n := Z.of_N (N_of_ascii c) in
  if ((48 <=? n) && (n <=? 57))%Z then Some (n - 48)%Z else None.

(** Decimal digits, single underscores allowed between two digits. *)
Fixpoint int_digits (s : string) (acc : Z) (prev_digit : bool) : option Z :=
  match s with
  | EmptyString => if prev_digit then Some acc else None
  | String c s' =>
      match digit_of c with
      | Some d => int_digits s' (10 * acc + d)%Z true
      | None =>
          if (Ascii.eqb c "_" && prev_digit)%bool
          then int_digits s' acc false
          else None
      end
  end.

(** [int(s)] for a string, base 10; [None] stands for [ValueError].
    Only ASCII digits and white space are covered. *)
Definition int_of_str (s : string) : option Z :=
  match strip s with
  | String "+" r => int_digits r 0%Z false
  | String "-" r => option_map Z.opp (int_digits r 0%Z false)
  | t => int_digits t 0%Z false
  end.

(** [int(v)]; [None] stands for [ValueError] or [TypeError]. *)
Definition py_int (v : PyVal) : option Z :=
  match v with
  | PNone => None
  | PInt z => Some z
  | PStr s => int_of_str s
  end.

(** [s.lower()], ASCII letters. *)
Definition lower_ascii (c : ascii) : ascii :=
  let n := N_of_ascii c in
  if ((65 <=? n) && (n <=? 90))%N then ascii_of_N (n + 32) else c.

Fixpoint lower (s : string) : string :=
  match s with
  | EmptyString => EmptyString
  | String c s' => String (lower_ascii c) (lower s')
  end.

(** [pat in s]. *)
Fixpoint contains (pat s : string) : bool :=
  (String.prefix pat s ||
   match s with
   | EmptyString => false
   | String _ s' => contains pat s'
   end)%bool.

(** [s[:n]]. *)
Definition take (n : nat) (s : string) : string := String.substring 0 n s.

(** Truth value of an optional string: [None] and [""] are falsy. *)
Definition truthy (o : option string) : bool :=
  match o with
  | None => false
  | Some s => negb (String.eqb s "")
  end.

(** [set(l)] as a duplicate-free list; its order is never observed, every
    use below goes through [sorted]. *)
Definition py_set (l : list string) : list string := nodup string_dec l.

Definition mem (x : string) (l : list string) : bool :=
  existsb (String.eqb x) l.

(** [a - b] on sets. *)
Definition set_minus (a b : list string) : list string :=
  filter (fun x => negb (mem x b)) a.

(** [sorted(l)] on strings: code point order, here on bytes. *)
Fixpoint insert_sorted (x : string) (l : list string) : list string :=
  match l with
  | [] => [x]
  | y :: l' => if String.leb x y then x :: l else y :: insert_sorted x l'
  end.

Fixpoint sorted (l : list string) : list string :=
  match l with
  | [] => []
  | x :: l' => insert_sorted x (sorted l')
  end.

(** [sorted] on integers. *)
Fixpoint insert_sortedZ (x : Z) (l : list Z) : list Z :=
  match l with
  | [] => [x]
  | y :: l' => if (x <=? y)%Z then x :: l else y :: insert_sortedZ x l'
  end.

Fixpoint sortedZ (l : list Z) : list Z :=
  match l with
  | [] => []
  | x :: l' => insert_sortedZ x (sortedZ l')
  end.

(** [seq[i:i+size] for i in range(0, len(seq), size)], for [size > 0]. *)
Fixpoint chunked_from {A : Type} (fuel size : nat) (l : list A) : list (list A) :=
  match fuel with
  | O => []
  | S fuel' =>
      match l with
      | [] => []
      | _ => firstn size l :: chunked_from fuel' size (skipn size l)
      end
  end.

Definition chunked {A : Type} (l : list A) (size : nat) : list (list A) :=
  chunked_from (List.length l) size l.

End Py.
Import Py.

(** ** The environment of the scripts *)

(** One call of the [add_variant] end point: the offer of the URL and the
    JSON payload. Headers and the per-request timeout are not modelled. *)
Record Request : Type := mkRequest {
  req_offer : string;
  shopify_variant_ids : list Z;
  req_preorder_max_count : option Z
}.

(** What [resp.json()] gives, restricted to the key the scripts read:
    [data.get("existing_variants") or []]. *)
Record JsonView : Type := mkJson {
  existing_variants : list Z
}.

Definition empty_json : JsonView := mkJson [].

(** A [requests.Response]: [json = None] when the body is not JSON
    ([resp.json()] raises [ValueError]). *)
Record Response : Type := mkResponse {
  status_code : Z;
  text : string;
  retry_after : option string;        (* resp.headers.get("Retry-After") *)
  json : option JsonView
}.

(** [requests.post] either raises a [RequestException] or returns. *)
Inductive PostOutcome : Type :=
| NetworkError
| Replied (resp : Response).

(** The [GET .../product_variants] call of [get_variants_from_stoq_api]. *)
Inductive GetOutcome : Type :=
| GetNetworkError
| GetReplied (status : Z) (product_variants : list PyVal).

(** A row of the offers table as Step 09 reads it. *)
Record OfferRow : Type := mkOfferRow {
  row_id : string;                    (* offer.get("id") *)
  row_stoq_offer_id : option string;  (* offer.get("stoq_offer_id") *)
  row_internal_name : option string
}.

Record Env : Type := mkEnv {
  RS : Type;                          (* state of the remote service *)
  (** [requests.post]: outcome, seconds it took, next remote state *)
  remote_post : RS -> Request -> PostOutcome * Q * RS;
  (** [httpx.Client.get] on an offer's [product_variants] *)
  remote_get : RS -> string -> GetOutcome * RS;
  (** Python's [float()] on a header value *)
  py_float : string -> option Q;
  STOQ_API_BASE : option string;
  STOQ_API_ACCESS_KEY : option string;
  SUPABASE_URL : option string;
  SUPABASE_KEY : option string;
  (** offers with [status = "update"]: (stoq_offer_id, id, internal_name) *)
  db_offers_update : list (option string * option string * option string);
  (** offers with [status = "insert"] *)
  db_offers_insert : list OfferRow;
  (** the [variant_id] column of the variants of one offer *)
  db_variant_ids : string -> list PyVal;
  (** whether the status update of [mark_offer_done] goes through *)
  db_update_ok : string -> bool
}.

Record World (E : Env) : Type := mkWorld {
  w_remote : RS E;
  w_clock : Q;                         (* time.time(), seconds *)
  w_posts : list Request;              (* every requests.post, in order *)
  w_sleeps : list Q;                   (* every time.sleep, in order *)
  w_files : list (string * list Z);    (* skipped-id files written *)
  w_done : list string                 (* offers marked insert-completed *)
}.

Arguments mkWorld {E}.
Arguments w_remote {E}.
Arguments w_clock {E}.
Arguments w_posts {E}.
Arguments w_sleeps {E}.
Arguments w_files {E}.
Arguments w_done {E}.

(** ** Exceptions and the effect monad *)

Inductive Exn : Type :=
| RequestException                     (* requests / httpx network error *)
| HTTPStatusError (status : Z)         (* r.raise_for_status() *)
| RuntimeError (msg : string)
| ValueError
| UnboundLocalError
| OutOfFuel.                           (* a counter of the embedding ran out *)

Inductive Result (A : Type) : Type :=
| Ok (a : A)
| Raise (e : Exn).

Arguments Ok {A}.
Arguments Raise {A}.

Definition M (E : Env) (A : Type) : Type := World E -> Result A * World E.

Section Monad.
Context {E : Env}.

Definition ret {A} (a : A) : M E A := fun w => (Ok a, w).

Definition bind {A B} (m : M E A) (k : A -> M E B) : M E B :=
  fun w =>
    match m w with
    | (Ok a, w') => k a w'
    | (Raise e, w') => (Raise e, w')
    end.

Definition raise {A} (e : Exn) : M E A := fun w => (Raise e, w).

(** [try: m  except Exception: h] *)
Definition try_except {A} (m : M E A) (h : Exn -> M E A) : M E A :=
  fun w =>
    match m w with
    | (Ok a, w') => (Ok a, w')
    | (Raise e, w') => h e w'
    end.

(** The world after a [requests.post] that took [d] seconds and left the
    remote in state [s]. *)
Definition posted (w : World E) (req : Request) (d : Q) (s : RS E) : World E :=
  mkWorld s (w_clock w + d) (w_posts w ++ [req]) (w_sleeps w)
          (w_files w) (w_done w).

(** The world after [time.sleep(d)]. *)
Definition slept (w : World E) (d : Q) : World E :=
  mkWorld (w_remote w) (w_clock w + d) (w_posts w)
          (w_sleeps w ++ [d]) (w_files w) (w_done w).

(** [requests.post(url, ..., data=json.dumps(payload), ...)] *)
Definition requests_post (req : Request) : M E PostOutcome :=
  fun w =>
    let '(o, d, s) := remote_post E (w_remote w) req in
    (Ok o, posted w req d s).

(** [client.get(url, ...)] of [get_variants_from_stoq_api] *)
Definition httpx_get (offer : string) : M E GetOutcome :=
  fun w =>
    let '(o, s) := remote_get E (w_remote w) offer in
    (Ok o,
     mkWorld s (w_clock w) (w_posts w) (w_sleeps w) (w_files w) (w_done w)).

(** [time.sleep(d)]; a negative [d] raises [ValueError]. *)
Definition sleep (d : Q) : M E unit :=
  fun w =>
    if Qle_bool 0 d then (Ok tt, slept w d) else (Raise ValueError, w).

(** [time.time()] *)
Definition time : M E Q := fun w => (Ok (w_clock w), w).

(** [json.dump(...)] of the skipped ids into a fresh file *)
Definition write_file (name : string) (ids : list Z) : M E unit :=
  fun w =>
    (Ok tt,
     mkWorld (w_remote w) (w_clock w) (w_posts w) (w_sleeps w)
             (w_files w ++ [(name, ids)]) (w_done w)).

(** the status update of [mark_offer_done]; the client raises on failure *)
Definition db_mark_done (offer_id : string) : M E unit :=
  fun w =>
    if db_update_ok E offer_id
    then (Ok tt,
          mkWorld (w_remote w) (w_clock w) (w_posts w) (w_sleeps w)
                  (w_files w) (w_done w ++ [offer_id]))
    else (Raise RequestException, w).

End Monad.

Declare Scope monad_scope.
Delimit Scope monad_scope with monad.
Notation "x <- c1 ;; c2" := (bind c1 (fun x => c2))
  (at level 61, c1 at next level, right associativity) : monad_scope.
Notation "' pat <- c1 ;; c2" := (bind c1 (fun x => match x with pat => c2 end))
  (at level 61, pat pattern, c1 at next level, right associativity) : monad_scope.
Notation "c1 ;;; c2" := (bind c1 (fun _ => c2))
  (at level 61, right associativity) : monad_scope.
Open Scope monad_scope.

Definition is_2xx (c : Z) : bool := ((200 <=? c) && (c <? 300))%Z.

(** ** [JW_Step12_AddVariantsToExistingOffers.py] *)

Module Step12.
Section Step12.
Context (E : Env).
Local Open Scope string_scope.
Local Open Scope list_scope.

(** [resp.status_code in (429,) or 500 <= resp.status_code < 600] *)
Definition is_transient (c : Z) : bool :=
  ((c =? 429) || ((500 <=? c) && (c <? 600)))%Z.

(** [base_backoff * (2 ** (attempt - 1))] *)
Definition backoff_delay (base_backoff : Q) (attempt : Z) : Q :=
  base_backoff * inject_Z (2 ^ (attempt - 1)).

(** The delay chosen after a transient HTTP response. *)
Definition retry_delay (resp : Response) (base_backoff : Q) (attempt : Z) : Q :=
  match retry_after resp with
  | Some ra =>
      if String.eqb ra "" then backoff_delay base_backoff attempt
      else match py_float E ra with
           | Some d => d
           | None => backoff_delay base_backoff attempt
           end
  | None => backoff_delay base_backoff attempt
  end.

(** The [while True] loop of [_post_with_retries]; [attempt] is the local
    variable of that name. *)
Fixpoint post_loop (fuel : nat) (req : Request) (max_retries : Z)
         (base_backoff : Q) (attempt : Z) : M E Response :=
  match fuel with
  | O => raise OutOfFuel
  | S fuel' =>
      o <- requests_post req ;;
      match o with
      | NetworkError =>
          let attempt := (attempt + 1)%Z in
          if (attempt >? max_retries)%Z then raise RequestException
          else
            sleep (backoff_delay base_backoff attempt) ;;;
            post_loop fuel' req max_retries base_backoff attempt
      | Replied resp =>
          if is_transient (status_code resp) then
            let attempt := (attempt + 1)%Z in
            if (attempt >? max_retries)%Z then ret resp
            else
              sleep (retry_delay resp base_backoff attempt) ;;;
              post_loop fuel' req max_retries base_backoff attempt
          else ret resp
      end
  end.

Definition _post_with_retries (req : Request) (max_retries : Z)
           (base_backoff : Q) : M E Response :=
  post_loop (S (Z.to_nat max_retries)) req max_retries base_backoff 0%Z.

Definition _is_job_in_progress (err : option string) : bool :=
  let t := lower (match err with Some s => s | None => "" end) in
  contains "another job is in progress" t || contains "job is in progress" t.

(** The triple [(ok, json_or_none, err_text_or_none)]. *)
Definition AddResult : Type := (bool * option JsonView * option string)%type.

(** Lines 256-265: what [_try_add_chunk] returns for a response. *)
Definition add_result_of (resp : Response) : AddResult :=
  if is_2xx (status_code resp) then
    (true,
     Some (if String.eqb (text resp) "" then empty_json
           else match json resp with
                | Some j => j
                | None => empty_json
                end),
     None)
  else if ((status_code resp =? 409) || (status_code resp =? 422))%Z then
    (false, None, Some (text resp))
  else
    (false, None,
     Some ("HTTP " ++ Z_to_string (status_code resp) ++ ": " ++ text resp)%string).

Definition _try_add_chunk (stoq_offer_id : string) (ids : list Z)
           (preorder_max_count : option Z) (max_retries : Z)
           (base_backoff : Q) : M E AddResult :=
  if negb (truthy (STOQ_API_BASE E))
  then raise (RuntimeError "Missing STOQ_API_BASE env var.")
  else
    resp <- _post_with_retries
              (mkRequest stoq_offer_id ids preorder_max_count)
              max_retries base_backoff ;;
    ret (add_result_of resp).

(** The [while True] loop of [_try_add_chunk_with_lock_wait]; [start] and
    [sleep_s] are the local variables of those names. *)
Fixpoint lock_wait_loop (fuel : nat) (stoq_offer_id : string) (ids : list Z)
         (preorder_max_count : option Z) (max_retries : Z) (base_backoff : Q)
         (lock_wait_seconds lock_backoff_factor lock_backoff_cap : Q)
         (start sleep_s : Q) : M E AddResult :=
  match fuel with
  | O => raise OutOfFuel
  | S fuel' =>
      '(ok, body, err) <- _try_add_chunk stoq_offer_id ids preorder_max_count
                                         max_retries base_backoff ;;
      if (ok : bool) then ret (true, body, None)
      else if _is_job_in_progress err then
        now <- time ;;
        if Qle_bool lock_wait_seconds (now - start)
        then ret (false, None, err)
        else
          sleep sleep_s ;;;
          lock_wait_loop fuel' stoq_offer_id ids preorder_max_count
            max_retries base_backoff
            lock_wait_seconds lock_backoff_factor lock_backoff_cap
            start (Qmin lock_backoff_cap (sleep_s * lock_backoff_factor))
      else ret (false, None, err)
  end.

(** [fuel] bounds the number of probes of the [while True] loop. *)
Definition _try_add_chunk_with_lock_wait (fuel : nat)
           (stoq_offer_id : string) (ids : list Z)
           (preorder_max_count : option Z) (max_retries : Z) (base_backoff : Q)
           (lock_wait_seconds lock_backoff_start
            lock_backoff_factor lock_backoff_cap : Q) : M E AddResult :=
  start <- time ;;
  lock_wait_loop fuel stoq_offer_id ids preorder_max_count
    max_retries base_backoff
    lock_wait_seconds lock_backoff_factor lock_backoff_cap
    start lock_backoff_start.

(** Every call site passes [lock_wait_seconds=180], [lock_backoff_start=1.0],
    [lock_backoff_factor=1.8], [lock_backoff_cap=12.0]; with these the loop
    probes at most 181 times (see [EndFacts.lock_loop_ends]). *)
Definition lock_probes : nat := 181.

Definition add_chunk_locked (stoq_offer_id : string) (ids : list Z)
           (preorder_max_count : option Z) (max_retries : Z)
           (base_backoff : Q) : M E AddResult :=
  _try_add_chunk_with_lock_wait lock_probes stoq_offer_id ids
    preorder_max_count max_retries base_backoff
    180 1 (18 # 10) 12.

(** The recursion of [_divide_and_conquer_on_422]. The lists
    [skipped_invalid] and [added_ok] are mutated in place by the script;
    here they go in and come out. The second probe of each level is sent
    with [left], as in the script (line 313). *)
Fixpoint divide_rec (fuel : nat) (stoq_offer_id : string) (ids : list Z)
         (preorder_max_count : option Z) (max_retries : Z) (base_backoff : Q)
         (skipped_invalid added_ok : list Z) : M E (list Z * list Z) :=
  match fuel with
  | O => raise OutOfFuel
  | S fuel' =>
      match ids with
      | [] => ret (skipped_invalid, added_ok)
      | [x] => ret (skipped_invalid ++ [x], added_ok)
      | _ =>
          let mid := (List.length ids / 2)%nat in
          let left := firstn mid ids in
          let right := skipn mid ids in
          '(ok, _, _) <- add_chunk_locked stoq_offer_id left
                           preorder_max_count max_retries base_backoff ;;
          '(skipped_invalid, added_ok) <-
             (if (ok : bool) then ret (skipped_invalid, added_ok ++ left)
              else divide_rec fuel' stoq_offer_id left preorder_max_count
                     max_retries base_backoff skipped_invalid added_ok) ;;
          '(ok, _, _) <- add_chunk_locked stoq_offer_id left
                           preorder_max_count max_retries base_backoff ;;
          if (ok : bool) then ret (skipped_invalid, added_ok ++ right)
          else divide_rec fuel' stoq_offer_id right preorder_max_count
                 max_retries base_backoff skipped_invalid added_ok
      end
  end.

(** Returns the pair [(skipped_invalid, added_ok)] after the call. *)
Definition _divide_and_conquer_on_422 (stoq_offer_id : string) (ids : list Z)
           (preorder_max_count : option Z) (max_retries : Z) (base_backoff : Q)
           (skipped_invalid added_ok : list Z) : M E (list Z * list Z) :=
  divide_rec (S (List.length ids)) stoq_offer_id ids preorder_max_count
    max_retries base_backoff skipped_invalid added_ok.

(** [err and ("422" in err or "already" in err.lower()
             or "unprocessable" in err.lower())] *)
Definition looks_like_422 (err : option string) : bool :=
  match err with
  | None => false
  | Some e =>
      negb (String.eqb e "") &&
      (contains "422" e || contains "already" (lower e)
       || contains "unprocessable" (lower e))
  end.

(** The summary dictionary of [call_stoq_add_variants]. The name of the
    skipped file is modelled without its time stamp. *)
Record Summary : Type := mkSummary {
  offer_id : string;
  requested_count : nat;
  added_ok_count : nat;
  skipped_invalid_count : nat;
  added_ok_sample : list Z;
  skipped_invalid_sample : list Z;
  skipped_file : option string
}.

(** The accumulators of the chunk loop:
    [(added_ok, skipped_invalid, first_error)]. *)
Definition Acc : Type := (list Z * list Z * option string)%type.

(** The [for i in range(0, total, chunk_size)] loop, over its chunks. *)
Fixpoint add_chunks (chunks : list (list Z)) (stoq_offer_id : string)
         (preorder_max_count : option Z) (max_retries : Z) (base_backoff : Q)
         (added_ok skipped_invalid : list Z) (first_error : option string)
  : M E Acc :=
  match chunks with
  | [] => ret (added_ok, skipped_invalid, first_error)
  | chunk :: rest =>
      '(ok, _, err) <- add_chunk_locked stoq_offer_id chunk
                         preorder_max_count max_retries base_backoff ;;
      if (ok : bool) then
        add_chunks rest stoq_offer_id preorder_max_count max_retries
          base_backoff (added_ok ++ chunk) skipped_invalid first_error
      else if looks_like_422 err then
        '(skipped_invalid, added_ok) <-
           _divide_and_conquer_on_422 stoq_offer_id chunk preorder_max_count
             max_retries base_backoff skipped_invalid added_ok ;;
        add_chunks rest stoq_offer_id preorder_max_count max_retries
          base_backoff added_ok skipped_invalid
          (match first_error with
           | None =>
               Some ("Some IDs could not be added (likely already present). Example error: "
                     ++ take 200 (match err with Some e => e | None => "" end))%string
           | Some _ => first_error
           end)
      else
        add_chunks rest stoq_offer_id preorder_max_count max_retries
          base_backoff added_ok skipped_invalid
          (match first_error with
           | None =>
               Some (if truthy err
                     then match err with Some e => e | None => "" end
                     else "Unknown error while adding variants.")
           | Some _ => first_error
           end)
  end.

(** [overall_ok = (len(added_ok) > 0) and
                  (len(skipped_invalid) == 0 or len(added_ok) >= 1)] *)
Definition overall_ok (added_ok skipped_invalid : list Z) : bool :=
  (0 <? List.length added_ok)%nat &&
  ((List.length skipped_invalid =? 0)%nat || (1 <=? List.length added_ok)%nat).

Definition call_stoq_add_variants (stoq_offer_id : string)
           (variant_ids : list Z) (preorder_max_count : option Z)
           (chunk_size : nat) (max_retries : Z) (base_backoff : Q)
           (write_skipped_file : bool) (skipped_filename_prefix : string)
  : M E (bool * Summary * option string) :=
  let total := List.length variant_ids in
  if (chunk_size =? 0)%nat then raise ValueError   (* range() step of zero *)
  else
    '(added_ok, skipped_invalid, first_error) <-
       add_chunks (chunked variant_ids chunk_size) stoq_offer_id
         preorder_max_count max_retries base_backoff [] [] None ;;
    let summary fname :=
      mkSummary stoq_offer_id total (List.length added_ok)
        (List.length skipped_invalid) (firstn 10 added_ok)
        (firstn 10 skipped_invalid) fname in
    fname <-
      (match write_skipped_file, skipped_invalid with
       | true, _ :: _ =>
           let fname := (skipped_filename_prefix ++ "_" ++ stoq_offer_id)%string in
           write_file fname skipped_invalid ;;; ret (Some fname)
       | _, _ => ret None
       end) ;;
    ret (overall_ok added_ok skipped_invalid, summary fname, first_error).

(** [_coerce_ids_to_int]: the integers, and the notice it prints when some
    value is not numeric: their number, the first ten, and whether more
    follow. *)
Fixpoint coerce_split (ids : list string) : list Z * list string :=
  match ids with
  | [] => ([], [])
  | x :: rest =>
      let '(ok, bad) := coerce_split rest in
      match int_of_str x with
      | Some n => (n :: ok, bad)
      | None => (ok, x :: bad)
      end
  end.

Definition Notice : Type := (nat * list string * bool)%type.

Definition _coerce_ids_to_int (ids : list string) : list Z * option Notice :=
  let '(ok, bad) := coerce_split ids in
  (ok,
   match bad with
   | [] => None
   | _ => Some (List.length bad, firstn 10 bad, (10 <? List.length bad)%nat)
   end).

Definition make_supabase : M E unit :=
  if negb (truthy (SUPABASE_URL E)) || negb (truthy (SUPABASE_KEY E))
  then raise (RuntimeError "Missing SUPABASE_URL or SUPABASE_KEY env vars.")
  else ret tt.

Definition get_stoq_offer_ids_from_db
  : M E (list (option string * option string * option string)) :=
  ret (db_offers_update E).

(** [r.raise_for_status()] raises on 4xx and 5xx. *)
Definition get_variants_from_stoq_api (stoq_offer_id : string)
  : M E (list string) :=
  if negb (truthy (STOQ_API_BASE E))
  then raise (RuntimeError "Missing STOQ_API_BASE env var.")
  else
    o <- httpx_get stoq_offer_id ;;
    match o with
    | GetNetworkError => raise RequestException
    | GetReplied status vs =>
        if ((400 <=? status) && (status <? 600))%Z
        then raise (HTTPStatusError status)
        else ret (map py_str vs)
    end.

(** Called with the one-element set [{plan_id}]. *)
Definition fetch_variants_for_offer_ids (offer_ids : list string)
  : M E (list string) :=
  ret (flat_map (fun o => map py_str (db_variant_ids E o)) offer_ids).

(** The set differencer, lines 425-429 of [main]. *)
Definition to_remove (variant_ids_from_api variants_from_db : list string)
  : list string :=
  sorted (set_minus (py_set variant_ids_from_api) (py_set variants_from_db)).

Definition to_add (variant_ids_from_api variants_from_db : list string)
  : list string :=
  sorted (set_minus (py_set variants_from_db) (py_set variant_ids_from_api)).

(** What one turn of the loop of [main] leaves behind: the two planned
    integer lists, the notices of the coercions, and the result of the add
    call when there was something to add. *)
Record OfferOutcome : Type := mkOutcome {
  out_offer : string;
  out_to_remove_int : list Z;
  out_to_add_int : list Z;
  out_notices : list Notice;
  out_add : option (bool * Summary * option string)
}.

Definition opt_list {A} (o : option A) : list A :=
  match o with Some a => [a] | None => [] end.

(** The body of the [for offer_id, plan_id, internal_nm in offer_ids] loop. *)
Definition main_body (row : option string * option string * option string)
  : M E OfferOutcome :=
  let '(offer, plan, _) := row in
  match offer, plan with
  | Some offer_id, Some plan_id =>
      if negb (truthy offer) || negb (truthy plan)
      then raise (RuntimeError "Offer not found for internal_name 'Preorder-20wks-40'.")
      else
        variant_ids_from_api <- get_variants_from_stoq_api offer_id ;;
        variants_from_db <- fetch_variants_for_offer_ids [plan_id] ;;
        let '(to_remove_int, n1) :=
          _coerce_ids_to_int (to_remove variant_ids_from_api variants_from_db) in
        let '(to_add_int, n2) :=
          _coerce_ids_to_int (to_add variant_ids_from_api variants_from_db) in
        add <-
          (match to_add_int with
           | [] => ret None
           | _ =>
               r <- call_stoq_add_variants offer_id to_add_int None 75 3 1
                      true "skipped_invalid_add" ;;
               ret (Some r)
           end) ;;
        ret (mkOutcome offer_id to_remove_int to_add_int
               (opt_list n1 ++ opt_list n2) add)
  | _, _ =>
      raise (RuntimeError "Offer not found for internal_name 'Preorder-20wks-40'.")
  end.

Fixpoint main_loop (rows : list (option string * option string * option string))
  : M E (list OfferOutcome) :=
  match rows with
  | [] => ret []
  | row :: rest =>
      o <- main_body row ;;
      os <- main_loop rest ;;
      ret (o :: os)
  end.

Definition main : M E (list OfferOutcome) :=
  make_supabase ;;;
  offer_ids <- get_stoq_offer_ids_from_db ;;
  main_loop offer_ids.

End Step12.
End Step12.

(** ** [JW_Step11_RemoveVariantsFromExistingOffers.py]

    Its [_post_with_retries], [_try_add_chunk], [_coerce_ids_to_int],
    [get_variants_from_stoq_api] and the set differencer of [main] are the
    same text as in Step 12 and are shared with it. Its add path has no
    lock waiting, and its bisection probes [left], then [right]. *)

Module Step11.
Section Step11.
Context (E : Env).
Local Open Scope string_scope.
Local Open Scope list_scope.

Definition _post_with_retries := Step12._post_with_retries E.
Definition _try_add_chunk := Step12._try_add_chunk E.
Definition get_variants_from_stoq_api := Step12.get_variants_from_stoq_api E.

Fixpoint divide_rec (fuel : nat) (stoq_offer_id : string) (ids : list Z)
         (preorder_max_count : option Z) (max_retries : Z) (base_backoff : Q)
         (skipped_invalid added_ok : list Z) : M E (list Z * list Z) :=
  match fuel with
  | O => raise OutOfFuel
  | S fuel' =>
      match ids with
      | [] => ret (skipped_invalid, added_ok)
      | [x] => ret (skipped_invalid ++ [x], added_ok)
      | _ =>
          let mid := (List.length ids / 2)%nat in
          let left := firstn mid ids in
          let right := skipn mid ids in
          '(ok, _, _) <- _try_add_chunk stoq_offer_id left
                           preorder_max_count max_retries base_backoff ;;
          '(skipped_invalid, added_ok) <-
             (if (ok : bool) then ret (skipped_invalid, added_ok ++ left)
              else divide_rec fuel' stoq_offer_id left preorder_max_count
                     max_retries base_backoff skipped_invalid added_ok) ;;
          '(ok, _, _) <- _try_add_chunk stoq_offer_id right
                           preorder_max_count max_retries base_backoff ;;
          if (ok : bool) then ret (skipped_invalid, added_ok ++ right)
          else divide_rec fuel' stoq_offer_id right preorder_max_count
                 max_retries base_backoff skipped_invalid added_ok
      end
  end.

Definition _divide_and_conquer_on_422 (stoq_offer_id : string) (ids : list Z)
           (preorder_max_count : option Z) (max_retries : Z) (base_backoff : Q)
           (skipped_invalid added_ok : list Z) : M E (list Z * list Z) :=
  divide_rec (S (List.length ids)) stoq_offer_id ids preorder_max_count
    max_retries base_backoff skipped_invalid added_ok.

Fixpoint add_chunks (chunks : list (list Z)) (stoq_offer_id : string)
         (preorder_max_count : option Z) (max_retries : Z) (base_backoff : Q)
         (added_ok skipped_invalid : list Z) (first_error : option string)
  : M E Step12.Acc :=
  match chunks with
  | [] => ret (added_ok, skipped_invalid, first_error)
  | chunk :: rest =>
      '(ok, _, err) <- _try_add_chunk stoq_offer_id chunk
                         preorder_max_count max_retries base_backoff ;;
      if (ok : bool) then
        add_chunks rest stoq_offer_id preorder_max_count max_retries
          base_backoff (added_ok ++ chunk) skipped_invalid first_error
      else if Step12.looks_like_422 err then
        '(skipped_invalid, added_ok) <-
           _divide_and_conquer_on_422 stoq_offer_id chunk preorder_max_count
             max_retries base_backoff skipped_invalid added_ok ;;
        add_chunks rest stoq_offer_id preorder_max_count max_retries
          base_backoff added_ok skipped_invalid
          (match first_error with
           | None =>
               Some ("Some IDs could not be added (likely already present). Example error: "
                     ++ take 200 (match err with Some e => e | None => "" end))%string
           | Some _ => first_error
           end)
      else
        add_chunks rest stoq_offer_id preorder_max_count max_retries
          base_backoff added_ok skipped_invalid
          (match first_error with
           | None =>
               Some (if truthy err
                     then match err with Some e => e | None => "" end
                     else "Unknown error while adding variants.")
           | Some _ => first_error
           end)
  end.

Definition call_stoq_add_variants (stoq_offer_id : string)
           (variant_ids : list Z) (preorder_max_count : option Z)
           (chunk_size : nat) (max_retries : Z) (base_backoff : Q)
           (write_skipped_file : bool) (skipped_filename_prefix : string)
  : M E (bool * Step12.Summary * option string) :=
  let total := List.length variant_ids in
  if (chunk_size =? 0)%nat then raise ValueError
  else
    '(added_ok, skipped_invalid, first_error) <-
       add_chunks (chunked variant_ids chunk_size) stoq_offer_id
         preorder_max_count max_retries base_backoff [] [] None ;;
    let summary fname :=
      Step12.mkSummary stoq_offer_id total (List.length added_ok)
        (List.length skipped_invalid) (firstn 10 added_ok)
        (firstn 10 skipped_invalid) fname in
    fname <-
      (match write_skipped_file, skipped_invalid with
       | true, _ :: _ =>
           let fname := (skipped_filename_prefix ++ "_" ++ stoq_offer_id)%string in
           write_file fname skipped_invalid ;;; ret (Some fname)
       | _, _ => ret None
       end) ;;
    ret (Step12.overall_ok added_ok skipped_invalid, summary fname, first_error).

End Step11.
End Step11.

(** ** [JW_Step09_AddVariantsToNewSellingPlan.py] *)

Module Step09.
Section Step09.
Context (E : Env).
Local Open Scope string_scope.
Local Open Scope list_scope.

Definition CHUNK_SIZE : nat := 50.
Definition MAX_RETRIES : Z := 3.
Definition INITIAL_BACKOFF : Q := 1.

(** [sorted(set(ids))] over the values [int()] accepts; the others are
    passed over ([except (TypeError, ValueError): pass]). *)
Fixpoint coerce_rows (rows : list PyVal) : list Z :=
  match rows with
  | [] => []
  | v :: rest =>
      match v with
      | PNone => coerce_rows rest
      | _ => match py_int v with
             | Some n => n :: coerce_rows rest
             | None => coerce_rows rest
             end
      end
  end.

Definition fetch_variant_ids_for_offer (offer_id : string) : M E (list Z) :=
  ret (sortedZ (nodup Z.eq_dec (coerce_rows (db_variant_ids E offer_id)))).

(** [resp.status_code in (429, 500, 502, 503, 504)] *)
Definition is_retried_status (c : Z) : bool :=
  ((c =? 429) || (c =? 500) || (c =? 502) || (c =? 503) || (c =? 504))%Z.

(** The [for attempt in range(1, MAX_RETRIES + 1)] loop of
    [_post_with_retries]; [resp] is the last response bound, read by the
    [return resp] after the loop. *)
Fixpoint post_attempts (attempts : list Z) (req : Request) (backoff : Q)
         (resp : option Response) : M E Response :=
  match attempts with
  | [] =>
      match resp with
      | Some r => ret r
      | None => raise UnboundLocalError
      end
  | attempt :: rest =>
      o <- requests_post req ;;
      match o with
      | Replied r =>
          if is_2xx (status_code r) then ret r
          else if is_retried_status (status_code r)
                  && (attempt <? MAX_RETRIES)%Z then
            sleep backoff ;;;
            post_attempts rest req (backoff * 2) (Some r)
          else ret r
      | NetworkError =>
          if (attempt =? MAX_RETRIES)%Z then raise RequestException
          else
            sleep backoff ;;;
            post_attempts rest req (backoff * 2) resp
      end
  end.

Definition range_from_1 (n : Z) : list Z :=
  map (fun i => Z.of_nat i) (seq 1 (Z.to_nat n)).

Definition _post_with_retries (req : Request) : M E Response :=
  post_attempts (range_from_1 MAX_RETRIES) req INITIAL_BACKOFF None.

Definition memZ (x : Z) (l : list Z) : bool := existsb (Z.eqb x) l.

(** [data.get("existing_variants") or []] after [resp.json()], with
    [data = {}] when the body is not JSON. *)
Definition existing_of (r : Response) : list Z :=
  match json r with
  | Some j => existing_variants j
  | None => []
  end.

(** [[v for v in batch if v not in existing]] *)
Definition strip_existing (batch existing : list Z) : list Z :=
  filter (fun v => negb (memZ v existing)) batch.

(** Lines 177-186, the bisect strategy at the end of
    [_add_chunk_or_bisect]; [recur] is the recursive call. *)
Definition bisect_with (recur : list Z -> M E (bool * list Z))
           (batch_to_bisect : list Z) : M E (bool * list Z) :=
  match batch_to_bisect with
  | [bad] => ret (true, [bad])
  | _ =>
      let mid := (List.length batch_to_bisect / 2)%nat in
      let left := firstn mid batch_to_bisect in
      let right := skipn mid batch_to_bisect in
      '(ok_left, skipped_left) <- recur left ;;
      '(ok_right, skipped_right) <- recur right ;;
      ret (ok_left && ok_right, skipped_left ++ skipped_right)
  end.

(** The nested function [_add_chunk_or_bisect] of [stoq_add_variants];
    [plan_id] is the variable it closes over. Returns [(success, skipped_ids)]. *)
Fixpoint add_chunk_rec (fuel : nat) (plan_id : string) (batch : list Z)
  : M E (bool * list Z) :=
  match fuel with
  | O => raise OutOfFuel
  | S fuel' =>
      match batch with
      | [] => ret (true, [])
      | _ =>
          let bisect := bisect_with (add_chunk_rec fuel' plan_id) in
          resp <- _post_with_retries (mkRequest plan_id batch None) ;;
          if is_2xx (status_code resp) then ret (true, [])
          else if (status_code resp =? 422)%Z then
            match existing_of resp with
            | _ :: _ =>
                let remainder := strip_existing batch (existing_of resp) in
                match remainder with
                | [] => ret (true, [])
                | _ =>
                    resp2 <- _post_with_retries (mkRequest plan_id remainder None) ;;
                    if is_2xx (status_code resp2) then ret (true, [])
                    else if negb (status_code resp2 =? 422)%Z
                    then ret (false, remainder)
                    else
                      match existing_of resp2 with
                      | _ :: _ =>
                          let remainder2 :=
                            strip_existing remainder (existing_of resp2) in
                          match remainder2 with
                          | [] => ret (true, [])
                          | _ =>
                              resp3 <- _post_with_retries
                                         (mkRequest plan_id remainder2 None) ;;
                              if is_2xx (status_code resp3) then ret (true, [])
                              else bisect remainder2
                          end
                      | [] => bisect remainder
                      end
                end
            | [] => bisect batch
            end
          else ret (false, batch)
      end
  end.

Definition _add_chunk_or_bisect (plan_id : string) (batch : list Z)
  : M E (bool * list Z) :=
  add_chunk_rec (S (List.length batch)) plan_id batch.

(** The second component of the result of [stoq_add_variants]. *)
Inductive Info : Type :=
| NoVariants                                   (* "No variants to add." *)
| HttpError (failed_chunk skipped_so_far : list Z)
| AllProcessed (skipped_invalid_variants : list Z).

(** The [for idx, raw_batch in enumerate(chunked(...))] loop;
    [known_existing] and [skipped_invalid] are its two accumulators. *)
Fixpoint chunks_loop (chunks : list (list Z)) (plan_id : string)
         (known_existing skipped_invalid : list Z) : M E (bool * Info) :=
  match chunks with
  | [] => ret (true, AllProcessed (sortedZ (nodup Z.eq_dec skipped_invalid)))
  | raw_batch :: rest =>
      let batch := filter (fun v => negb (memZ v known_existing)) raw_batch in
      match batch with
      | [] => chunks_loop rest plan_id known_existing skipped_invalid
      | _ =>
          '(ok, skipped) <- _add_chunk_or_bisect plan_id batch ;;
          let skipped_invalid := skipped_invalid ++ skipped in
          let known_existing := known_existing ++ skipped in
          if (ok : bool) then
            chunks_loop rest plan_id known_existing skipped_invalid
          else
            ret (false, HttpError batch (firstn 200 skipped_invalid))
      end
  end.

Definition stoq_add_variants (plan_id : string) (variant_ids : list Z)
  : M E (bool * Info) :=
  match variant_ids with
  | [] => ret (true, NoVariants)
  | _ => chunks_loop (chunked variant_ids CHUNK_SIZE) plan_id [] []
  end.

Definition mark_offer_done (offer_id : string) : M E unit :=
  db_mark_done offer_id.

(** The accumulators of [main]: [succeeded] and the [failures] list. *)
Record Failure : Type := mkFailure {
  f_offer_id : string;
  f_plan_id : string;
  f_details : Info
}.

Fixpoint main_loop (offers : list OfferRow) (succeeded : nat)
         (failures : list Failure) : M E (nat * list Failure) :=
  match offers with
  | [] => ret (succeeded, failures)
  | offer :: rest =>
      if truthy (row_stoq_offer_id offer) then
        let plan_id :=
          match row_stoq_offer_id offer with Some p => p | None => "" end in
        ids <- fetch_variant_ids_for_offer (row_id offer) ;;
        '(ok, info) <- stoq_add_variants plan_id ids ;;
        if (ok : bool) then
          (* MARK_DONE_ON_SUCCESS = "true" *)
          try_except (mark_offer_done (row_id offer)) (fun _ => ret tt) ;;;
          main_loop rest (S succeeded) failures
        else
          main_loop rest succeeded
            (failures ++ [mkFailure (row_id offer) plan_id info])
      else main_loop rest succeeded failures
  end.

Definition main : M E (nat * list Failure) :=
  if negb (truthy (STOQ_API_ACCESS_KEY E))
  then raise (RuntimeError "Missing STOQ_API_ACCESS_KEY.")
  else
    (if negb (truthy (SUPABASE_URL E)) || negb (truthy (SUPABASE_KEY E))
     then raise (RuntimeError "Missing SUPABASE_URL or SUPABASE_KEY env vars.")
     else ret tt) ;;;
    main_loop (db_offers_insert E) 0 [].

End Step09.
End Step09.

(** ** [JW_Step11_RemoveVariantsFromExistingOffers.py]: the remove path *)

(** The [remove_variant] end point, beside the environment: the outcome of
    [requests.delete], the seconds it took and the next remote state; and
    the text of the exception it raises. *)
Record DeleteApi (E : Env) : Type := mkDeleteApi {
  remote_delete : RS E -> Request -> PostOutcome * Q * RS E;
  exception_text : RS E -> Request -> string
}.

Arguments remote_delete {E}.
Arguments exception_text {E}.

Module Step11Remove.
Section Step11Remove.
Context (E : Env) (D : DeleteApi E).
Local Open Scope string_scope.
Local Open Scope list_scope.

Definition REMOVE_BATCH_SIZE : nat := 10.
Definition RETRY_TIMES : Z := 3.
Definition REMOVE_MAX_RETRIES : nat := 2.
Definition RETRY_BASE_SLEEP : Q := 1.
Definition REMOVE_RATE_SLEEP : Q := 1 # 2.
Definition RATE_LIMIT_SLEEP : Q := 15 # 100.

(** [requests.delete(url, headers=..., json=payload, timeout=...)]: the
    outcome, with the text [str(e)] of the exception when it raises. The
    call is no POST and leaves [w_posts] alone. *)
Definition requests_delete (req : Request) : M E (PostOutcome * string) :=
  fun w =>
    let '(o, d, s) := remote_delete D (w_remote w) req in
    (Ok (o, exception_text D (w_remote w) req),
     mkWorld s (w_clock w + d) (w_posts w) (w_sleeps w) (w_files w) (w_done w)).

(** The tuple [(ok, response, json_body_or_None, error_message_or_None)]. *)
Definition Retried : Type :=
  (bool * option Response * option JsonView * option string)%type.

(** [resp.json() if resp.content else None], [None] when the body is not
    JSON. *)
Definition body_of (resp : Response) : option JsonView :=
  if String.eqb (text resp) "" then None else json resp.

(** The [for attempt in range(1, RETRY_TIMES + 1)] loop of [with_retries],
    applied to [requests.delete]; [last_err] is its local variable. *)
Fixpoint with_retries_from (attempts : list Z) (req : Request)
         (last_err : option string) : M E Retried :=
  match attempts with
  | [] => ret (false, None, None, last_err)
  | attempt :: rest =>
      '(o, msg) <- requests_delete req ;;
      let go_on (last_err : option string) :=
        (if (attempt <? RETRY_TIMES)%Z
         then sleep (RETRY_BASE_SLEEP * inject_Z (2 ^ (attempt - 1)))
         else ret tt) ;;;
        with_retries_from rest req last_err in
      match o with
      | Replied resp =>
          if is_2xx (status_code resp)
          then ret (true, Some resp, body_of resp, None)
          else go_on (Some ("HTTP " ++ Z_to_string (status_code resp) ++ ": "
                            ++ take 500 (text resp))%string)
      | NetworkError => go_on (Some ("RequestException: " ++ msg)%string)
      end
  end.

Definition with_retries (req : Request) : M E Retried :=
  with_retries_from (Step09.range_from_1 RETRY_TIMES) req None.

(** The triple [(ok, json_body, err_msg)]. *)
Definition Removed : Type := (bool * option JsonView * option string)%type.

(** [stoq_headers()] is evaluated as an argument of [with_retries]. *)
Definition call_stoq_remove_variants (stoq_offer_id : string)
           (variant_ids : list Z) : M E Removed :=
  if negb (truthy (STOQ_API_BASE E))
  then raise (RuntimeError "Missing STOQ_API_BASE env var.")
  else if negb (truthy (STOQ_API_ACCESS_KEY E))
  then raise (RuntimeError "Missing STOQ_API_ACCESS_KEY environment variable.")
  else
    '(ok, _, body, err) <- with_retries (mkRequest stoq_offer_id variant_ids None) ;;
    sleep RATE_LIMIT_SLEEP ;;;
    ret (ok, body, err).

(** [err and any(t in err for t in ("429", ..., "Temporary"))] *)
Definition transient_text (err : option string) : bool :=
  match err with
  | None => false
  | Some e =>
      negb (String.eqb e "") &&
      existsb (fun t => contains t e)
        ["429"; "502"; "503"; "504"; "timeout"; "connection"; "Temporary"]
  end.

(** The [for attempt in range(max_retries + 1)] loop of
    [_retry_remove_batch]; [left] is [max_retries - attempt], so that
    [attempt < max_retries] reads [left] is not zero. The last turn always
    returns: the end of the [for] is not reached. *)
Fixpoint retry_remove_loop (left : nat) (stoq_offer_id : string)
         (batch : list Z) (backoff : Q) : M E Removed :=
  '(ok, body, err) <- call_stoq_remove_variants stoq_offer_id batch ;;
  if (ok : bool) then ret (true, body, None)
  else
    match left with
    | S left' =>
        if transient_text err then
          sleep backoff ;;;
          retry_remove_loop left' stoq_offer_id batch (backoff * 2)
        else ret (false, body, err)
    | O => ret (false, body, err)
    end.

(** Called with the default [max_retries = REMOVE_MAX_RETRIES]. *)
Definition _retry_remove_batch (stoq_offer_id : string) (batch : list Z)
  : M E Removed :=
  retry_remove_loop REMOVE_MAX_RETRIES stoq_offer_id batch 1.

(** An entry of the [failed] list. *)
Record FailedRow : Type := mkFailed {
  f_action : string;
  f_offer_id : string;
  f_variant_id : Z;
  f_internal_name : string;
  f_error : string
}.

(** [err1 or "unknown_error"] *)
Definition error_or_unknown (err : option string) : string :=
  match err with
  | Some e => if String.eqb e "" then "unknown_error" else e
  | None => "unknown_error"
  end.

(** The per-item fall back, [for vid in batch]. *)
Fixpoint remove_each (batch : list Z) (stoq_offer_id internal_name : string)
         (removed_ok : list Z) (failed : list FailedRow)
  : M E (list Z * list FailedRow) :=
  match batch with
  | [] => ret (removed_ok, failed)
  | vid :: rest =>
      '(ok1, _, err1) <- call_stoq_remove_variants stoq_offer_id [vid] ;;
      let '(removed_ok, failed) :=
        if (ok1 : bool) then (removed_ok ++ [vid], failed)
        else (removed_ok,
              failed ++ [mkFailed "remove" stoq_offer_id vid internal_name
                           (error_or_unknown err1)]) in
      sleep REMOVE_RATE_SLEEP ;;;
      remove_each rest stoq_offer_id internal_name removed_ok failed
  end.

(** The [for batch in chunked(unique_vids, batch_size)] loop. The call
    back [on_body_flags] only fills lists that [main] never reads; it is
    left out. *)
Fixpoint remove_batches (batches : list (list Z))
         (stoq_offer_id internal_name : string)
         (removed_ok : list Z) (failed : list FailedRow)
  : M E (list Z * list FailedRow) :=
  match batches with
  | [] => ret (removed_ok, failed)
  | batch :: rest =>
      '(ok, _, _) <- _retry_remove_batch stoq_offer_id batch ;;
      if (ok : bool) then
        sleep REMOVE_RATE_SLEEP ;;;
        remove_batches rest stoq_offer_id internal_name
          (removed_ok ++ batch) failed
      else
        '(removed_ok, failed) <-
           remove_each batch stoq_offer_id internal_name removed_ok failed ;;
        remove_batches rest stoq_offer_id internal_name removed_ok failed
  end.

(** The summary dictionary of [remove_variants_chunked]. *)
Record RemoveSummary : Type := mkRemoveSummary {
  offer_id : string;
  internal_name : string;
  requested : nat;
  removed_ok_count : nat;
  failed_count : nat;
  removed_ok_sample : list Z;
  failed_sample : list FailedRow;
  failed : list FailedRow
}.

(** [(stoq_to_internal or {}).get(stoq_offer_id, "")] *)
Definition internal_name_of (stoq_to_internal : list (string * string))
           (stoq_offer_id : string) : string :=
  match find (fun p => String.eqb (fst p) stoq_offer_id) stoq_to_internal with
  | Some p => snd p
  | None => ""
  end.

(** [sorted(set(_coerce_ids_to_int(vids)))] *)
Definition unique_vids (vids : list string) : list Z :=
  sortedZ (nodup Z.eq_dec (fst (Step12._coerce_ids_to_int vids))).

(** [stoq_to_internal] is [[]] for [None]; a [batch_size] of zero makes
    [range] raise when the generator [chunked] is first advanced. *)
Definition remove_variants_chunked (stoq_offer_id : string)
           (vids : list string) (stoq_to_internal : list (string * string))
           (batch_size : nat) : M E RemoveSummary :=
  let internal_name := internal_name_of stoq_to_internal stoq_offer_id in
  let unique_vids := unique_vids vids in
  let total := List.length unique_vids in
  if (batch_size =? 0)%nat then raise ValueError
  else
    '(removed_ok, failed) <-
       remove_batches (chunked unique_vids batch_size) stoq_offer_id
         internal_name [] [] ;;
    ret (mkRemoveSummary stoq_offer_id internal_name total
           (List.length removed_ok) (List.length failed)
           (firstn 10 removed_ok) (firstn 5 failed) failed).

(** The body of the loop of [main]: the plan, then the removal of what
    the remote holds and the database does not. Nothing is added. *)
Definition main_body (row : option string * option string * option string)
  : M E RemoveSummary :=
  let '(offer, plan, _) := row in
  match offer, plan with
  | Some offer_id, Some plan_id =>
      if negb (truthy offer) || negb (truthy plan)
      then raise (RuntimeError "Offer not found for internal_name 'Preorder-20wks-40'.")
      else
        variant_ids_from_api <- Step12.get_variants_from_stoq_api E offer_id ;;
        variants_from_db <- Step12.fetch_variants_for_offer_ids E [plan_id] ;;
        remove_variants_chunked offer_id
          (Step12.to_remove variant_ids_from_api variants_from_db)
          [] REMOVE_BATCH_SIZE
  | _, _ =>
      raise (RuntimeError "Offer not found for internal_name 'Preorder-20wks-40'.")
  end.

Fixpoint main_loop (rows : list (option string * option string * option string))
  : M E (list RemoveSummary) :=
  match rows with
  | [] => ret []
  | row :: rest =>
      s <- main_body row ;;
      ss <- main_loop rest ;;
      ret (s :: ss)
  end.

Definition main : M E (list RemoveSummary) :=
  Step12.make_supabase E ;;;
  offer_ids <- Step12.get_stoq_offer_ids_from_db E ;;
  main_loop offer_ids.

End Step11Remove.
End Step11Remove.

(** ** [run_all.py]: the selection of the steps to run *)

Module RunAll.
Local Open Scope string_scope.
Local Open Scope list_scope.

(** [s.split(c)] for a one-character separator. *)
Fixpoint split_on (c : ascii) (s : string) : list string :=
  match s with
  | EmptyString => [EmptyString]
  | String a s' =>
      if Ascii.eqb a c then EmptyString :: split_on c s'
      else match split_on c s' with
           | h :: t => String a h :: t
           | [] => [String a EmptyString]
           end
  end.

(** [s.split(c, 1)] when [c] occurs in [s]: what stands before the first
    [c] and what stands after it; [None] when [c] does not occur. *)
Fixpoint split_first (c : ascii) (s : string) : option (string * string) :=
  match s with
  | EmptyString => None
  | String a s' =>
      if Ascii.eqb a c then Some (EmptyString, s')
      else match split_first c s' with
           | Some (x, y) => Some (String a x, y)
           | None => None
           end
  end.

(** [range(i, j)] *)
Definition zrange (i j : Z) : list Z :=
  map (fun n => (i + Z.of_nat n)%Z) (seq 0 (Z.to_nat (j - i))).

(** One [chunk] of the selection: the indices it adds to [picked];
    [int()] and the range checks raise [ValueError]. *)
Definition pick_chunk (chunk : string) (total : Z) : Result (list Z) :=
  let chunk := strip chunk in
  match split_first "-" chunk with
  | Some (start, end_) =>
      match int_of_str start, int_of_str end_ with
      | Some a, Some b =>
          let i := (a - 1)%Z in
          let j := (b - 1)%Z in
          if ((i <? 0) || (j >=? total) || (i >? j))%Z then Raise ValueError
          else Ok (zrange i (j + 1))
      | _, _ => Raise ValueError
      end
  | None =>
      match int_of_str chunk with
      | Some a =>
          let k := (a - 1)%Z in
          if ((k <? 0) || (k >=? total))%Z then Raise ValueError
          else Ok [k]
      | None => Raise ValueError
      end
  end.

(** The [for chunk in s.split(",")] loop. *)
Fixpoint pick_chunks (chunks : list string) (total : Z) (picked : list Z)
  : Result (list Z) :=
  match chunks with
  | [] => Ok picked
  | chunk :: rest =>
      match pick_chunk chunk total with
      | Ok more => pick_chunks rest total (picked ++ more)
      | Raise e => Raise e
      end
  end.

(** "de-dup while preserving order": [seen] is the set of that name. *)
Fixpoint dedup (seen picked : list Z) : list Z :=
  match picked with
  | [] => []
  | x :: rest =>
      if Step09.memZ x seen then dedup seen rest
      else x :: dedup (x :: seen) rest
  end.

(** [parse_selection]: ['1'], ['1,3,5-7'] or ['all'] into 0-based
    indices. *)
Definition parse_selection (selection : string) (total : nat)
  : Result (list Z) :=
  let s := lower (strip selection) in
  if String.eqb s "all" || String.eqb s "a" || String.eqb s "*"
  then Ok (zrange 0 (Z.of_nat total))
  else if String.eqb s "none" || String.eqb s "n" || String.eqb s ""
  then Ok []
  else
    match pick_chunks (split_on "," s) (Z.of_nat total) [] with
    | Ok picked => Ok (dedup [] picked)
    | Raise e => Raise e
    end.

End RunAll.

(** ** The set differencer on raw values *)

Module Differencer.
Local Open Scope string_scope.
Local Open Scope list_scope.

(** The differencer as [main] runs it on the raw values of the two sides:
    [str()] on every value (Step 12, lines 66 and 89), then lines 425-429.
    The result is [(to_add, to_remove)]. *)
Definition plan (desired remote : list PyVal) : list string * list string :=
  (Step12.to_add (map py_str remote) (map py_str desired),
   Step12.to_remove (map py_str remote) (map py_str desired)).

(** The integers handed to the API (lines 437-438). *)
Definition plan_int (desired remote : list PyVal) : list Z * list Z :=
  (fst (Step12._coerce_ids_to_int (fst (plan desired remote))),
   fst (Step12._coerce_ids_to_int (snd (plan desired remote)))).

(** Following the specification's words: the canonical integer of a
    member, the representation differences (a trailing [.0]) removed. *)
Definition spec_drop_dot_zero (s : string) : string :=
  let n := String.length s in
  if String.eqb (String.substring (n - 2) 2 s) ".0"
  then String.substring 0 (n - 2) s
  else s.

Definition spec_canonical (v : PyVal) : option Z :=
  match v with
  | PNone => None
  | PInt z => Some z
  | PStr s => int_of_str (spec_drop_dot_zero s)
  end.

Definition spec_same_member (v w : PyVal) : Prop :=
  spec_canonical v = spec_canonical w /\ spec_canonical v <> None.

(** What the code identifies: an integer and its decimal text. *)
Inductive same_numeral : PyVal -> PyVal -> Prop :=
| sn_refl (v : PyVal) : same_numeral v v
| sn_int_str (n : Z) : same_numeral (PInt n) (PStr (Z_to_string n))
| sn_str_int (n : Z) : same_numeral (PStr (Z_to_string n)) (PInt n).

End Differencer.

(** ** Concrete environments, for the examples *)

Module Scenario.
Local Open Scope string_scope.
Local Open Scope list_scope.

(** [float()] on the numerals [int_of_str] reads. *)
Definition float_of_numeral (s : string) : option Q :=
  option_map inject_Z (int_of_str s).

Definition ok_response : Response :=
  mkResponse 200 "{}" None (Some empty_json).

(** An environment with all variables set, a remote that lists no variant,
    and a data store given by its three tables. *)
Definition env {RS : Type}
           (post : RS -> Request -> PostOutcome * Q * RS)
           (offers_update : list (option string * option string * option string))
           (offers_insert : list OfferRow)
           (variants : string -> list PyVal) : Env :=
  mkEnv RS post (fun s _ => (GetReplied 200 [], s)) float_of_numeral
        (Some "https://app.stoqapp.com/api/v1/external/preorders")
        (Some "key") (Some "https://db.example") (Some "anon")
        offers_update offers_insert variants (fun _ => true).

Definition no_variants : string -> list PyVal := fun _ => [].

(** The world at the start of a run. *)
Definition start (E : Env) (s : RS E) : World E := mkWorld s 0 [] [] [] [].

(** A remote that rejects with [rejection] every batch holding a member of
    [bad] and accepts the others; each call takes a tenth of a second. *)
Definition rejecting (bad : list Z) (rejection : Response)
  : unit -> Request -> PostOutcome * Q * unit :=
  fun _ req =>
    if existsb (fun v => Step09.memZ v bad) (shopify_variant_ids req)
    then (Replied rejection, 1 # 10, tt)
    else (Replied ok_response, 1 # 10, tt).

Definition unprocessable : Response :=
  mkResponse 422 "Unprocessable Entity" None None.

(** A remote that plays a script of outcomes, one per call, then accepts. *)
Definition scripted : list (PostOutcome * Q) -> Request
                      -> PostOutcome * Q * list (PostOutcome * Q) :=
  fun script _ =>
    match script with
    | [] => (Replied ok_response, 1 # 10, [])
    | (o, d) :: rest => (o, d, rest)
    end.

(** A remote that gives the same reply for ever. *)
Definition constant (r : Response) (d : Q)
  : unit -> Request -> PostOutcome * Q * unit :=
  fun _ _ => (Replied r, d, tt).

Definition locked : Response :=
  mkResponse 409 "Another job is in progress" None None.

(** Member 2 always fails validation, with a generic 422. *)
Definition bad2 : Env := env (rejecting [2%Z] unprocessable) [] [] no_variants.

(** Member 6 is already on the offer: batches that hold it are answered 422
    with [existing_variants = [6]]. *)
Definition already_there : Response :=
  mkResponse 422 "Some variants are already associated" None (Some (mkJson [6%Z])).

Definition existing6 : Env := env (rejecting [6%Z] already_there) [] [] no_variants.

(** Every call is answered 400. *)
Definition bad_request : Response := mkResponse 400 "Bad Request" None None.

Definition refusing : Env := env (constant bad_request (1 # 10)) [] [] no_variants.

(** Members 2 and 3 always fail validation. *)
Definition bad23 : Env :=
  env (rejecting [2%Z; 3%Z] unprocessable) [] [] no_variants.

(** Every call is answered 503 with [Retry-After: 7]. *)
Definition busy : Response :=
  mkResponse 503 "Service Unavailable" (Some "7") None.

Definition overloaded : Env := env (constant busy (1 # 10)) [] [] no_variants.

(** Every call is answered 501. *)
Definition not_implemented : Response :=
  mkResponse 501 "Not Implemented" None None.

Definition unimplemented : Env :=
  env (constant not_implemented (1 # 10)) [] [] no_variants.

(** A remote that plays a script, then accepts. *)
Definition playing : Env := env scripted [] [] no_variants.

Definition probe : Request := mkRequest "offer-42" [1; 2; 3]%Z None.

(** A remote that accepts every call. *)
Definition accepting : unit -> Request -> PostOutcome * Q * unit :=
  constant ok_response (1 # 10).

(** The variants of the data store: plan [plan-2] wants variant 100. *)
Definition wants_100 : string -> list PyVal :=
  fun o => if String.eqb o "plan-2" then [PInt 100] else [].

(** Two offers to update; the first has no plan id. *)
Definition two_offers : Env :=
  env accepting
      [(Some "offer-1", None, Some "A"); (Some "offer-2", Some "plan-2", Some "B")]
      [] wants_100.

(** The second of them alone. *)
Definition second_offer : Env :=
  env accepting [(Some "offer-2", Some "plan-2", Some "B")] [] wants_100.

(** Two offers to insert, and a network that is down for the first three
    calls. *)
Definition two_inserts : Env :=
  env scripted []
      [mkOfferRow "plan-2" (Some "offer-1") (Some "A");
       mkOfferRow "plan-2" (Some "offer-2") (Some "B")]
      wants_100.

Definition network_down : list (PostOutcome * Q) :=
  [(NetworkError, 30); (NetworkError, 30); (NetworkError, 30)].

(** One offer whose variants hold a value that is not a number. *)
Definition rows_with_text : string -> list PyVal :=
  fun o => if String.eqb o "plan-1" then [PStr "abc"; PInt 5] else [].

Definition rows_without_text : string -> list PyVal :=
  fun o => if String.eqb o "plan-1" then [PInt 5] else [].

Definition insert_with_text : Env :=
  env accepting [] [mkOfferRow "plan-1" (Some "offer-1") (Some "A")] rows_with_text.

Definition insert_without_text : Env :=
  env accepting [] [mkOfferRow "plan-1" (Some "offer-1") (Some "A")] rows_without_text.

Definition update_with_text : Env :=
  env accepting [(Some "offer-1", Some "plan-1", Some "A")] [] rows_with_text.

(** The offer stays locked by another job: every call is answered 409. *)
Definition held : Env := env (constant locked (1 # 10)) [] [] no_variants.

(** The [remove_variant] end point answers 404 for every batch that holds
    member 3 and accepts the others. *)
Definition not_found : Response := mkResponse 404 "Not Found" None None.

Definition keeps_3 : DeleteApi bad2 :=
  mkDeleteApi bad2
    (fun _ req =>
       if Step09.memZ 3 (shopify_variant_ids req)
       then (Replied not_found, 1 # 10, tt)
       else (Replied ok_response, 1 # 10, tt))
    (fun _ _ => "").

(** The [remove_variant] end point cannot be reached. *)
Definition cut_off : DeleteApi bad2 :=
  mkDeleteApi bad2 (fun _ _ => (NetworkError, 1 # 10, tt))
    (fun _ _ => "connection refused").

(** An offer whose remote side holds variant 7, which the data store no
    longer wants, beside variant 100, which it does. *)
Definition stale_offer : Env :=
  mkEnv unit accepting (fun s _ => (GetReplied 200 [PInt 100; PInt 7], s))
        float_of_numeral
        (Some "https://app.stoqapp.com/api/v1/external/preorders")
        (Some "key") (Some "https://db.example") (Some "anon")
        [(Some "offer-2", Some "plan-2", Some "B")] [] wants_100 (fun _ => true).

(** Every removal is accepted. *)
Definition obliging : DeleteApi stale_offer :=
  mkDeleteApi stale_offer (fun _ _ => (Replied ok_response, 1 # 10, tt))
    (fun _ _ => "").

End Scenario.

(** ** Vocabulary of the statements *)

Module Behaviour.

(** The error text [_try_add_chunk] returns for a response. *)
Definition err_of (r : Response) : option string := snd (Step12.add_result_of r).

(** The ids of a request hold [k]. *)
Definition holds (k : Z) (req : Request) : bool :=
  Step09.memZ k (shopify_variant_ids req).

(** Member [k] always fails validation: every batch that holds [k] is
    answered 422, with a body as [generic] describes, and every other batch
    is accepted. *)
Definition one_bad_member (E : Env) (k : Z) (generic : Response -> Prop) : Prop :=
  forall (s : RS E) (req : Request),
    exists (r : Response) (d : Q) (s' : RS E),
      remote_post E s req = (Replied r, d, s') /\
      if holds k req
      then status_code r = 422%Z /\ generic r
      else is_2xx (status_code r) = true.

(** A 422 body that makes [call_stoq_add_variants] bisect. *)
Definition bisected_422 (r : Response) : Prop :=
  Step12.looks_like_422 (Some (text r)) = true.

(** A 422 body without an [existing_variants] list. *)
Definition generic_422 (r : Response) : Prop :=
  Step09.existing_of r = [].

(** The list without [k]. *)
Definition without (k : Z) (l : list Z) : list Z :=
  filter (fun x => negb (Z.eqb x k)) l.

(** The members the remote accepted among [calls], in order, when it
    rejects exactly the batches that hold [k]. *)
Definition accepted (k : Z) (calls : list Request) : list Z :=
  flat_map shopify_variant_ids (filter (fun r => negb (holds k r)) calls).

(** The remote always answers, whatever the status. *)
Definition always_replies (E : Env) : Prop :=
  forall (s : RS E) (req : Request),
    exists (r : Response) (d : Q) (s' : RS E),
      remote_post E s req = (Replied r, d, s').

(** The predicate of the specification's open question:
    [len(skipped)==0 or len(added)>=1]. *)
Definition spec_overall_ok (added skipped : nat) : bool :=
  ((skipped =? 0) || (1 <=? added))%nat.

(** Called again and again with [req] from state [s], the remote gives the
    outcomes [outs], each with the seconds it took, and ends in [s']. *)
Fixpoint plays (E : Env) (s : RS E) (req : Request)
         (outs : list (PostOutcome * Q)) (s' : RS E) : Prop :=
  match outs with
  | [] => s' = s
  | (o, d) :: rest =>
      exists s1 : RS E,
        remote_post E s req = (o, d, s1) /\ plays E s1 req rest s'
  end.

(** The outcomes Step 12 tries again: a network error, 429, 5xx. *)
Definition transient12 (o : PostOutcome * Q) : bool :=
  match fst o with
  | NetworkError => true
  | Replied r => Step12.is_transient (status_code r)
  end.

(** The pauses of Step 12 after the failed attempts number [attempt],
    [attempt + 1], ... *)
Fixpoint pauses12 (E : Env) (base_backoff : Q) (attempt : Z)
         (outs : list (PostOutcome * Q)) : list Q :=
  match outs with
  | [] => []
  | (NetworkError, _) :: rest =>
      Step12.backoff_delay base_backoff attempt
      :: pauses12 E base_backoff (attempt + 1) rest
  | (Replied r, _) :: rest =>
      Step12.retry_delay E r base_backoff attempt
      :: pauses12 E base_backoff (attempt + 1) rest
  end.

(** The outcomes Step 09 tries again while attempts are left. *)
Definition transient09 (o : PostOutcome * Q) : bool :=
  match fst o with
  | NetworkError => true
  | Replied r =>
      negb (is_2xx (status_code r)) && Step09.is_retried_status (status_code r)
  end.

(** The pauses of the lock wait of Step 12: one second, then 1.8 times the
    last pause, at most twelve seconds. *)
Fixpoint lock_pause (i : nat) : Q :=
  match i with
  | O => 1
  | S j => Qmin 12 (lock_pause j * (18 # 10))
  end.

(** A reply that says the offer is locked by another job. *)
Definition lock_reply (r : Response) : Prop :=
  (status_code r = 409%Z \/ status_code r = 422%Z) /\
  Step12._is_job_in_progress (Some (text r)) = true.

(** The offer stays locked: every call is answered by a lock reply, after
    a time that is not negative. *)
Definition always_locked (E : Env) : Prop :=
  forall (s : RS E) (req : Request),
    exists (l : Response) (d : Q) (s' : RS E),
      remote_post E s req = (Replied l, d, s') /\ lock_reply l /\ 0 <= d.

(** The sum of a list of durations. *)
Fixpoint sumQ (l : list Q) : Q :=
  match l with
  | [] => 0
  | q :: rest => q + sumQ rest
  end.

(** A reply as an outcome of [requests.post]. *)
Definition replied (p : Response * Q) : PostOutcome * Q :=
  (Replied (fst p), snd p).

(** Every call the computation [m] makes satisfies [Q]. *)
Definition calls_satisfy {E : Env} {A : Type} (P : Request -> Prop)
           (m : M E A) : Prop :=
  forall w : World E,
    exists calls : list Request,
      w_posts (snd (m w)) = w_posts w ++ calls /\ Forall P calls.

(** The computation [m] returns a value: no exception leaves it. *)
Definition returns {E : Env} {A : Type} (m : M E A) : Prop :=
  forall w : World E, exists (a : A) (w' : World E), m w = (Ok a, w').

(** A request to [plan] whose ids are all in [batch]. *)
Definition within (plan : string) (batch : list Z) (r : Request) : Prop :=
  req_offer r = plan /\ incl (shopify_variant_ids r) batch.

(** When [m] returns a value, the value satisfies [R]. *)
Definition ensures {E : Env} {A : Type} (R : A -> Prop) (m : M E A) : Prop :=
  forall (w : World E) (a : A) (w' : World E), m w = (Ok a, w') -> R a.

(** The bisection started with the lists [sk] and [ad] and ended with
    [sk'] and [ad']: every member of [ids] was appended once, to the one
    or to the other. *)
Definition booked_once (ids sk ad : list Z) (out : list Z * list Z) : Prop :=
  exists s a : list Z,
    fst out = sk ++ s /\ snd out = ad ++ a /\ Permutation (s ++ a) ids.

(** The accumulators of the chunk loop after the chunks [chunks]: what was
    added, what was skipped, and the members [rest] of the chunks that
    failed as a whole, are together the members of the chunks; and no
    error is reported only when every member was added. *)
Definition accounted (chunks : list (list Z)) (ad sk : list Z)
           (fe : option string) (out : Step12.Acc) : Prop :=
  let '(ad', sk', fe') := out in
  exists a s rest : list Z,
    ad' = ad ++ a /\ sk' = sk ++ s /\
    Permutation (a ++ s ++ rest) (List.concat chunks) /\
    (fe' = None -> fe = None /\ s = [] /\ rest = [] /\ a = List.concat chunks).

(** The summary of [call_stoq_add_variants] for the ids [ids]: it counts
    all of them as requested, never more added and skipped than requested,
    and when no error is reported every id was added, in order, none was
    skipped and no file was written. *)
Definition summary_accounts (ids : list Z)
           (out : bool * Step12.Summary * option string) : Prop :=
  let '(flag, sm, err) := out in
  Step12.requested_count sm = List.length ids /\
  (Step12.added_ok_count sm + Step12.skipped_invalid_count sm
   <= Step12.requested_count sm)%nat /\
  (err = None ->
   Step12.added_ok_count sm = List.length ids /\
   Step12.skipped_invalid_count sm = 0%nat /\
   Step12.added_ok_sample sm = firstn 10 ids /\
   Step12.skipped_file sm = None /\
   (ids <> [] -> flag = true)).

(** No call takes a negative time. *)
Definition never_back (E : Env) : Prop :=
  forall (s : RS E) (req : Request), 0 <= snd (fst (remote_post E s req)).

(** The exception [e] never leaves the computation [m]. *)
Definition never {E : Env} {A : Type} (e : Exn) (m : M E A) : Prop :=
  forall w : World E, fst (m w) <> Raise e.

(** The computation [m] comes to an end within the counters of its loops. *)
Definition ends {E : Env} {A : Type} (m : M E A) : Prop := never OutOfFuel m.

(** The run [run] from the world [w] sent [req] between [lo] and [hi]
    times and nothing else, and the clock did not go back when no call
    takes a negative time. *)
Definition resent {E : Env} {A : Type} (req : Request) (lo hi : nat)
           (w : World E) (run : Result A * World E) : Prop :=
  (exists n : nat,
      (lo <= n <= hi)%nat /\ w_posts (snd run) = w_posts w ++ repeat req n) /\
  (never_back E -> w_clock w <= w_clock (snd run)).

(** The computation [m] returns a value and sends no POST: the calls of the
    add end point recorded in the world are left as they were. *)
Definition returns_quietly {E : Env} {A : Type} (m : M E A) : Prop :=
  forall w : World E,
    exists (a : A) (w' : World E), m w = (Ok a, w') /\ w_posts w' = w_posts w.

(** Whatever [m] does, it sends no POST, writes no file and marks no
    offer as done. *)
Definition only_removes {E : Env} {A : Type} (m : M E A) : Prop :=
  forall w : World E,
    w_posts (snd (m w)) = w_posts w /\
    w_files (snd (m w)) = w_files w /\
    w_done (snd (m w)) = w_done w.

(** The removal that started with the lists [rm] and [fl] ended with the
    lists of [out]: every id of [ids] was appended once, to the removed
    ids or, in a row of its own that names the action and the offer, to
    the failed ones. *)
Definition removal_booked (offer : string) (ids rm : list Z)
           (fl : list Step11Remove.FailedRow)
           (out : list Z * list Step11Remove.FailedRow) : Prop :=
  exists (a : list Z) (f : list Step11Remove.FailedRow),
    fst out = rm ++ a /\ snd out = fl ++ f /\
    Permutation (a ++ map Step11Remove.f_variant_id f) ids /\
    Forall (fun r => Step11Remove.f_action r = "remove"%string /\
                     Step11Remove.f_offer_id r = offer) f.

(** The summary of [remove_variants_chunked] for the texts [vids]: every
    distinct id is counted once, as removed or as failed; no id fails
    twice; the failed rows and the sample of removed ids name different
    ids, all of them requested. *)
Definition removal_accounts (offer : string) (vids : list string)
           (sm : Step11Remove.RemoveSummary) : Prop :=
  Step11Remove.offer_id sm = offer /\
  Step11Remove.requested sm = List.length (Step11Remove.unique_vids vids) /\
  Step11Remove.requested sm
  = (Step11Remove.removed_ok_count sm + Step11Remove.failed_count sm)%nat /\
  Step11Remove.failed_count sm = List.length (Step11Remove.failed sm) /\
  NoDup (map Step11Remove.f_variant_id (Step11Remove.failed sm)) /\
  NoDup (Step11Remove.removed_ok_sample sm) /\
  (forall z, In z (Step11Remove.removed_ok_sample sm) ->
             In z (Step11Remove.unique_vids vids) /\
             ~ In z (map Step11Remove.f_variant_id (Step11Remove.failed sm))) /\
  (forall r, In r (Step11Remove.failed sm) ->
             In (Step11Remove.f_variant_id r) (Step11Remove.unique_vids vids) /\
             Step11Remove.f_action r = "remove"%string /\
             Step11Remove.f_offer_id r = offer).

(** The remote accepts every call: it answers with a status from 200 to
    299. *)
Definition always_accepts (E : Env) : Prop :=
  forall (s : RS E) (req : Request),
    exists (r : Response) (d : Q) (s' : RS E),
      remote_post E s req = (Replied r, d, s') /\
      is_2xx (status_code r) = true.

(** The run from [w] to [w'] sent the chunks [chunks] to [offer], one call
    each and in order, slept between none of them and wrote no file. *)
Definition one_call_each (E : Env) (offer : string) (pmc : option Z)
           (chunks : list (list Z)) (w w' : World E) : Prop :=
  w_posts w' = w_posts w ++ map (fun c => mkRequest offer c pmc) chunks /\
  w_sleeps w' = w_sleeps w /\
  w_files w' = w_files w.

(** What [_add_chunk_or_bisect] of Step 09 reports as skipped for the
    batch [batch]: members of the batch, and none twice when the batch
    holds none twice. *)
Definition skipped_of (batch : list Z) (out : bool * list Z) : Prop :=
  incl (snd out) batch /\ (NoDup batch -> NoDup (snd out)).

(** What [stoq_add_variants] of Step 09 reports for the ids [ids]. *)
Definition report09 (ids : list Z) (out : bool * Step09.Info) : Prop :=
  match snd out with
  | Step09.NoVariants => fst out = true /\ ids = []
  | Step09.AllProcessed skipped =>
      fst out = true /\ ids <> [] /\ Sorted Z.lt skipped /\ incl skipped ids
  | Step09.HttpError failed so_far =>
      fst out = false /\ failed <> [] /\ incl failed ids /\ incl so_far ids
  end.

(** The computation [m] leaves the component [f] of the world as it was. *)
Definition keeps {E : Env} {A X : Type} (f : World E -> X) (m : M E A) : Prop :=
  forall w : World E, f (snd (m w)) = f w.

(** The offer row has a plan id. *)
Definition has_plan (o : OfferRow) : bool := truthy (row_stoq_offer_id o).

(** A call of Step 12 that the data store asks for: it goes to an offer of
    the table, and each of its ids is the integer of a variant that the
    store lists for the plan of that offer. *)
Definition wanted (E : Env) (req : Request) : Prop :=
  exists (plan : string) (name : option string),
    In (Some (req_offer req), Some plan, name) (db_offers_update E) /\
    forall z, In z (shopify_variant_ids req) ->
              exists v, In v (db_variant_ids E plan) /\
                        int_of_str (py_str v) = Some z.

(** The request does not carry the id [x]. *)
Definition leaves_out (x : Z) (req : Request) : Prop :=
  ~ In x (shopify_variant_ids req).

(** The bisection that started with the lists [sk] and [ad] has appended
    [x] to one of them. *)
Definition booked (x : Z) (sk ad : list Z) (out : list Z * list Z) : Prop :=
  exists s a : list Z,
    fst out = sk ++ s /\ snd out = ad ++ a /\ In x (s ++ a).

(** The value of a decimal numeral read from the left, [acc] being the
    value of the digits read so far. *)
Fixpoint numeral_value (d : Decimal.uint) (acc : Z) : Z :=
  match d with
  | Decimal.Nil => acc
  | Decimal.D0 d => numeral_value d (10 * acc + 0)
  | Decimal.D1 d => numeral_value d (10 * acc + 1)
  | Decimal.D2 d => numeral_value d (10 * acc + 2)
  | Decimal.D3 d => numeral_value d (10 * acc + 3)
  | Decimal.D4 d => numeral_value d (10 * acc + 4)
  | Decimal.D5 d => numeral_value d (10 * acc + 5)
  | Decimal.D6 d => numeral_value d (10 * acc + 6)
  | Decimal.D7 d => numeral_value d (10 * acc + 7)
  | Decimal.D8 d => numeral_value d (10 * acc + 8)
  | Decimal.D9 d => numeral_value d (10 * acc + 9)
  end.

(** No character of the string is white space. *)
Fixpoint no_space (s : string) : bool :=
  match s with
  | EmptyString => true
  | String c s' => negb (is_space c) && no_space s'
  end.

End Behaviour.
Import Behaviour.

(* ================================================================== *)
(** * Part II. Facts about the programs                                 *)
(* ================================================================== *)

(** ** Lists, sets and sorting *)

Module PyFacts.

Lemma mem_In (x : string) (l : list string) : mem x l = true <-> In x l.
Proof.
  unfold mem. rewrite existsb_exists. split.
  - intros [y [Hy Heq]]. apply String.eqb_eq in Heq. now subst.
  - intros H. exists x. split; [assumption | apply String.eqb_refl].
Qed.

Lemma set_minus_In (x : string) (a b : list string) :
  In x (set_minus a b) <-> In x a /\ ~ In x b.
Proof.
  unfold set_minus. rewrite filter_In, negb_true_iff.
  rewrite <- (mem_In x b). destruct (mem x b); intuition congruence.
Qed.

Lemma insert_sorted_perm (x : string) (l : list string) :
  Permutation (x :: l) (insert_sorted x l).
Proof.
  induction l as [|y l IH]; simpl.
  - apply Permutation_refl.
  - destruct (String.leb x y).
    + apply Permutation_refl.
    + eapply perm_trans; [apply perm_swap | now apply perm_skip].
Qed.

Lemma sorted_perm (l : list string) : Permutation l (sorted l).
Proof.
  induction l as [|x l IH]; simpl.
  - apply perm_nil.
  - eapply perm_trans; [apply perm_skip, IH | apply insert_sorted_perm].
Qed.

Lemma sorted_In (x : string) (l : list string) : In x (sorted l) <-> In x l.
Proof.
  split; intros H.
  - eapply Permutation_in; [apply Permutation_sym, sorted_perm | exact H].
  - eapply Permutation_in; [apply sorted_perm | exact H].
Qed.

Definition le_str (a b : string) : Prop := String.leb a b = true.
Definition lt_str (a b : string) : Prop := String.ltb a b = true.

Lemma insert_sorted_hd (a x : string) (l : list string) :
  le_str a x -> HdRel le_str a l -> HdRel le_str a (insert_sorted x l).
Proof.
  intros Hax Hl. destruct l as [|y l]; simpl.
  - now constructor.
  - destruct (String.leb x y); constructor; [assumption | now inversion Hl].
Qed.

Lemma insert_sorted_Sorted (x : string) (l : list string) :
  Sorted le_str l -> Sorted le_str (insert_sorted x l).
Proof.
  induction l as [|y l IH]; intros Hs; simpl.
  - repeat constructor.
  - destruct (String.leb x y) eqn:Hxy.
    + constructor; [assumption | now constructor].
    + inversion Hs as [|? ? Hs' Hhd]; subst. constructor.
      * now apply IH.
      * apply insert_sorted_hd; [|assumption].
        destruct (String.leb_total x y) as [H|H]; [congruence | exact H].
Qed.

Lemma sorted_Sorted (l : list string) : Sorted le_str (sorted l).
Proof.
  induction l as [|x l IH]; simpl.
  - constructor.
  - now apply insert_sorted_Sorted.
Qed.

Lemma le_neq_lt (a b : string) : le_str a b -> a <> b -> lt_str a b.
Proof.
  unfold le_str, lt_str, String.leb, String.ltb. intros Hle Hne.
  destruct (String.compare a b) eqn:Hc; try reflexivity; try discriminate.
  apply String.compare_eq_iff in Hc. contradiction.
Qed.

Lemma Sorted_strict (l : list string) :
  Sorted le_str l -> NoDup l -> Sorted lt_str l.
Proof.
  induction 1 as [|a l Hs IH Hhd]; intros Hnd.
  - constructor.
  - inversion Hnd as [|? ? Hnin Hnd']; subst. constructor.
    + now apply IH.
    + destruct Hhd as [|b l Hab]; constructor.
      apply le_neq_lt; [assumption|]. intros ->. apply Hnin. now left.
Qed.

Lemma set_minus_NoDup (a b : list string) :
  NoDup a -> NoDup (set_minus a b).
Proof. intros H. unfold set_minus. now apply NoDup_filter. Qed.

Lemma sorted_NoDup (l : list string) : NoDup l -> NoDup (sorted l).
Proof.
  intros H. eapply Permutation_NoDup; [apply sorted_perm | exact H].
Qed.

End PyFacts.

(** ** The set differencer *)

Module DifferencerFacts.
Import PyFacts Differencer.
Local Open Scope string_scope.
Local Open Scope list_scope.

Lemma same_numeral_str (v w : PyVal) : same_numeral v w -> py_str v = py_str w.
Proof. now destruct 1. Qed.

Lemma same_numeral_map (l l' : list PyVal) :
  Forall2 same_numeral l l' -> map py_str l = map py_str l'.
Proof.
  induction 1 as [|v w l l' Hvw _ IH]; simpl.
  - reflexivity.
  - now rewrite (same_numeral_str _ _ Hvw), IH.
Qed.

Lemma to_add_In (api db : list string) (x : string) :
  In x (Step12.to_add api db) <-> In x db /\ ~ In x api.
Proof.
  unfold Step12.to_add, py_set.
  rewrite sorted_In, set_minus_In, !nodup_In. reflexivity.
Qed.

Lemma to_remove_In (api db : list string) (x : string) :
  In x (Step12.to_remove api db) <-> In x api /\ ~ In x db.
Proof.
  unfold Step12.to_remove, py_set.
  rewrite sorted_In, set_minus_In, !nodup_In. reflexivity.
Qed.

Lemma to_add_sorted (api db : list string) :
  Sorted lt_str (Step12.to_add api db).
Proof.
  unfold Step12.to_add. apply Sorted_strict.
  - apply sorted_Sorted.
  - apply sorted_NoDup, set_minus_NoDup, NoDup_nodup.
Qed.

Lemma to_remove_sorted (api db : list string) :
  Sorted lt_str (Step12.to_remove api db).
Proof.
  unfold Step12.to_remove. apply Sorted_strict.
  - apply sorted_Sorted.
  - apply sorted_NoDup, set_minus_NoDup, NoDup_nodup.
Qed.

(** C2, as stated, fails: the text ["123.0"] and the integer [123] are two
    different members for the differencer, which plans to add the one and
    to remove the other although the member is on both sides. *)
Lemma C2_dot_zero_is_another_member :
  plan [PStr "123.0"] [PInt 123] = (["123.0"], ["123"]) /\
  spec_same_member (PStr "123.0") (PInt 123) /\
  ~ (forall desired remote desired' remote',
        Forall2 spec_same_member desired desired' ->
        Forall2 spec_same_member remote remote' ->
        plan desired remote = plan desired' remote').
Proof.
  assert (Hsame : spec_same_member (PStr "123.0") (PInt 123)).
  { split; [reflexivity | discriminate]. }
  split; [reflexivity | split; [exact Hsame |]].
  intros H.
  specialize (H [PStr "123.0"] [PInt 123] [PInt 123] [PInt 123]).
  assert (Hrefl : spec_same_member (PInt 123) (PInt 123)).
  { split; [reflexivity | discriminate]. }
  specialize (H (Forall2_cons _ _ Hsame (Forall2_nil _))
                (Forall2_cons _ _ Hrefl (Forall2_nil _))).
  vm_compute in H. discriminate.
Qed.

(** C2, amended: the differencer compares the [str()] texts, so an integer
    and the string of its decimal numeral are one member: replacing the one
    by the other on either side changes neither list, and a member that is
    an integer on one side and its numeral on the other is in neither. *)
Theorem C2_int_and_numeral_are_one_member :
  forall desired remote desired' remote' : list PyVal,
    Forall2 same_numeral desired desired' ->
    Forall2 same_numeral remote remote' ->
    plan desired remote = plan desired' remote' /\
    (forall v w, same_numeral v w -> In v desired -> In w remote ->
       ~ In (py_str v) (fst (plan desired remote)) /\
       ~ In (py_str v) (snd (plan desired remote))).
Proof.
  intros desired remote desired' remote' Hd Hr. split.
  - unfold plan.
    now rewrite (same_numeral_map _ _ Hd), (same_numeral_map _ _ Hr).
  - intros v w Hvw Hv Hw. unfold plan; simpl.
    rewrite to_add_In, to_remove_In.
    assert (Hin_d : In (py_str v) (map py_str desired)) by now apply in_map.
    assert (Hin_r : In (py_str v) (map py_str remote)).
    { rewrite (same_numeral_str _ _ Hvw). now apply in_map. }
    tauto.
Qed.

Lemma C2_int_and_numeral_witness :
  plan [PInt 123; PStr "77"] [PStr "123"; PInt 5] =
  plan [PStr "123"; PStr "77"] [PInt 123; PInt 5].
Proof.
  apply (C2_int_and_numeral_are_one_member
           [PInt 123; PStr "77"] [PStr "123"; PInt 5]
           [PStr "123"; PStr "77"] [PInt 123; PInt 5]).
  - constructor; [apply (sn_int_str 123) | constructor; [apply sn_refl | constructor]].
  - constructor; [apply (sn_str_int 123) | constructor; [apply sn_refl | constructor]].
Defined.

(** C3, as stated, fails on the order: the lists are sorted as texts, so
    the integers handed to the API need not ascend. *)
Lemma C3_text_order_is_not_numeric :
  plan [PInt 9; PInt 10] [] = (["10"; "9"], []) /\
  fst (plan_int [PInt 9; PInt 10] []) = [10; 9]%Z /\
  ~ Sorted Z.le (fst (plan_int [PInt 9; PInt 10] [])).
Proof.
  split; [reflexivity | split; [reflexivity |]].
  change (fst (plan_int [PInt 9; PInt 10] [])) with [10; 9]%Z.
  intros H. inversion H as [|? ? _ Hhd]; subst.
  inversion Hhd as [|? ? Hle]; subst. lia.
Qed.

(** C3, amended: [to_add] holds exactly the texts of the desired side that
    are not on the remote side, [to_remove] exactly the texts of the remote
    side that are not desired; each list is strictly ascending in the order
    of the texts; for desired [{100,101,102}] and remote [{101,103}] the
    lists are [[100,102]] and [[103]]. *)
Theorem C3_differencer_exact_sorted_as_text :
  forall desired remote : list PyVal,
    let db := map py_str desired in
    let api := map py_str remote in
    (forall x, In x (fst (plan desired remote)) <-> In x db /\ ~ In x api) /\
    (forall x, In x (snd (plan desired remote)) <-> In x api /\ ~ In x db) /\
    Sorted lt_str (fst (plan desired remote)) /\
    Sorted lt_str (snd (plan desired remote)) /\
    plan [PInt 100; PInt 101; PInt 102] [PInt 101; PInt 103]
      = (["100"; "102"], ["103"]) /\
    plan_int [PInt 100; PInt 101; PInt 102] [PInt 101; PInt 103]
      = ([100; 102]%Z, [103]%Z).
Proof.
  intros desired remote db api. unfold plan; simpl fst; simpl snd.
  split; [intros x; apply to_add_In |].
  split; [intros x; apply to_remove_In |].
  split; [apply to_add_sorted |].
  split; [apply to_remove_sorted |].
  split; reflexivity.
Qed.

End DifferencerFacts.

(** ** One call of the add end point *)

Module CallFacts.
Section CallFacts.
Context (E : Env).
Hypothesis Hbase : truthy (STOQ_API_BASE E) = true.

Lemma post_loop_final (fuel : nat) (req : Request) (mr : Z) (base : Q) (a : Z)
      (w : World E) (r : Response) (d : Q) (s : RS E) :
  remote_post E (w_remote w) req = (Replied r, d, s) ->
  Step12.is_transient (status_code r) = false ->
  Step12.post_loop E (S fuel) req mr base a w = (Ok r, posted w req d s).
Proof.
  intros Hpost Hfin. simpl. unfold bind, requests_post.
  rewrite Hpost. simpl. rewrite Hfin. reflexivity.
Qed.

Lemma try_add_chunk_final (offer : string) (ids : list Z) (pmc : option Z)
      (mr : Z) (base : Q) (w : World E) (r : Response) (d : Q) (s : RS E) :
  remote_post E (w_remote w) (mkRequest offer ids pmc) = (Replied r, d, s) ->
  Step12.is_transient (status_code r) = false ->
  Step12._try_add_chunk E offer ids pmc mr base w
  = (Ok (Step12.add_result_of r), posted w (mkRequest offer ids pmc) d s).
Proof.
  intros Hpost Hfin. unfold Step12._try_add_chunk. rewrite Hbase. simpl.
  unfold bind, Step12._post_with_retries.
  erewrite post_loop_final by eassumption. reflexivity.
Qed.

Lemma lock_wait_loop_final (fuel : nat) (offer : string) (ids : list Z)
      (pmc : option Z) (mr : Z) (base budget factor cap start sleep_s : Q)
      (w : World E) (r : Response) (d : Q) (s : RS E) :
  remote_post E (w_remote w) (mkRequest offer ids pmc) = (Replied r, d, s) ->
  Step12.is_transient (status_code r) = false ->
  is_2xx (status_code r) = true \/ Step12._is_job_in_progress (err_of r) = false ->
  Step12.lock_wait_loop E (S fuel) offer ids pmc mr base budget factor cap
    start sleep_s w
  = (Ok (Step12.add_result_of r), posted w (mkRequest offer ids pmc) d s).
Proof.
  intros Hpost Hfin Hnl.
  cbn [Step12.lock_wait_loop]. unfold bind.
  erewrite try_add_chunk_final by eassumption.
  unfold err_of in Hnl. unfold Step12.add_result_of in *.
  destruct (is_2xx (status_code r)); [reflexivity|].
  destruct Hnl as [Hnl|Hnl]; [discriminate|].
  destruct ((status_code r =? 409) || (status_code r =? 422))%Z;
    cbn [snd] in Hnl; rewrite Hnl; reflexivity.
Qed.

Lemma add_chunk_locked_final (offer : string) (ids : list Z) (pmc : option Z)
      (mr : Z) (base : Q) (w : World E) (r : Response) (d : Q) (s : RS E) :
  remote_post E (w_remote w) (mkRequest offer ids pmc) = (Replied r, d, s) ->
  Step12.is_transient (status_code r) = false ->
  is_2xx (status_code r) = true \/ Step12._is_job_in_progress (err_of r) = false ->
  Step12.add_chunk_locked E offer ids pmc mr base w
  = (Ok (Step12.add_result_of r), posted w (mkRequest offer ids pmc) d s).
Proof.
  intros Hpost Hfin Hnl.
  unfold Step12.add_chunk_locked, Step12._try_add_chunk_with_lock_wait, bind, time.
  change Step12.lock_probes with (S 180).
  now apply lock_wait_loop_final.
Qed.

End CallFacts.
End CallFacts.

(** ** One call of Step 09, and the single-member cases *)

Module Step09Calls.
Section Step09Calls.
Context (E : Env).

Lemma post_final (req : Request) (w : World E) (r : Response) (d : Q) (s : RS E) :
  remote_post E (w_remote w) req = (Replied r, d, s) ->
  is_2xx (status_code r) = true \/ Step09.is_retried_status (status_code r) = false ->
  Step09._post_with_retries E req w = (Ok r, posted w req d s).
Proof.
  intros Hpost Hfin. unfold Step09._post_with_retries.
  change (Step09.range_from_1 Step09.MAX_RETRIES) with [1; 2; 3]%Z.
  cbn [Step09.post_attempts].
  unfold bind, requests_post. rewrite Hpost. cbn [fst snd].
  destruct (is_2xx (status_code r)); [reflexivity|].
  destruct Hfin as [Hfin|Hfin]; [discriminate|].
  rewrite Hfin. reflexivity.
Qed.

End Step09Calls.
End Step09Calls.

Module ResolverFacts.
Import CallFacts.
Local Open Scope string_scope.
Local Open Scope list_scope.

Lemma divide12_single (E : Env) (offer : string) (m : Z) (pmc : option Z)
      (mr : Z) (base : Q) (sk ad : list Z) (w : World E) :
  Step12._divide_and_conquer_on_422 E offer [m] pmc mr base sk ad w
  = (Ok (sk ++ [m], ad), w).
Proof. reflexivity. Qed.

Lemma divide11_single (E : Env) (offer : string) (m : Z) (pmc : option Z)
      (mr : Z) (base : Q) (sk ad : list Z) (w : World E) :
  Step11._divide_and_conquer_on_422 E offer [m] pmc mr base sk ad w
  = (Ok (sk ++ [m], ad), w).
Proof. reflexivity. Qed.

Lemma add_chunk09_single (E : Env) (plan : string) (m : Z) (w : World E)
      (r : Response) (d : Q) (s : RS E) :
  remote_post E (w_remote w) (mkRequest plan [m] None) = (Replied r, d, s) ->
  status_code r = 422%Z ->
  Step09.existing_of r = [] ->
  Step09._add_chunk_or_bisect E plan [m] w
  = (Ok (true, [m]), posted w (mkRequest plan [m] None) d s).
Proof.
  intros Hpost Hst Hex. unfold Step09._add_chunk_or_bisect.
  cbn [List.length Step09.add_chunk_rec]. unfold bind.
  erewrite Step09Calls.post_final; [|eassumption|right; rewrite Hst; reflexivity].
  rewrite Hst. cbn [is_2xx Z.leb Z.ltb Z.compare Pos.compare Pos.compare_cont andb Z.eqb Pos.eqb].
  rewrite Hex. reflexivity.
Qed.

Lemma stoq_add09_single (E : Env) (plan : string) (m : Z) (w : World E)
      (r : Response) (d : Q) (s : RS E) :
  remote_post E (w_remote w) (mkRequest plan [m] None) = (Replied r, d, s) ->
  status_code r = 422%Z ->
  Step09.existing_of r = [] ->
  Step09.stoq_add_variants E plan [m] w
  = (Ok (true, Step09.AllProcessed [m]), posted w (mkRequest plan [m] None) d s).
Proof.
  intros Hpost Hst Hex. unfold Step09.stoq_add_variants.
  change (chunked [m] Step09.CHUNK_SIZE) with [[m]].
  cbn [Step09.chunks_loop filter Step09.memZ existsb negb]. unfold bind.
  erewrite add_chunk09_single by eassumption. reflexivity.
Qed.

End ResolverFacts.

(** ** Halving a batch *)

Module HalvingFacts.

Lemma half_lt (n : nat) : (2 <= n -> 1 <= n / 2 /\ n / 2 < n)%nat.
Proof.
  intros H. split.
  - apply (Nat.div_le_lower_bound n 2 1); lia.
  - apply Nat.div_lt; lia.
Qed.

Lemma log2_up_halves (n : nat) :
  (2 <= n ->
   S (Nat.log2_up (n / 2)) <= Nat.log2_up n /\
   S (Nat.log2_up (n - n / 2)) <= Nat.log2_up n)%nat.
Proof.
  intros Hn.
  destruct (half_lt n Hn) as [H1 H2].
  destruct (Nat.log2_up_spec n ltac:(lia)) as [_ Hup].
  assert (Hpos : (0 < Nat.log2_up n)%nat) by (apply Nat.log2_up_pos; lia).
  destruct (Nat.log2_up n) as [|L] eqn:HL; [lia|].
  rewrite Nat.pow_succ_r' in Hup.
  assert (Hdiv : (n <= 2 * (n / 2) + 1)%nat).
  { pose proof (Nat.div_mod_eq n 2) as Hdm.
    pose proof (Nat.mod_upper_bound n 2 ltac:(lia)). lia. }
  assert (Hdiv2 : (2 * (n / 2) <= n)%nat).
  { apply Nat.Div0.mul_div_le. }
  split; apply le_n_S; apply Nat.log2_up_le_pow2; lia.
Qed.

Lemma halves_split {A : Type} (l : list A) :
  (2 <= List.length l)%nat ->
  let mid := (List.length l / 2)%nat in
  firstn mid l ++ skipn mid l = l /\
  List.length (firstn mid l) = mid /\
  List.length (skipn mid l) = (List.length l - mid)%nat /\
  (1 <= mid < List.length l)%nat.
Proof.
  intros H mid. destruct (half_lt _ H) as [H1 H2].
  split; [apply firstn_skipn|].
  split; [apply firstn_length_le; subst mid; lia|].
  split; [apply length_skipn|]. subst mid; lia.
Qed.

Lemma without_app (k : Z) (l1 l2 : list Z) :
  without k (l1 ++ l2) = without k l1 ++ without k l2.
Proof. apply filter_app. Qed.

Lemma without_absent (k : Z) (l : list Z) : ~ In k l -> without k l = l.
Proof.
  induction l as [|x l IH]; intros Hn; simpl; [reflexivity|].
  destruct (Z.eqb_spec x k) as [->|Hne]; simpl.
  - exfalso. apply Hn. now left.
  - rewrite IH; [reflexivity|]. intros H. apply Hn. now right.
Qed.

Lemma memZ_In (k : Z) (l : list Z) : Step09.memZ k l = true <-> In k l.
Proof.
  unfold Step09.memZ. rewrite existsb_exists. split.
  - intros [x [Hx Heq]]. apply Z.eqb_eq in Heq. now subst.
  - intros H. exists k. split; [assumption | apply Z.eqb_refl].
Qed.

Lemma memZ_false (k : Z) (l : list Z) : Step09.memZ k l = false <-> ~ In k l.
Proof.
  rewrite <- memZ_In. destruct (Step09.memZ k l); split; congruence.
Qed.

(** In a duplicate-free list cut in two, [k] is on one side only. *)
Lemma NoDup_side (k : Z) (l1 l2 : list Z) :
  NoDup (l1 ++ l2) -> In k (l1 ++ l2) ->
  (In k l1 /\ ~ In k l2) \/ (~ In k l1 /\ In k l2).
Proof.
  intros Hnd Hin. apply in_app_or in Hin.
  induction l1 as [|x l1 IH]; simpl in *.
  - right. split; [tauto|]. destruct Hin; [contradiction|assumption].
  - inversion Hnd as [|? ? Hx Hnd']; subst.
    destruct (Z.eq_dec x k) as [->|Hne].
    + left. split; [now left|]. intros H. apply Hx. apply in_or_app. now right.
    + destruct IH as [[H1 H2]|[H1 H2]]; [assumption| tauto | left | right]; tauto.
Qed.

Lemma chunked_one {A : Type} (l : list A) (size : nat) :
  (1 <= List.length l <= size)%nat -> chunked l size = [l].
Proof.
  intros [H1 H2]. unfold chunked.
  destruct l as [|x l]; [simpl in H1; lia|].
  cbn [List.length chunked_from].
  rewrite firstn_all2 by exact H2.
  rewrite skipn_all2 by exact H2.
  destruct (List.length l); reflexivity.
Qed.

End HalvingFacts.

(** ** Step 11: the bisection isolates one bad member *)

Module Bisection11.
Import HalvingFacts CallFacts.
Section Bisection11.
Context (E : Env) (k : Z).
Hypothesis Hbase : truthy (STOQ_API_BASE E) = true.
Hypothesis Hbad : one_bad_member E k bisected_422.
Context (offer : string) (pmc : option Z) (mr : Z) (base : Q).

Lemma status_422_final (r : Response) :
  status_code r = 422%Z ->
  Step12.is_transient (status_code r) = false /\
  Step12.add_result_of r = (false, None, Some (text r)).
Proof.
  intros H. unfold Step12.add_result_of. rewrite H. split; reflexivity.
Qed.

Lemma status_2xx_final (r : Response) :
  is_2xx (status_code r) = true ->
  Step12.is_transient (status_code r) = false /\
  exists j, Step12.add_result_of r = (true, Some j, None).
Proof.
  intros H. split.
  - unfold is_2xx in H. unfold Step12.is_transient.
    apply andb_true_iff in H. destruct H as [H1 H2].
    apply Z.leb_le in H1. apply Z.ltb_lt in H2.
    destruct (Z.eqb_spec (status_code r) 429); [lia|].
    destruct (Z.leb_spec 500 (status_code r)); [lia|]. reflexivity.
  - unfold Step12.add_result_of. rewrite H. eauto.
Qed.

(** A probe of a batch that holds [k] fails with a text that bisects. *)
Lemma probe11_bad (ids : list Z) (w : World E) :
  In k ids ->
  exists t w',
    Step11._try_add_chunk E offer ids pmc mr base w = (Ok (false, None, Some t), w') /\
    Step12.looks_like_422 (Some t) = true /\
    w_posts w' = w_posts w ++ [mkRequest offer ids pmc] /\
    w_files w' = w_files w.
Proof.
  intros Hin.
  destruct (Hbad (w_remote w) (mkRequest offer ids pmc)) as (r & d & s & Hpost & Hk).
  unfold holds in Hk. cbn [shopify_variant_ids] in Hk.
  apply memZ_In in Hin. rewrite Hin in Hk. destruct Hk as [Hst Hgen].
  destruct (status_422_final r Hst) as [Hfin Hres].
  exists (text r), (posted w (mkRequest offer ids pmc) d s).
  unfold Step11._try_add_chunk.
  erewrite try_add_chunk_final by eassumption.
  rewrite Hres. repeat split. exact Hgen.
Qed.

(** A probe of a batch without [k] succeeds. *)
Lemma probe11_good (ids : list Z) (w : World E) :
  ~ In k ids ->
  exists j w',
    Step11._try_add_chunk E offer ids pmc mr base w = (Ok (true, Some j, None), w') /\
    w_posts w' = w_posts w ++ [mkRequest offer ids pmc] /\
    w_files w' = w_files w.
Proof.
  intros Hin.
  destruct (Hbad (w_remote w) (mkRequest offer ids pmc)) as (r & d & s & Hpost & Hk).
  unfold holds in Hk. cbn [shopify_variant_ids] in Hk.
  apply memZ_false in Hin. rewrite Hin in Hk.
  destruct (status_2xx_final r Hk) as [Hfin [j Hres]].
  exists j, (posted w (mkRequest offer ids pmc) d s).
  unfold Step11._try_add_chunk.
  erewrite try_add_chunk_final by eassumption.
  rewrite Hres. repeat split.
Qed.

Lemma accepted11_app (l1 l2 : list Request) :
  accepted k (l1 ++ l2) = accepted k l1 ++ accepted k l2.
Proof. unfold accepted. now rewrite filter_app, flat_map_app. Qed.

Lemma accepted11_bad (o : string) (ids : list Z) (c : option Z) :
  In k ids -> accepted k [mkRequest o ids c] = [].
Proof.
  intros H. apply memZ_In in H. unfold accepted. cbn [filter].
  unfold holds. cbn [shopify_variant_ids]. now rewrite H.
Qed.

Lemma accepted11_good (o : string) (ids : list Z) (c : option Z) :
  ~ In k ids -> accepted k [mkRequest o ids c] = ids.
Proof.
  intros H. apply memZ_false in H. unfold accepted. cbn [filter].
  unfold holds. cbn [shopify_variant_ids]. rewrite H.
  cbn. apply app_nil_r.
Qed.

Lemma divide11_rec_unfold (fuel : nat) (ids sk ad : list Z) :
  (2 <= List.length ids)%nat ->
  Step11.divide_rec E (S fuel) offer ids pmc mr base sk ad
  = (let mid := (List.length ids / 2)%nat in
     let left := firstn mid ids in
     let right := skipn mid ids in
     bind (Step11._try_add_chunk E offer left pmc mr base)
       (fun x => match x with
        | (ok, _, _) =>
          bind (if (ok : bool) then ret (sk, ad ++ left)
                else Step11.divide_rec E fuel offer left pmc mr base sk ad)
            (fun y => match y with
             | (sk1, ad1) =>
               bind (Step11._try_add_chunk E offer right pmc mr base)
                 (fun z => match z with
                  | (ok2, _, _) =>
                    if (ok2 : bool) then ret (sk1, ad1 ++ right)
                    else Step11.divide_rec E fuel offer right pmc mr base sk1 ad1
                  end)
             end)
        end)).
Proof.
  intros H. destruct ids as [|x [|y l]]; cbn [List.length] in H; try lia.
  reflexivity.
Qed.

(** The recursion on a duplicate-free batch that holds [k]: [k] is
    skipped, every other member is added, in order, and each level costs
    two calls. *)
Lemma divide11_rec_isolates (fuel : nat) :
  forall (ids sk ad : list Z) (w : World E),
    (List.length ids < fuel)%nat -> NoDup ids -> In k ids ->
    exists (w' : World E) (calls : list Request),
      Step11.divide_rec E fuel offer ids pmc mr base sk ad w
      = (Ok (sk ++ [k], ad ++ without k ids), w') /\
      w_posts w' = w_posts w ++ calls /\
      (List.length calls <= 2 * Nat.log2_up (List.length ids))%nat /\
      accepted k calls = without k ids /\
      w_files w' = w_files w.
Proof.
  induction fuel as [|fuel IH]; intros ids sk ad w Hlen Hnd Hin; [lia|].
  destruct (Nat.le_gt_cases 2 (List.length ids)) as [H2|H2].
  - rewrite divide11_rec_unfold by exact H2. cbv zeta.
    destruct (halves_split ids H2) as (Hsplit & Hl & Hr & Hmid).
    destruct (log2_up_halves _ H2) as [HlogL HlogR].
    set (mid := (List.length ids / 2)%nat) in *.
    set (left := firstn mid ids) in *.
    set (right := skipn mid ids) in *.
    assert (Hnd' : NoDup (left ++ right)) by now rewrite Hsplit.
    assert (Hin' : In k (left ++ right)) by now rewrite Hsplit.
    assert (Hw : without k ids = without k left ++ without k right).
    { rewrite <- Hsplit at 1. apply without_app. }
    destruct (NoDup_side k left right Hnd' Hin') as [[HkL HkR]|[HkL HkR]].
    + (* [k] is in the left half *)
      destruct (probe11_bad left w HkL) as (t & w1 & Hp1 & _ & Hposts1 & Hf1).
      unfold bind at 1. rewrite Hp1.
      destruct (IH left sk ad w1) as (w2 & calls & Hrec & Hposts2 & Hcount & Hacc & Hf2).
      { lia. } { eapply NoDup_app_remove_r; eassumption. } { exact HkL. }
      unfold bind at 1. rewrite Hrec.
      destruct (probe11_good right w2 HkR) as (j & w3 & Hp3 & Hposts3 & Hf3).
      unfold bind at 1. rewrite Hp3.
      exists w3, ([mkRequest offer left pmc] ++ calls ++ [mkRequest offer right pmc]).
      split; [|split; [|split; [|split]]]; [| | | |congruence].
      * unfold ret. rewrite Hw, (without_absent k right HkR).
        now rewrite app_assoc.
      * rewrite Hposts3, Hposts2, Hposts1. now rewrite <- !app_assoc.
      * rewrite !length_app. cbn [List.length]. rewrite Hl in Hcount. lia.
      * rewrite !accepted11_app, (accepted11_bad offer left pmc HkL),
          (accepted11_good offer right pmc HkR), Hacc.
        now rewrite Hw, (without_absent k right HkR).
    + (* [k] is in the right half *)
      destruct (probe11_good left w HkL) as (j & w1 & Hp1 & Hposts1 & Hf1).
      unfold bind at 1. rewrite Hp1. unfold bind at 1, ret at 1.
      destruct (probe11_bad right w1 HkR) as (t & w2 & Hp2 & _ & Hposts2 & Hf2).
      unfold bind at 1. rewrite Hp2.
      destruct (IH right sk (ad ++ left) w2) as (w3 & calls & Hrec & Hposts3 & Hcount & Hacc & Hf3).
      { lia. } { eapply NoDup_app_remove_l; eassumption. } { exact HkR. }
      exists w3, ([mkRequest offer left pmc] ++ [mkRequest offer right pmc] ++ calls).
      split; [|split; [|split; [|split]]]; [| | | |congruence].
      * rewrite Hrec, Hw, (without_absent k left HkL).
        now rewrite app_assoc.
      * rewrite Hposts3, Hposts2, Hposts1. now rewrite <- !app_assoc.
      * rewrite !length_app. cbn [List.length]. rewrite Hr in Hcount. lia.
      * rewrite !accepted11_app, (accepted11_good offer left pmc HkL),
          (accepted11_bad offer right pmc HkR), Hacc.
        now rewrite Hw, (without_absent k left HkL).
  - (* a single member: it is [k] *)
    destruct ids as [|x [|y l]]; cbn [List.length] in H2; try lia.
    + contradiction.
    + destruct Hin as [->|[]].
      exists w, []. split; [|split; [|split; [|split]]]; [| | | |reflexivity].
      * cbn. unfold ret. unfold without. cbn. rewrite Z.eqb_refl. cbn.
        now rewrite app_nil_r.
      * now rewrite app_nil_r.
      * cbn. lia.
      * unfold without. cbn. now rewrite Z.eqb_refl.
Qed.

(** The add operation of Step 11 on one batch with one bad member. *)
Theorem step11_one_bad_member_isolated (ids : list Z) (chunk_size : nat)
        (write_skipped_file : bool) (prefix : string) (w : World E) :
  NoDup ids -> In k ids -> (List.length ids <= chunk_size)%nat ->
  exists (msg : string) (w' : World E) (calls : list Request),
    Step11.add_chunks E (chunked ids chunk_size) offer pmc mr base [] [] None w
    = (Ok (without k ids, [k], Some msg), w') /\
    w_posts w' = w_posts w ++ calls /\
    (List.length calls <= 2 * Nat.log2_up (List.length ids) + 1)%nat /\
    accepted k calls = without k ids /\
    exists (w'' : World E),
      Step11.call_stoq_add_variants E offer ids pmc chunk_size mr base
        write_skipped_file prefix w
      = (Ok (Step12.overall_ok (without k ids) [k],
             Step12.mkSummary offer (List.length ids)
               (List.length (without k ids)) 1
               (firstn 10 (without k ids)) [k]
               (if write_skipped_file
                then Some (prefix ++ "_" ++ offer)%string else None),
             Some msg), w'') /\
      w_posts w'' = w_posts w ++ calls /\
      w_files w'' = w_files w ++
        (if write_skipped_file
         then [((prefix ++ "_" ++ offer)%string, [k])] else []).
Proof.
  intros Hnd Hin Hlen.
  assert (Hpos : (1 <= List.length ids)%nat).
  { destruct ids; [contradiction | cbn; lia]. }
  destruct (probe11_bad ids w Hin) as (t & w1 & Hp1 & Hlooks & Hposts1 & Hf1).
  destruct (divide11_rec_isolates (S (List.length ids)) ids [] [] w1)
    as (w2 & calls & Hrec & Hposts2 & Hcount & Hacc & Hf2); [lia | assumption | assumption |].
  assert (Hloop :
    Step11.add_chunks E (chunked ids chunk_size) offer pmc mr base [] [] None w
    = (Ok (without k ids, [k],
           Some ("Some IDs could not be added (likely already present). Example error: "
                 ++ take 200 t)%string), w2)).
  { rewrite chunked_one by lia. cbn [Step11.add_chunks].
    unfold bind at 1. rewrite Hp1. rewrite Hlooks.
    unfold bind at 1, Step11._divide_and_conquer_on_422. rewrite Hrec.
    reflexivity. }
  eexists _, w2, ([mkRequest offer ids pmc] ++ calls).
  split; [exact Hloop|].
  split; [rewrite Hposts2, Hposts1; now rewrite <- app_assoc|].
  split; [rewrite length_app; cbn [List.length]; lia|].
  split; [rewrite accepted11_app, (accepted11_bad offer ids pmc Hin), Hacc; reflexivity|].
  unfold Step11.call_stoq_add_variants.
  destruct (Nat.eqb_spec chunk_size 0) as [Hz|Hz]; [lia|].
  unfold bind at 1. rewrite Hloop.
  destruct write_skipped_file.
  - eexists. split; [reflexivity|]. cbn.
    split; [rewrite Hposts2, Hposts1; now rewrite <- app_assoc | congruence].
  - eexists. split; [reflexivity|]. cbn.
    split; [rewrite Hposts2, Hposts1; now rewrite <- app_assoc
           | rewrite app_nil_r; congruence].
Qed.

End Bisection11.
End Bisection11.

(** ** Step 09: the bisection isolates one bad member *)

Module Bisection09.
Import HalvingFacts.
Section Bisection09.
Context (E : Env) (k : Z).
Hypothesis Hbad : one_bad_member E k generic_422.
Context (plan : string).

Lemma accepted09_app (l1 l2 : list Request) :
  accepted k (l1 ++ l2) = accepted k l1 ++ accepted k l2.
Proof. unfold accepted. now rewrite filter_app, flat_map_app. Qed.

Lemma accepted09_bad (ids : list Z) :
  In k ids -> accepted k [mkRequest plan ids None] = [].
Proof.
  intros H. apply memZ_In in H. unfold accepted. cbn [filter].
  unfold holds. cbn [shopify_variant_ids]. now rewrite H.
Qed.

Lemma accepted09_good (ids : list Z) :
  ~ In k ids -> accepted k [mkRequest plan ids None] = ids.
Proof.
  intros H. apply memZ_false in H. unfold accepted. cbn [filter].
  unfold holds. cbn [shopify_variant_ids]. rewrite H.
  cbn. apply app_nil_r.
Qed.

(** The function on a non-empty batch, once its first response is known. *)
Lemma add_chunk_rec_accepted (fuel : nat) (batch : list Z) (w : World E)
      (r : Response) (d : Q) (s : RS E) :
  batch <> [] ->
  remote_post E (w_remote w) (mkRequest plan batch None) = (Replied r, d, s) ->
  is_2xx (status_code r) = true ->
  Step09.add_chunk_rec E (S fuel) plan batch w
  = (Ok (true, []), posted w (mkRequest plan batch None) d s).
Proof.
  intros Hne Hpost H2.
  destruct batch as [|x l]; [congruence|].
  cbn [Step09.add_chunk_rec]. unfold bind at 1.
  erewrite Step09Calls.post_final; [|eassumption|now left].
  rewrite H2. reflexivity.
Qed.

Lemma add_chunk_rec_generic (fuel : nat) (batch : list Z) (w : World E)
      (r : Response) (d : Q) (s : RS E) :
  (2 <= List.length batch)%nat ->
  remote_post E (w_remote w) (mkRequest plan batch None) = (Replied r, d, s) ->
  status_code r = 422%Z ->
  Step09.existing_of r = [] ->
  Step09.add_chunk_rec E (S fuel) plan batch w
  = (let mid := (List.length batch / 2)%nat in
     let left := firstn mid batch in
     let right := skipn mid batch in
     bind (Step09.add_chunk_rec E fuel plan left)
       (fun x => match x with
        | (ok_left, skipped_left) =>
          bind (Step09.add_chunk_rec E fuel plan right)
            (fun y => match y with
             | (ok_right, skipped_right) =>
               ret (ok_left && ok_right, skipped_left ++ skipped_right)
             end)
        end)) (posted w (mkRequest plan batch None) d s).
Proof.
  intros Hlen Hpost Hst Hex.
  destruct batch as [|x [|y l]]; cbn [List.length] in Hlen; try lia.
  cbn [Step09.add_chunk_rec]. unfold bind at 1.
  erewrite Step09Calls.post_final;
    [|eassumption|right; rewrite Hst; reflexivity].
  rewrite Hst.
  change (is_2xx 422) with false. change (422 =? 422)%Z with true.
  cbv iota. rewrite Hex. reflexivity.
Qed.

Lemma rec09_good (fuel : nat) (batch : list Z) (w : World E) :
  (1 <= fuel)%nat -> batch <> [] -> ~ In k batch ->
  exists (w' : World E),
    Step09.add_chunk_rec E fuel plan batch w = (Ok (true, []), w') /\
    w_posts w' = w_posts w ++ [mkRequest plan batch None].
Proof.
  intros Hfuel Hne Hk. destruct fuel as [|fuel]; [lia|].
  destruct (Hbad (w_remote w) (mkRequest plan batch None)) as (r & d & s & Hpost & Hres).
  unfold holds in Hres. cbn [shopify_variant_ids] in Hres.
  apply memZ_false in Hk. rewrite Hk in Hres.
  eexists. split; [eapply add_chunk_rec_accepted; eassumption | reflexivity].
Qed.

(** On a duplicate-free batch that holds [k]: the function reports success
    and skips exactly [k]; each level costs two calls after the first; the
    accepted calls carry the other members, in order. *)
Lemma rec09_isolates (fuel : nat) :
  forall (batch : list Z) (w : World E),
    (List.length batch < fuel)%nat -> NoDup batch -> In k batch ->
    exists (w' : World E) (calls : list Request),
      Step09.add_chunk_rec E fuel plan batch w = (Ok (true, [k]), w') /\
      w_posts w' = w_posts w ++ calls /\
      (List.length calls <= 2 * Nat.log2_up (List.length batch) + 1)%nat /\
      accepted k calls = without k batch.
Proof.
  induction fuel as [|fuel IH]; intros batch w Hlen Hnd Hin; [lia|].
  destruct (Hbad (w_remote w) (mkRequest plan batch None)) as (r & d & s & Hpost & Hres).
  unfold holds in Hres. cbn [shopify_variant_ids] in Hres.
  pose proof Hin as Hmem. apply memZ_In in Hmem. rewrite Hmem in Hres.
  destruct Hres as [Hst Hgen].
  destruct (Nat.le_gt_cases 2 (List.length batch)) as [H2|H2].
  - rewrite (add_chunk_rec_generic fuel batch w r d s H2 Hpost Hst Hgen). cbv zeta.
    set (w0 := posted w (mkRequest plan batch None) d s).
    assert (Hposts0 : w_posts w0 = w_posts w ++ [mkRequest plan batch None]) by reflexivity.
    destruct (halves_split batch H2) as (Hsplit & Hl & Hr & Hmid).
    destruct (log2_up_halves _ H2) as [HlogL HlogR].
    set (mid := (List.length batch / 2)%nat) in *.
    set (left := firstn mid batch) in *.
    set (right := skipn mid batch) in *.
    assert (Hnd' : NoDup (left ++ right)) by now rewrite Hsplit.
    assert (Hin' : In k (left ++ right)) by now rewrite Hsplit.
    assert (Hw : without k batch = without k left ++ without k right).
    { rewrite <- Hsplit at 1. apply without_app. }
    assert (HneL : left <> []).
    { intros Hnil. rewrite Hnil in Hl. cbn [List.length] in Hl. lia. }
    assert (HneR : right <> []).
    { intros Hnil. rewrite Hnil in Hr. cbn [List.length] in Hr. lia. }
    assert (Hfuel : (1 <= fuel)%nat) by lia.
    destruct (NoDup_side k left right Hnd' Hin') as [[HkL HkR]|[HkL HkR]].
    + destruct (IH left w0) as (w1 & calls & Hrec & Hposts1 & Hcount & Hacc).
      { lia. } { eapply NoDup_app_remove_r; eassumption. } { exact HkL. }
      unfold bind at 1. rewrite Hrec.
      destruct (rec09_good fuel right w1 Hfuel HneR HkR) as (w2 & Hg & Hposts2).
      unfold bind at 1. rewrite Hg.
      exists w2, ([mkRequest plan batch None] ++ calls ++ [mkRequest plan right None]).
      split; [reflexivity|]. split; [|split].
      * rewrite Hposts2, Hposts1, Hposts0. now rewrite <- !app_assoc.
      * rewrite !length_app. cbn [List.length]. rewrite Hl in Hcount. lia.
      * rewrite !accepted09_app, (accepted09_bad batch Hin),
          (accepted09_good right HkR), Hacc.
        now rewrite Hw, (without_absent k right HkR).
    + destruct (rec09_good fuel left w0 Hfuel HneL HkL) as (w1 & Hg & Hposts1).
      unfold bind at 1. rewrite Hg.
      destruct (IH right w1) as (w2 & calls & Hrec & Hposts2 & Hcount & Hacc).
      { lia. } { eapply NoDup_app_remove_l; eassumption. } { exact HkR. }
      unfold bind at 1. rewrite Hrec.
      exists w2, ([mkRequest plan batch None] ++ [mkRequest plan left None] ++ calls).
      split; [reflexivity|]. split; [|split].
      * rewrite Hposts2, Hposts1, Hposts0. now rewrite <- !app_assoc.
      * rewrite !length_app. cbn [List.length]. rewrite Hr in Hcount. lia.
      * rewrite !accepted09_app, (accepted09_bad batch Hin),
          (accepted09_good left HkL), Hacc.
        now rewrite Hw, (without_absent k left HkL).
  - destruct batch as [|x [|y l]]; cbn [List.length] in H2; try lia.
    + contradiction.
    + destruct Hin as [->|[]].
      exists (posted w (mkRequest plan [k] None) d s), [mkRequest plan [k] None].
      split; [|split; [|split]].
      * cbn [Step09.add_chunk_rec]. unfold bind at 1.
        erewrite Step09Calls.post_final;
          [|eassumption|right; rewrite Hst; reflexivity].
        rewrite Hst.
        change (is_2xx 422) with false. change (422 =? 422)%Z with true.
        cbv iota. rewrite Hgen. reflexivity.
      * reflexivity.
      * cbn. lia.
      * rewrite accepted09_bad by now left. unfold without. cbn.
        now rewrite Z.eqb_refl.
Qed.

(** Step 09 on one batch with one bad member: success, [k] is the one
    skipped member, at most [2*ceil(log2 N)+1] calls. *)
Theorem step09_one_bad_member_isolated (variant_ids : list Z) (w : World E) :
  NoDup variant_ids -> In k variant_ids ->
  (List.length variant_ids <= Step09.CHUNK_SIZE)%nat ->
  exists (w' : World E) (calls : list Request),
    Step09._add_chunk_or_bisect E plan variant_ids w = (Ok (true, [k]), w') /\
    Step09.stoq_add_variants E plan variant_ids w
    = (Ok (true, Step09.AllProcessed [k]), w') /\
    w_posts w' = w_posts w ++ calls /\
    (List.length calls <= 2 * Nat.log2_up (List.length variant_ids) + 1)%nat /\
    accepted k calls = without k variant_ids.
Proof.
  intros Hnd Hin Hlen.
  destruct (rec09_isolates (S (List.length variant_ids)) variant_ids w)
    as (w' & calls & Hrec & Hposts & Hcount & Hacc); [lia|assumption|assumption|].
  exists w', calls. split; [exact Hrec|]. split; [|now repeat split].
  assert (Hfil : forall l : list Z,
             filter (fun v => negb (Step09.memZ v [])) l = l).
  { induction l as [|a l' IH]; [reflexivity|].
    cbn [filter]. unfold Step09.memZ at 1. cbn [existsb negb]. now rewrite IH. }
  unfold Step09.stoq_add_variants.
  destruct variant_ids as [|x l]; [contradiction|].
  rewrite chunked_one by (split; [cbn; lia | exact Hlen]).
  cbn [Step09.chunks_loop]. rewrite (Hfil (x :: l)). cbv iota.
  unfold bind at 1, Step09._add_chunk_or_bisect. rewrite Hrec. reflexivity.
Qed.

End Bisection09.
End Bisection09.

(** ** The add operation: claims C1, C4, C6 and C10 *)

Module AddClaims.
Import Scenario HalvingFacts CallFacts ResolverFacts.
Local Open Scope string_scope.
Local Open Scope list_scope.

(** C1 (the code departs from the claim): in Step 12 the second probe of
    each bisection level is sent with [left] again (line 313). On the batch
    [[1,2]] whose member 2 always fails validation, [right = [2]] is booked
    as added although no accepted call carried it, and nothing is skipped;
    the same input through Step 11, whose second probe carries [right],
    gives added [[1]] and skipped [[2]]. *)
Theorem C1_step12_second_probe_resends_left :
  let run12 := Step12.call_stoq_add_variants bad2 "offer-42" [1; 2]%Z None 75 3 1
                 true "skipped_invalid_add" (start bad2 tt) in
  let run11 := Step11.call_stoq_add_variants bad2 "offer-42" [1; 2]%Z None 75 3 1
                 true "skipped_invalid_add" (start bad2 tt) in
  one_bad_member bad2 2 bisected_422 /\
  (exists msg,
     fst run12 = Ok (true,
                     Step12.mkSummary "offer-42" 2 2 0 [1; 2]%Z [] None,
                     Some msg)) /\
  map shopify_variant_ids (w_posts (snd run12)) = [[1; 2]; [1]; [1]]%Z /\
  (exists msg,
     fst run11 = Ok (true,
                     Step12.mkSummary "offer-42" 2 1 1 [1]%Z [2]%Z
                       (Some "skipped_invalid_add_offer-42"),
                     Some msg)) /\
  map shopify_variant_ids (w_posts (snd run11)) = [[1; 2]; [1]; [2]]%Z.
Proof.
  cbv zeta. split.
  - intros [] req. unfold bad2, env, remote_post, rejecting, holds.
    assert (Heq : existsb (fun v => Step09.memZ v [2%Z]) (shopify_variant_ids req)
                  = Step09.memZ 2 (shopify_variant_ids req)).
    { induction (shopify_variant_ids req) as [|a l IH]; [reflexivity|].
      unfold Step09.memZ in *. simpl existsb. simpl existsb in IH.
      rewrite IH, orb_false_r. now rewrite (Z.eqb_sym a 2). }
    rewrite Heq. destruct (Step09.memZ 2 (shopify_variant_ids req)).
    + exists unprocessable, (1 # 10), tt. split; [reflexivity|]. split; reflexivity.
    + exists ok_response, (1 # 10), tt. split; reflexivity.
  - split; [eexists; vm_compute; reflexivity|].
    split; [vm_compute; reflexivity|].
    split; [eexists; vm_compute; reflexivity|].
    vm_compute; reflexivity.
Qed.

(** C4, as stated, fails: the stripped member is not recorded as skipped;
    for [[5,6,7,8]] rejected with [existing_variants=[6]] the skipped list
    is empty. *)
Lemma C4_stripped_member_is_not_recorded :
  let run := Step09._add_chunk_or_bisect existing6 "plan-42" [5; 6; 7; 8]%Z
               (start existing6 tt) in
  fst run = Ok (true, []) /\
  fst run <> Ok (true, [6%Z]) /\
  map shopify_variant_ids (w_posts (snd run)) = [[5; 6; 7; 8]; [5; 7; 8]]%Z /\
  fst (Step09.stoq_add_variants existing6 "plan-42" [5; 6; 7; 8]%Z
         (start existing6 tt))
  = Ok (true, Step09.AllProcessed []).
Proof.
  cbv zeta.
  assert (H : fst (Step09._add_chunk_or_bisect existing6 "plan-42" [5; 6; 7; 8]%Z
                     (start existing6 tt)) = Ok (true, [])) by (vm_compute; reflexivity).
  split; [exact H|]. split; [rewrite H; discriminate|].
  split; vm_compute; reflexivity.
Qed.

(** C4, amended: when the 422 body lists [existing_variants], exactly the
    listed members are taken out of the batch, the remainder is sent once
    more, and if that call succeeds the result is success with an empty
    skipped list: two calls, the stripped members recorded neither as
    skipped nor as failed. *)
Theorem C4_listed_members_stripped_then_one_retry :
  forall (E : Env) (plan : string) (batch : list Z) (w : World E)
         (r1 r2 : Response) (d1 d2 : Q) (s1 s2 : RS E),
    let remainder := Step09.strip_existing batch (Step09.existing_of r1) in
    remote_post E (w_remote w) (mkRequest plan batch None) = (Replied r1, d1, s1) ->
    status_code r1 = 422%Z ->
    Step09.existing_of r1 <> [] ->
    remainder <> [] ->
    remote_post E s1 (mkRequest plan remainder None) = (Replied r2, d2, s2) ->
    is_2xx (status_code r2) = true ->
    (forall x, In x remainder <-> In x batch /\ ~ In x (Step09.existing_of r1)) /\
    Step09._add_chunk_or_bisect E plan batch w
    = (Ok (true, []),
       posted (posted w (mkRequest plan batch None) d1 s1)
              (mkRequest plan remainder None) d2 s2).
Proof.
  intros E plan batch w r1 r2 d1 d2 s1 s2 remainder Hp1 Hst Hex Hrem Hp2 H2.
  split.
  - intros x. unfold remainder, Step09.strip_existing.
    rewrite filter_In, negb_true_iff, memZ_false. reflexivity.
  - unfold Step09._add_chunk_or_bisect.
    destruct batch as [|b0 bs].
    { exfalso. apply Hrem. reflexivity. }
    cbn [Step09.add_chunk_rec]. unfold bind at 1.
    erewrite Step09Calls.post_final;
      [|eassumption|right; rewrite Hst; reflexivity].
    rewrite Hst.
    change (is_2xx 422) with false. change (422 =? 422)%Z with true. cbv iota.
    destruct (Step09.existing_of r1) as [|e es] eqn:He; [congruence|].
    fold remainder.
    destruct remainder as [|m ms] eqn:Hr; [congruence|]. rewrite <- Hr in *.
    unfold bind at 1.
    erewrite Step09Calls.post_final; [|eassumption|now left].
    rewrite H2. reflexivity.
Qed.

Lemma C4_listed_members_witness :
  Step09._add_chunk_or_bisect existing6 "plan-42" [5; 6; 7; 8]%Z (start existing6 tt)
  = (Ok (true, []),
     posted (posted (start existing6 tt) (mkRequest "plan-42" [5; 6; 7; 8]%Z None)
                    (1 # 10) tt)
            (mkRequest "plan-42" [5; 7; 8]%Z None) (1 # 10) tt).
Proof.
  apply (C4_listed_members_stripped_then_one_retry existing6 "plan-42"
           [5; 6; 7; 8]%Z (start existing6 tt) already_there ok_response
           (1 # 10) (1 # 10) tt tt).
  - reflexivity.
  - reflexivity.
  - discriminate.
  - vm_compute. discriminate.
  - reflexivity.
  - reflexivity.
Defined.

(** C6, as stated, fails: the flag is not the predicate
    [len(skipped)==0 or len(added)>=1]; when a batch is refused with HTTP
    400 nothing is added and nothing is skipped, the predicate holds and
    the flag is false. *)
Lemma C6_flag_is_not_the_quoted_predicate :
  fst (Step12.call_stoq_add_variants refusing "offer-42" [7%Z] None 75 3 1
         true "skipped_invalid_add" (start refusing tt))
  = Ok (false, Step12.mkSummary "offer-42" 1 0 0 [] [] None,
        Some "HTTP 400: Bad Request") /\
  fst (Step11.call_stoq_add_variants refusing "offer-42" [7%Z] None 75 3 1
         true "skipped_invalid_add" (start refusing tt))
  = Ok (false, Step12.mkSummary "offer-42" 1 0 0 [] [] None,
        Some "HTTP 400: Bad Request") /\
  spec_overall_ok 0 0 = true.
Proof. repeat split; vm_compute; reflexivity. Qed.

Lemma call12_flag (E : Env) (offer : string) (ids : list Z) (pmc : option Z)
      (cs : nat) (mr : Z) (base : Q) (wsf : bool) (pre : string) (w : World E)
      (flag : bool) (sm : Step12.Summary) (err : option string) :
  fst (Step12.call_stoq_add_variants E offer ids pmc cs mr base wsf pre w)
  = Ok (flag, sm, err) ->
  exists added skipped : list Z,
    flag = Step12.overall_ok added skipped /\
    Step12.added_ok_count sm = List.length added /\
    Step12.skipped_invalid_count sm = List.length skipped.
Proof.
  unfold Step12.call_stoq_add_variants.
  destruct (cs =? 0)%nat; [discriminate|].
  unfold bind at 1.
  destruct (Step12.add_chunks E (chunked ids cs) offer pmc mr base [] [] None w)
    as [[[[added skipped] fe]|e] w1]; [|discriminate].
  intros H. exists added, skipped.
  destruct wsf, skipped; cbn in H; inversion H; subst; cbn; repeat split.
Qed.

Lemma call11_flag (E : Env) (offer : string) (ids : list Z) (pmc : option Z)
      (cs : nat) (mr : Z) (base : Q) (wsf : bool) (pre : string) (w : World E)
      (flag : bool) (sm : Step12.Summary) (err : option string) :
  fst (Step11.call_stoq_add_variants E offer ids pmc cs mr base wsf pre w)
  = Ok (flag, sm, err) ->
  exists added skipped : list Z,
    flag = Step12.overall_ok added skipped /\
    Step12.added_ok_count sm = List.length added /\
    Step12.skipped_invalid_count sm = List.length skipped.
Proof.
  unfold Step11.call_stoq_add_variants.
  destruct (cs =? 0)%nat; [discriminate|].
  unfold bind at 1.
  destruct (Step11.add_chunks E (chunked ids cs) offer pmc mr base [] [] None w)
    as [[[[added skipped] fe]|e] w1]; [|discriminate].
  intros H. exists added, skipped.
  destruct wsf, skipped; cbn in H; inversion H; subst; cbn; repeat split.
Qed.

(** C6, amended: the flag of [call_stoq_add_variants] is
    [len(added_ok) > 0 and (len(skipped_invalid) == 0 or len(added_ok) >= 1)],
    which holds exactly when at least one member was added; so a run that
    adds one member and skips all the others is reported as a success. *)
Theorem C6_flag_is_one_member_added :
  (forall (E : Env) (offer : string) (ids : list Z) (pmc : option Z)
          (cs : nat) (mr : Z) (base : Q) (wsf : bool) (pre : string)
          (w : World E) (flag : bool) (sm : Step12.Summary) (err : option string),
      fst (Step12.call_stoq_add_variants E offer ids pmc cs mr base wsf pre w)
      = Ok (flag, sm, err) \/
      fst (Step11.call_stoq_add_variants E offer ids pmc cs mr base wsf pre w)
      = Ok (flag, sm, err) ->
      flag = ((0 <? Step12.added_ok_count sm)%nat &&
              spec_overall_ok (Step12.added_ok_count sm)
                              (Step12.skipped_invalid_count sm)) /\
      (flag = true <-> (1 <= Step12.added_ok_count sm)%nat)) /\
  (exists msg,
     fst (Step11.call_stoq_add_variants bad23 "offer-42" [1; 2; 3]%Z None 75 3 1
            true "skipped_invalid_add" (start bad23 tt))
     = Ok (true,
           Step12.mkSummary "offer-42" 3 1 2 [1]%Z [2; 3]%Z
             (Some "skipped_invalid_add_offer-42"),
           Some msg)).
Proof.
  split.
  - intros E offer ids pmc cs mr base wsf pre w flag sm err H.
    assert (Hex : exists added skipped : list Z,
               flag = Step12.overall_ok added skipped /\
               Step12.added_ok_count sm = List.length added /\
               Step12.skipped_invalid_count sm = List.length skipped).
    { destruct H as [H|H]; [eapply call12_flag | eapply call11_flag]; exact H. }
    destruct Hex as (added & skipped & Hflag & Ha & Hs).
    rewrite Ha, Hs, Hflag. unfold Step12.overall_ok, spec_overall_ok.
    split; [reflexivity|].
    destruct (List.length added) as [|n]; cbn.
    + split; [discriminate | lia].
    + rewrite orb_true_r. split; [lia | reflexivity].
  - eexists. vm_compute. reflexivity.
Qed.

Lemma C6_flag_witness :
  true = ((0 <? 1)%nat && spec_overall_ok 1 1) /\ (true = true <-> (1 <= 1)%nat).
Proof.
  apply (proj1 C6_flag_is_one_member_added bad2 "offer-42" [1; 2]%Z None 75%nat
           3%Z 1 true "skipped_invalid_add" (start bad2 tt) true
           (Step12.mkSummary "offer-42" 2 1 1 [1]%Z [2]%Z
              (Some "skipped_invalid_add_offer-42"))
           (Some "Some IDs could not be added (likely already present). Example error: Unprocessable Entity")).
  right. vm_compute. reflexivity.
Defined.



End AddClaims.

(** ** Retrying a call: claim C7 *)

Module RetryFacts.
Import Scenario.
Local Open Scope list_scope.

Section Retry12.
Context (E : Env) (req : Request) (max_retries : Z) (base_backoff : Q).

Lemma sleep_ok (d : Q) (w : World E) :
  0 <= d -> sleep d w = (Ok tt, slept w d).
Proof.
  intros H. unfold sleep. apply Qle_bool_iff in H. now rewrite H.
Qed.

(** The loop through a run of transient outcomes closed by a final reply. *)
Lemma post_loop_trace (transients : list (PostOutcome * Q)) :
  forall (fuel : nat) (attempt : Z) (w : World E)
         (r : Response) (d : Q) (s' : RS E),
    plays E (w_remote w) req (transients ++ [(Replied r, d)]) s' ->
    forallb transient12 transients = true ->
    Step12.is_transient (status_code r) = false ->
    (attempt + Z.of_nat (List.length transients) <= max_retries)%Z ->
    Forall (fun q => 0 <= q) (pauses12 E base_backoff (attempt + 1) transients) ->
    (List.length transients < fuel)%nat ->
    exists w' : World E,
      Step12.post_loop E fuel req max_retries base_backoff attempt w = (Ok r, w') /\
      w_remote w' = s' /\
      w_posts w' = w_posts w ++ repeat req (S (List.length transients)) /\
      w_sleeps w' = w_sleeps w
                    ++ pauses12 E base_backoff (attempt + 1) transients /\
      w_files w' = w_files w.
Proof.
  induction transients as [|[o d0] rest IH];
    intros fuel attempt w r d s' Hplay Htr Hfin Hmax Hpos Hfuel.
  - destruct Hplay as (s1 & Hpost & ->).
    destruct fuel as [|fuel]; [cbn in Hfuel; lia|].
    exists (posted w req d s1).
    rewrite (CallFacts.post_loop_final E fuel req max_retries base_backoff
               attempt w r d s1 Hpost Hfin).
    cbn. rewrite app_nil_r. repeat split.
  - destruct Hplay as (s1 & Hpost & Hplay).
    cbn [forallb] in Htr. apply andb_true_iff in Htr. destruct Htr as [Ho Htr].
    cbn [List.length] in Hmax, Hfuel.
    destruct fuel as [|fuel]; [lia|].
    assert (Hgt : (attempt + 1 >? max_retries)%Z = false).
    { rewrite Z.gtb_ltb. apply Z.ltb_ge. lia. }
    cbn [Step12.post_loop]. unfold bind at 1, requests_post. rewrite Hpost.
    unfold transient12 in Ho. cbn [fst] in Ho.
    destruct o as [|r0].
    + cbn [pauses12] in Hpos. inversion Hpos as [|? ? Hd Hpos']; subst.
      rewrite Hgt. unfold bind at 1. rewrite (sleep_ok _ _ Hd).
      destruct (IH fuel (attempt + 1)%Z
                   (slept (posted w req d0 s1) (Step12.backoff_delay base_backoff (attempt + 1)))
                   r d s' Hplay Htr Hfin ltac:(lia) Hpos' ltac:(lia))
        as (w' & Hrun & Hrem & Hposts & Hsleeps & Hfiles).
      exists w'. rewrite Hrun. split; [reflexivity|]. split; [exact Hrem|].
      split; [|split].
      * rewrite Hposts. cbn [slept posted w_posts repeat].
        now rewrite <- app_assoc.
      * rewrite Hsleeps. cbn [slept posted w_sleeps pauses12].
        now rewrite <- app_assoc.
      * rewrite Hfiles. reflexivity.
    + cbn [pauses12] in Hpos. inversion Hpos as [|? ? Hd Hpos']; subst.
      rewrite Ho, Hgt. unfold bind at 1. rewrite (sleep_ok _ _ Hd).
      destruct (IH fuel (attempt + 1)%Z
                   (slept (posted w req d0 s1)
                          (Step12.retry_delay E r0 base_backoff (attempt + 1)))
                   r d s' Hplay Htr Hfin ltac:(lia) Hpos' ltac:(lia))
        as (w' & Hrun & Hrem & Hposts & Hsleeps & Hfiles).
      exists w'. rewrite Hrun. split; [reflexivity|]. split; [exact Hrem|].
      split; [|split].
      * rewrite Hposts. cbn [slept posted w_posts repeat].
        now rewrite <- app_assoc.
      * rewrite Hsleeps. cbn [slept posted w_sleeps pauses12].
        now rewrite <- app_assoc.
      * rewrite Hfiles. reflexivity.
Qed.

(** The loop when every attempt, the last allowed one included, fails. *)
Lemma post_loop_gives_up (transients : list (PostOutcome * Q)) :
  forall (fuel : nat) (attempt : Z) (w : World E)
         (last : PostOutcome * Q) (s' : RS E),
    plays E (w_remote w) req (transients ++ [last]) s' ->
    forallb transient12 (transients ++ [last]) = true ->
    (attempt + Z.of_nat (List.length transients) = max_retries)%Z ->
    Forall (fun q => 0 <= q) (pauses12 E base_backoff (attempt + 1) transients) ->
    (List.length transients < fuel)%nat ->
    exists w' : World E,
      Step12.post_loop E fuel req max_retries base_backoff attempt w
      = (match fst last with
         | NetworkError => Raise RequestException
         | Replied r => Ok r
         end, w') /\
      w_posts w' = w_posts w ++ repeat req (S (List.length transients)) /\
      w_sleeps w' = w_sleeps w
                    ++ pauses12 E base_backoff (attempt + 1) transients.
Proof.
  induction transients as [|[o d0] rest IH];
    intros fuel attempt w last s' Hplay Htr Hmax Hpos Hfuel.
  - destruct last as [o d]. destruct Hplay as (s1 & Hpost & ->).
    cbn [app forallb] in Htr. rewrite andb_true_r in Htr.
    unfold transient12 in Htr. cbn [fst] in Htr |- *.
    cbn [List.length] in Hmax.
    destruct fuel as [|fuel]; [cbn in Hfuel; lia|].
    assert (Hgt : (attempt + 1 >? max_retries)%Z = true).
    { rewrite Z.gtb_ltb. apply Z.ltb_lt. lia. }
    exists (posted w req d s1).
    cbn [Step12.post_loop]. unfold bind at 1, requests_post. rewrite Hpost.
    destruct o as [|r].
    + rewrite Hgt. cbn. rewrite !app_nil_r. repeat split.
    + rewrite Htr, Hgt. cbn. rewrite !app_nil_r. repeat split.
  - destruct Hplay as (s1 & Hpost & Hplay).
    cbn [app forallb] in Htr. apply andb_true_iff in Htr. destruct Htr as [Ho Htr].
    cbn [List.length] in Hmax, Hfuel.
    destruct fuel as [|fuel]; [lia|].
    assert (Hgt : (attempt + 1 >? max_retries)%Z = false).
    { rewrite Z.gtb_ltb. apply Z.ltb_ge. lia. }
    cbn [Step12.post_loop]. unfold bind at 1, requests_post. rewrite Hpost.
    unfold transient12 in Ho. cbn [fst] in Ho.
    destruct o as [|r0].
    + cbn [pauses12] in Hpos. inversion Hpos as [|? ? Hd Hpos']; subst.
      rewrite Hgt. unfold bind at 1. rewrite (sleep_ok _ _ Hd).
      destruct (IH fuel (attempt + 1)%Z
                   (slept (posted w req d0 s1) (Step12.backoff_delay base_backoff (attempt + 1)))
                   last s' Hplay Htr ltac:(lia) Hpos' ltac:(lia))
        as (w' & Hrun & Hposts & Hsleeps).
      exists w'. rewrite Hrun. split; [reflexivity|]. split.
      * rewrite Hposts. cbn [slept posted w_posts repeat].
        now rewrite <- app_assoc.
      * rewrite Hsleeps. cbn [slept posted w_sleeps pauses12].
        now rewrite <- app_assoc.
    + cbn [pauses12] in Hpos. inversion Hpos as [|? ? Hd Hpos']; subst.
      rewrite Ho, Hgt. unfold bind at 1. rewrite (sleep_ok _ _ Hd).
      destruct (IH fuel (attempt + 1)%Z
                   (slept (posted w req d0 s1)
                          (Step12.retry_delay E r0 base_backoff (attempt + 1)))
                   last s' Hplay Htr ltac:(lia) Hpos' ltac:(lia))
        as (w' & Hrun & Hposts & Hsleeps).
      exists w'. rewrite Hrun. split; [reflexivity|]. split.
      * rewrite Hposts. cbn [slept posted w_posts repeat].
        now rewrite <- app_assoc.
      * rewrite Hsleeps. cbn [slept posted w_sleeps pauses12].
        now rewrite <- app_assoc.
Qed.

End Retry12.

Section Retry09.
Context (E : Env) (req : Request).

Lemma sleep09 (d : Q) (w : World E) :
  Qle_bool 0 d = true -> sleep d w = (Ok tt, slept w d).
Proof. intros H. unfold sleep. now rewrite H. Qed.

(** One turn of the loop of Step 09 on an outcome it tries again. *)
Lemma post_attempts_again (attempt : Z) (rest : list Z) (backoff : Q)
      (last : option Response) (w : World E) (o : PostOutcome) (d : Q) (s : RS E) :
  remote_post E (w_remote w) req = (o, d, s) ->
  transient09 (o, d) = true ->
  (attempt <? Step09.MAX_RETRIES)%Z = true ->
  Qle_bool 0 backoff = true ->
  exists last' : option Response,
    Step09.post_attempts E (attempt :: rest) req backoff last w
    = Step09.post_attempts E rest req (backoff * 2) last'
        (slept (posted w req d s) backoff).
Proof.
  intros Hpost Ho Hlt Hb.
  cbn [Step09.post_attempts]. unfold bind at 1, requests_post. rewrite Hpost.
  unfold transient09 in Ho. cbn [fst] in Ho.
  destruct o as [|r].
  - assert (Hne : (attempt =? Step09.MAX_RETRIES)%Z = false).
    { apply Z.eqb_neq. apply Z.ltb_lt in Hlt. lia. }
    rewrite Hne. unfold bind at 1. rewrite (sleep09 _ _ Hb). eauto.
  - apply andb_true_iff in Ho. destruct Ho as [H2 Hr].
    apply negb_true_iff in H2. rewrite H2, Hr, Hlt.
    cbn [andb]. unfold bind at 1. rewrite (sleep09 _ _ Hb). eauto.
Qed.

(** One turn of the loop of Step 09 on a reply it returns. *)
Lemma post_attempts_return (attempt : Z) (rest : list Z) (backoff : Q)
      (last : option Response) (w : World E) (r : Response) (d : Q) (s : RS E) :
  remote_post E (w_remote w) req = (Replied r, d, s) ->
  transient09 (Replied r, d) = false \/ (attempt <? Step09.MAX_RETRIES)%Z = false ->
  Step09.post_attempts E (attempt :: rest) req backoff last w
  = (Ok r, posted w req d s).
Proof.
  intros Hpost Hfin.
  cbn [Step09.post_attempts]. unfold bind at 1, requests_post. rewrite Hpost.
  unfold transient09 in Hfin. cbn [fst] in Hfin.
  destruct (is_2xx (status_code r)); [reflexivity|].
  cbn [negb andb] in Hfin.
  destruct Hfin as [Hfin|Hfin]; rewrite Hfin; [|rewrite andb_false_r]; reflexivity.
Qed.

(** Step 09: at most three attempts, pauses of one and two seconds. *)
Lemma post09_trace (transients : list (PostOutcome * Q)) (w : World E)
      (r : Response) (d : Q) (s' : RS E) :
  plays E (w_remote w) req (transients ++ [(Replied r, d)]) s' ->
  forallb transient09 transients = true ->
  (List.length transients <= 2)%nat ->
  List.length transients = 2%nat \/ transient09 (Replied r, d) = false ->
  exists w' : World E,
    Step09._post_with_retries E req w = (Ok r, w') /\
    w_remote w' = s' /\
    w_posts w' = w_posts w ++ repeat req (S (List.length transients)) /\
    w_sleeps w' = w_sleeps w
                  ++ firstn (List.length transients)
                       [Step09.INITIAL_BACKOFF; Step09.INITIAL_BACKOFF * 2].
Proof.
  intros Hplay Htr Hlen Hfin.
  unfold Step09._post_with_retries.
  change (Step09.range_from_1 Step09.MAX_RETRIES) with [1; 2; 3]%Z.
  destruct transients as [|[o1 d1] [|[o2 d2] [|t3 rest]]];
    cbn [List.length] in Hlen; try lia.
  - destruct Hplay as (s1 & Hp & ->).
    destruct Hfin as [Hfin|Hfin]; [discriminate|].
    rewrite (post_attempts_return 1 _ _ _ _ _ _ _ Hp (or_introl Hfin)).
    eexists. split; [reflexivity|]. cbn. rewrite app_nil_r. repeat split.
  - destruct Hplay as (s1 & Hp1 & s2 & Hp2 & ->).
    cbn [forallb] in Htr. rewrite andb_true_r in Htr.
    destruct Hfin as [Hfin|Hfin]; [discriminate|].
    destruct (post_attempts_again 1 [2; 3]%Z Step09.INITIAL_BACKOFF None w
                _ _ _ Hp1 Htr eq_refl eq_refl) as [l1 H1].
    rewrite H1.
    rewrite (post_attempts_return 2 _ _ _
               (slept (posted w req d1 s1) Step09.INITIAL_BACKOFF)
               _ _ _ Hp2 (or_introl Hfin)).
    eexists. split; [reflexivity|]. cbn. rewrite <- !app_assoc. repeat split.
  - destruct Hplay as (s1 & Hp1 & s2 & Hp2 & s3 & Hp3 & ->).
    cbn [forallb] in Htr. rewrite andb_true_r in Htr.
    apply andb_true_iff in Htr. destruct Htr as [Ht1 Ht2].
    destruct (post_attempts_again 1 [2; 3]%Z Step09.INITIAL_BACKOFF None w
                _ _ _ Hp1 Ht1 eq_refl eq_refl) as [l1 H1].
    rewrite H1.
    destruct (post_attempts_again 2 [3]%Z (Step09.INITIAL_BACKOFF * 2) l1
                (slept (posted w req d1 s1) Step09.INITIAL_BACKOFF)
                _ _ _ Hp2 Ht2 eq_refl eq_refl) as [l2 H2].
    rewrite H2.
    rewrite (post_attempts_return 3 _ _ _
               (slept (posted (slept (posted w req d1 s1) Step09.INITIAL_BACKOFF)
                              req d2 s2) (Step09.INITIAL_BACKOFF * 2))
               _ _ _ Hp3 (or_intror eq_refl)).
    eexists. split; [reflexivity|]. cbn. rewrite <- !app_assoc. repeat split.
Qed.

End Retry09.

(** C7, as stated, fails for Step 09: its [_post_with_retries] does not
    read [Retry-After], makes three attempts in all (two retries), and
    returns a 501 at once; Step 12 on the same remote waits the seven
    seconds of the header three times, and retries the 501. *)
Lemma C7_step09_retries_differently :
  let run09 := Step09._post_with_retries overloaded probe (start overloaded tt) in
  let run12 := Step12._post_with_retries overloaded probe 3 1 (start overloaded tt) in
  let run09' := Step09._post_with_retries unimplemented probe (start unimplemented tt) in
  let run12' := Step12._post_with_retries unimplemented probe 3 1 (start unimplemented tt) in
  (w_posts (snd run09) = repeat probe 3 /\ w_sleeps (snd run09) = [1; 2]) /\
  (w_posts (snd run12) = repeat probe 4 /\ w_sleeps (snd run12) = [7; 7; 7]) /\
  (w_posts (snd run09') = repeat probe 1 /\ w_sleeps (snd run09') = []) /\
  (w_posts (snd run12') = repeat probe 4 /\ w_sleeps (snd run12') = [1; 2; 4]).
Proof. cbv zeta. repeat split; vm_compute; reflexivity. Qed.

(** C7, amended. Steps 11 and 12: after a network error, a 429 or a 5xx the
    same request is sent again, up to [max_retries] times, pausing
    [base_backoff * 2^(attempt-1)] after the failed attempt number
    [attempt] (counted from 1), or the seconds of a [Retry-After] header
    that [float()] reads; any other response is returned at once; when the
    retries are used up the last response is returned, a network error is
    raised. Step 09: only a network error, 429, 500, 502, 503 and 504 are
    tried again, three attempts in all, with pauses of one and two seconds
    whatever the headers. *)
Theorem C7_retries_of_each_step :
  (forall (E : Env) (req : Request) (max_retries : Z) (base_backoff : Q)
          (transients : list (PostOutcome * Q)) (r : Response) (d : Q)
          (w : World E) (s' : RS E),
      plays E (w_remote w) req (transients ++ [(Replied r, d)]) s' ->
      forallb transient12 transients = true ->
      Step12.is_transient (status_code r) = false ->
      (Z.of_nat (List.length transients) <= max_retries)%Z ->
      Forall (fun q => 0 <= q) (pauses12 E base_backoff 1 transients) ->
      exists w' : World E,
        Step12._post_with_retries E req max_retries base_backoff w = (Ok r, w') /\
        w_posts w' = w_posts w ++ repeat req (S (List.length transients)) /\
        w_sleeps w' = w_sleeps w ++ pauses12 E base_backoff 1 transients) /\
  (forall (E : Env) (req : Request) (max_retries : Z) (base_backoff : Q)
          (transients : list (PostOutcome * Q)) (last : PostOutcome * Q)
          (w : World E) (s' : RS E),
      plays E (w_remote w) req (transients ++ [last]) s' ->
      forallb transient12 (transients ++ [last]) = true ->
      Z.of_nat (List.length transients) = max_retries ->
      Forall (fun q => 0 <= q) (pauses12 E base_backoff 1 transients) ->
      exists w' : World E,
        Step12._post_with_retries E req max_retries base_backoff w
        = (match fst last with
           | NetworkError => Raise RequestException
           | Replied r => Ok r
           end, w') /\
        w_posts w' = w_posts w ++ repeat req (S (List.length transients)) /\
        w_sleeps w' = w_sleeps w ++ pauses12 E base_backoff 1 transients) /\
  (forall (E : Env) (r : Response) (base_backoff : Q) (attempt : Z),
      (retry_after r = None ->
       Step12.retry_delay E r base_backoff attempt
       = base_backoff * inject_Z (2 ^ (attempt - 1))) /\
      (forall (ra : string) (seconds : Q),
          retry_after r = Some ra -> ra <> EmptyString ->
          py_float E ra = Some seconds ->
          Step12.retry_delay E r base_backoff attempt = seconds)) /\
  (forall (E : Env) (req : Request) (transients : list (PostOutcome * Q))
          (r : Response) (d : Q) (w : World E) (s' : RS E),
      plays E (w_remote w) req (transients ++ [(Replied r, d)]) s' ->
      forallb transient09 transients = true ->
      (List.length transients <= 2)%nat ->
      List.length transients = 2%nat \/ transient09 (Replied r, d) = false ->
      exists w' : World E,
        Step09._post_with_retries E req w = (Ok r, w') /\
        w_posts w' = w_posts w ++ repeat req (S (List.length transients)) /\
        w_sleeps w' = w_sleeps w ++ firstn (List.length transients) [1; 1 * 2]).
Proof.
  split; [|split; [|split]].
  - intros E req mr base transients r d w s' Hplay Htr Hfin Hlen Hpos.
    unfold Step12._post_with_retries.
    destruct (post_loop_trace E req mr base transients (S (Z.to_nat mr)) 0 w r d s'
                Hplay Htr Hfin ltac:(lia) Hpos ltac:(lia))
      as (w' & Hrun & _ & Hposts & Hsleeps & _).
    exists w'. repeat split; assumption.
  - intros E req mr base transients last w s' Hplay Htr Hlen Hpos.
    unfold Step12._post_with_retries.
    destruct (post_loop_gives_up E req mr base transients (S (Z.to_nat mr)) 0 w last s'
                Hplay Htr ltac:(lia) Hpos ltac:(lia))
      as (w' & Hrun & Hposts & Hsleeps).
    exists w'. repeat split; assumption.
  - intros E r base attempt. split.
    + intros H. unfold Step12.retry_delay. now rewrite H.
    + intros ra seconds H Hne Hf. unfold Step12.retry_delay. rewrite H.
      apply String.eqb_neq in Hne. now rewrite Hne, Hf.
  - intros E req transients r d w s' Hplay Htr Hlen Hfin.
    destruct (post09_trace E req transients w r d s' Hplay Htr Hlen Hfin)
      as (w' & Hrun & _ & Hposts & Hsleeps).
    exists w'. repeat split; assumption.
Qed.

Lemma C7_retries_witness :
  exists w' : World playing,
    Step12._post_with_retries playing probe 3 1
      (start playing [(Replied busy, 1 # 10); (NetworkError, 1 # 10)])
    = (Ok ok_response, w') /\
    w_posts w' = repeat probe 3 /\
    w_sleeps w' = [7; 1 * inject_Z (2 ^ (2 - 1))].
Proof.
  apply (proj1 C7_retries_of_each_step playing probe 3%Z 1
           [(Replied busy, 1 # 10); (NetworkError, 1 # 10)] ok_response (1 # 10)
           (start playing [(Replied busy, 1 # 10); (NetworkError, 1 # 10)]) []).
  - cbn. eexists. split; [reflexivity|]. eexists. split; [reflexivity|].
    eexists. split; reflexivity.
  - reflexivity.
  - reflexivity.
  - cbn. lia.
  - repeat constructor; vm_compute; discriminate.
Defined.

End RetryFacts.

(** ** Waiting for a locked offer: claim C5 *)

Module LockFacts.
Import Scenario CallFacts.
Local Open Scope string_scope.
Local Open Scope list_scope.

Lemma lock_pause_ge_1 (i : nat) : 1 <= lock_pause i.
Proof.
  induction i as [|i IH]; cbn [lock_pause]; [lra|].
  apply Q.min_glb; lra.
Qed.

Lemma lock_pause_first :
  lock_pause 0 == 1 /\ lock_pause 1 == 18 # 10 /\ lock_pause 2 == 324 # 100 /\
  lock_pause 3 == 5832 # 1000 /\ lock_pause 4 == 104976 # 10000.
Proof. repeat split; vm_compute; reflexivity. Qed.

Lemma lock_pause_capped (i : nat) : (5 <= i)%nat -> lock_pause i == 12.
Proof.
  induction 1 as [|i Hi IH].
  - vm_compute. reflexivity.
  - cbn [lock_pause]. apply Q.min_l. rewrite IH. lra.
Qed.

Section Lock.
Context (E : Env).
Hypothesis Hbase : truthy (STOQ_API_BASE E) = true.
Context (offer : string) (ids : list Z) (pmc : option Z) (mr : Z) (base : Q).

Let req : Request := mkRequest offer ids pmc.

Lemma lock_reply_result (l : Response) :
  lock_reply l ->
  Step12.is_transient (status_code l) = false /\
  Step12.add_result_of l = (false, None, Some (text l)).
Proof.
  intros [[H|H] _]; unfold Step12.add_result_of; rewrite H; split; reflexivity.
Qed.

(** A probe that finds the lock goes on after a pause, the budget allowing. *)
Lemma lock_turn (fuel : nat) (budget factor cap start sleep_s : Q)
      (w : World E) (l : Response) (d : Q) (s1 : RS E) :
  remote_post E (w_remote w) req = (Replied l, d, s1) ->
  lock_reply l ->
  Qle_bool budget (w_clock w + d - start) = false ->
  0 <= sleep_s ->
  Step12.lock_wait_loop E (S fuel) offer ids pmc mr base budget factor cap
    start sleep_s w
  = Step12.lock_wait_loop E fuel offer ids pmc mr base budget factor cap
      start (Qmin cap (sleep_s * factor)) (slept (posted w req d s1) sleep_s).
Proof.
  intros Hpost Hl Hb Hs.
  destruct (lock_reply_result l Hl) as [Hfin Hres].
  cbn [Step12.lock_wait_loop]. unfold bind at 1.
  rewrite (try_add_chunk_final E Hbase offer ids pmc mr base w l d s1 Hpost Hfin).
  rewrite Hres. destruct Hl as [_ Hl]. rewrite Hl.
  unfold bind at 1, time. cbn [posted w_clock]. rewrite Hb.
  unfold bind at 1, sleep. apply Qle_bool_iff in Hs.
  cbn [posted w_clock] in *. rewrite Hs. reflexivity.
Qed.

(** A probe that finds the lock when the budget is used up gives up and
    returns the lock error. *)
Lemma lock_turn_exhausted (fuel : nat) (budget factor cap start sleep_s : Q)
      (w : World E) (l : Response) (d : Q) (s1 : RS E) :
  remote_post E (w_remote w) req = (Replied l, d, s1) ->
  lock_reply l ->
  Qle_bool budget (w_clock w + d - start) = true ->
  Step12.lock_wait_loop E (S fuel) offer ids pmc mr base budget factor cap
    start sleep_s w
  = (Ok (false, None, Some (text l)), posted w req d s1).
Proof.
  intros Hpost Hl Hb.
  destruct (lock_reply_result l Hl) as [Hfin Hres].
  cbn [Step12.lock_wait_loop]. unfold bind at 1.
  rewrite (try_add_chunk_final E Hbase offer ids pmc mr base w l d s1 Hpost Hfin).
  rewrite Hres. destruct Hl as [_ Hl]. rewrite Hl.
  unfold bind at 1, time. cbn [posted w_clock]. rewrite Hb. reflexivity.
Qed.

(** While the offer stays locked the loop sends the same batch, pauses
    along [lock_pause], and after at most 181 probes returns the lock
    error, 180 seconds or more after it started. *)
Lemma lock_loop_always_locked (Hlocked : always_locked E) (fuel : nat) :
  forall (i : nat) (start : Q) (w : World E),
    (181 <= fuel + i)%nat ->
    (i <= 180)%nat ->
    inject_Z (Z.of_nat i) <= w_clock w - start ->
    exists (l : Response) (n : nat) (w' : World E),
      Step12.lock_wait_loop E fuel offer ids pmc mr base 180 (18 # 10) 12
        start (lock_pause i) w
      = (Ok (false, None, Some (text l)), w') /\
      lock_reply l /\
      w_posts w' = w_posts w ++ repeat req (S n) /\
      w_sleeps w' = w_sleeps w ++ map lock_pause (seq i n) /\
      w_files w' = w_files w /\
      180 <= w_clock w' - start /\
      (i + n <= 180)%nat.
Proof.
  induction fuel as [|fuel IH]; intros i start w Hfuel Hi Hel; [lia|].
  destruct (Hlocked (w_remote w) req) as (l & d & s1 & Hpost & Hl & Hd).
  destruct (Qle_bool 180 (w_clock w + d - start)) eqn:Hb.
  - exists l, 0%nat, (posted w req d s1).
    rewrite (lock_turn_exhausted fuel 180 (18 # 10) 12 start (lock_pause i)
               w l d s1 Hpost Hl Hb).
    split; [reflexivity|]. split; [exact Hl|].
    cbn [repeat seq map posted w_posts w_sleeps w_files w_clock].
    rewrite app_nil_r. repeat split; [|lia].
    apply Qle_bool_iff. exact Hb.
  - assert (Hlt : w_clock w + d - start < 180).
    { apply Qnot_le_lt. intros H. apply Qle_bool_iff in H. congruence. }
    assert (Hi' : (i < 180)%nat).
    { assert (Hq : inject_Z (Z.of_nat i) < inject_Z 180).
      { change (inject_Z 180) with 180. lra. }
      rewrite <- Zlt_Qlt in Hq. lia. }
    pose proof (lock_pause_ge_1 i) as Hp.
    rewrite (lock_turn fuel 180 (18 # 10) 12 start (lock_pause i)
               w l d s1 Hpost Hl Hb ltac:(lra)).
    change (Qmin 12 (lock_pause i * (18 # 10))) with (lock_pause (S i)).
    destruct (IH (S i) start (slept (posted w req d s1) (lock_pause i)))
      as (l' & n & w' & Hrun & Hl' & Hposts & Hsleeps & Hfiles & Hbud & Hn).
    { lia. } { lia. }
    { cbn [slept posted w_clock]. rewrite Nat2Z.inj_succ.
      unfold Z.succ. rewrite inject_Z_plus.
      change (inject_Z 1) with 1. lra. }
    exists l', (S n), w'. rewrite Hrun.
    split; [reflexivity|]. split; [exact Hl'|].
    split; [|split; [|split; [|split]]].
    + rewrite Hposts. cbn [slept posted w_posts repeat].
      now rewrite <- app_assoc.
    + rewrite Hsleeps. cbn [slept posted w_sleeps seq map].
      now rewrite <- app_assoc.
    + rewrite Hfiles. reflexivity.
    + exact Hbud.
    + lia.
Qed.

Lemma sumQ_nonneg (l : list Q) : Forall (fun q => 0 <= q) l -> 0 <= sumQ l.
Proof.
  induction 1 as [|q l Hq _ IH]; cbn [sumQ]; lra.
Qed.

Lemma sum_pauses_nonneg (i n : nat) : 0 <= sumQ (map lock_pause (seq i n)).
Proof.
  apply sumQ_nonneg. apply Forall_forall. intros q Hq.
  apply in_map_iff in Hq. destruct Hq as (j & <- & _).
  pose proof (lock_pause_ge_1 j). lra.
Qed.

(** Locked [length locks] times within the budget, then a reply that is
    not a lock: the loop sends the same batch each time, pauses along
    [lock_pause], and returns what the last reply means. *)
Lemma lock_loop_then_reply (locks : list (Response * Q)) :
  forall (fuel i : nat) (start : Q) (w : World E)
         (r : Response) (d : Q) (s' : RS E),
    plays E (w_remote w) req (map replied locks ++ [(Replied r, d)]) s' ->
    Forall (fun p => lock_reply (fst p) /\ 0 <= snd p) locks ->
    Step12.is_transient (status_code r) = false ->
    is_2xx (status_code r) = true \/
      Step12._is_job_in_progress (err_of r) = false ->
    w_clock w - start + sumQ (map snd locks)
      + sumQ (map lock_pause (seq i (List.length locks))) < 180 ->
    (List.length locks < fuel)%nat ->
    exists w' : World E,
      Step12.lock_wait_loop E fuel offer ids pmc mr base 180 (18 # 10) 12
        start (lock_pause i) w
      = (Ok (Step12.add_result_of r), w') /\
      w_posts w' = w_posts w ++ repeat req (S (List.length locks)) /\
      w_sleeps w' = w_sleeps w ++ map lock_pause (seq i (List.length locks)) /\
      w_files w' = w_files w.
Proof.
  induction locks as [|[l dl] rest IH];
    intros fuel i start w r d s' Hplay Hlocks Hfin Hnl Htime Hfuel.
  - destruct Hplay as (s1 & Hpost & ->).
    destruct fuel as [|fuel]; [cbn in Hfuel; lia|].
    exists (posted w req d s1).
    rewrite (lock_wait_loop_final E Hbase fuel offer ids pmc mr base 180
               (18 # 10) 12 start (lock_pause i) w r d s1 Hpost Hfin Hnl).
    cbn. rewrite app_nil_r. repeat split.
  - destruct Hplay as (s1 & Hpost & Hplay).
    inversion Hlocks as [|? ? [Hl Hd] Hrest]; subst. cbn [fst snd] in Hl, Hd.
    cbn [List.length] in Hfuel, Htime.
    cbn [map seq sumQ snd] in Htime.
    destruct fuel as [|fuel]; [lia|].
    pose proof (lock_pause_ge_1 i) as Hp.
    assert (Hd_rest : 0 <= sumQ (map snd rest)).
    { apply sumQ_nonneg. apply Forall_forall. intros q Hq.
      apply in_map_iff in Hq. destruct Hq as (p & <- & Hp').
      rewrite Forall_forall in Hrest. now apply Hrest. }
    pose proof (sum_pauses_nonneg (S i) (List.length rest)) as Hp_rest.
    assert (Hb : Qle_bool 180 (w_clock w + dl - start) = false).
    { destruct (Qle_bool 180 (w_clock w + dl - start)) eqn:Hb; [|reflexivity].
      apply Qle_bool_iff in Hb. lra. }
    unfold replied in Hpost. cbn [fst snd] in Hpost.
    rewrite (lock_turn fuel 180 (18 # 10) 12 start (lock_pause i)
               w l dl s1 Hpost Hl Hb ltac:(lra)).
    change (Qmin 12 (lock_pause i * (18 # 10))) with (lock_pause (S i)).
    destruct (IH fuel (S i) start (slept (posted w req dl s1) (lock_pause i))
                r d s' Hplay Hrest Hfin Hnl)
      as (w' & Hrun & Hposts & Hsleeps & Hfiles).
    { cbn [slept posted w_clock]. lra. } { lia. }
    exists w'. rewrite Hrun. split; [reflexivity|].
    split; [|split].
    + rewrite Hposts. cbn [slept posted w_posts repeat List.length].
      now rewrite <- app_assoc.
    + rewrite Hsleeps. cbn [slept posted w_sleeps seq map List.length].
      now rewrite <- app_assoc.
    + rewrite Hfiles. reflexivity.
Qed.

(** Whatever the remote does, every call of the lock wait carries the
    batch it was given. *)
Lemma post_loop_same_request (request : Request) (fuel : nat) :
  forall (attempt : Z) (w : World E),
    exists n : nat,
      w_posts (snd (Step12.post_loop E fuel request mr base attempt w))
      = w_posts w ++ repeat request n.
Proof.
  induction fuel as [|fuel IH]; intros attempt w.
  - exists 0%nat. cbn. now rewrite app_nil_r.
  - cbn [Step12.post_loop]. unfold bind at 1, requests_post.
    destruct (remote_post E (w_remote w) request) as [[o d] s1].
    assert (Hone : w_posts (posted w request d s1) = w_posts w ++ repeat request 1)
      by reflexivity.
    assert (Hnext : forall (q : Q) (a : Z),
               exists n : nat,
                 w_posts (snd (bind (sleep q)
                                 (fun _ => Step12.post_loop E fuel request mr base a)
                                 (posted w request d s1)))
                 = w_posts w ++ repeat request n).
    { intros q a. unfold bind, sleep.
      destruct (Qle_bool 0 q).
      - destruct (IH a (slept (posted w request d s1) q)) as [n Hn].
        exists (S n). rewrite Hn. cbn [slept posted w_posts repeat].
        now rewrite <- app_assoc.
      - exists 1%nat. exact Hone. }
    destruct o as [|r].
    + destruct (attempt + 1 >? mr)%Z; [exists 1%nat; exact Hone | apply Hnext].
    + destruct (Step12.is_transient (status_code r)); [|exists 1%nat; exact Hone].
      destruct (attempt + 1 >? mr)%Z; [exists 1%nat; exact Hone | apply Hnext].
Qed.

Lemma try_add_chunk_same_request (w : World E) :
  exists n : nat,
    w_posts (snd (Step12._try_add_chunk E offer ids pmc mr base w))
    = w_posts w ++ repeat req n.
Proof.
  unfold Step12._try_add_chunk. rewrite Hbase. cbn [negb].
  unfold bind, Step12._post_with_retries. fold req.
  destruct (post_loop_same_request req (S (Z.to_nat mr)) 0 w) as [n Hn].
  exists n.
  destruct (Step12.post_loop E (S (Z.to_nat mr)) req mr base 0 w) as [[r|e] w1];
    unfold ret; cbn [snd] in *; exact Hn.
Qed.

Lemma lock_loop_same_request (budget factor cap start : Q) (fuel : nat) :
  forall (sleep_s : Q) (w : World E),
    exists n : nat,
      w_posts (snd (Step12.lock_wait_loop E fuel offer ids pmc mr base budget
                      factor cap start sleep_s w))
      = w_posts w ++ repeat req n.
Proof.
  induction fuel as [|fuel IH]; intros sleep_s w.
  - exists 0%nat. cbn. now rewrite app_nil_r.
  - cbn [Step12.lock_wait_loop]. unfold bind at 1.
    destruct (try_add_chunk_same_request w) as [n Hn].
    destruct (Step12._try_add_chunk E offer ids pmc mr base w)
      as [[[[ok body] err]|e] w1]; cbn [snd] in Hn; [|exists n; exact Hn].
    destruct ok; [exists n; exact Hn|].
    destruct (Step12._is_job_in_progress err); [|exists n; exact Hn].
    unfold bind at 1, time.
    destruct (Qle_bool budget (w_clock w1 - start)); [exists n; exact Hn|].
    unfold bind at 1, sleep.
    destruct (Qle_bool 0 sleep_s); [|exists n; exact Hn].
    destruct (IH (Qmin cap (sleep_s * factor)) (slept w1 sleep_s)) as [m Hm].
    exists (n + m)%nat. rewrite Hm. cbn [slept w_posts]. rewrite Hn.
    now rewrite <- app_assoc, repeat_app.
Qed.

End Lock.

Lemma lock_text_truthy (l : Response) : lock_reply l -> truthy (Some (text l)) = true.
Proof.
  intros [_ H]. unfold truthy. destruct (text l); [discriminate H | reflexivity].
Qed.



End LockFacts.

(** ** What a computation calls, and whether it returns *)

Module EffectFacts.
Section EffectFacts.
Context {E : Env}.

Lemma calls_ret {A : Type} (P : Request -> Prop) (a : A) :
  calls_satisfy P (ret (E := E) a).
Proof. intros w. exists []. cbn. now rewrite app_nil_r. Qed.

Lemma calls_raise {A : Type} (P : Request -> Prop) (e : Exn) :
  calls_satisfy P (raise (E := E) (A := A) e).
Proof. intros w. exists []. cbn. now rewrite app_nil_r. Qed.

Lemma calls_bind {A B : Type} (P : Request -> Prop) (m : M E A) (k : A -> M E B) :
  calls_satisfy P m -> (forall a, calls_satisfy P (k a)) ->
  calls_satisfy P (bind m k).
Proof.
  intros Hm Hk w. unfold bind.
  destruct (Hm w) as (c1 & H1 & Q1).
  destruct (m w) as [[a|e] w1]; cbn [snd] in H1.
  - destruct (Hk a w1) as (c2 & H2 & Q2).
    exists (c1 ++ c2). split.
    + rewrite H2, H1. now rewrite app_assoc.
    + apply Forall_app. now split.
  - exists c1. now split.
Qed.

Lemma calls_sleep (P : Request -> Prop) (d : Q) :
  calls_satisfy P (sleep (E := E) d).
Proof.
  intros w. exists []. unfold sleep.
  destruct (Qle_bool 0 d); cbn; now rewrite app_nil_r.
Qed.

Lemma calls_time (P : Request -> Prop) : calls_satisfy P (time (E := E)).
Proof. intros w. exists []. cbn. now rewrite app_nil_r. Qed.

Lemma calls_write_file (P : Request -> Prop) (name : string) (ids : list Z) :
  calls_satisfy P (write_file (E := E) name ids).
Proof. intros w. exists []. cbn. now rewrite app_nil_r. Qed.

Lemma calls_db_mark_done (P : Request -> Prop) (o : string) :
  calls_satisfy P (db_mark_done (E := E) o).
Proof.
  intros w. exists []. unfold db_mark_done.
  destruct (db_update_ok E o); cbn; now rewrite app_nil_r.
Qed.

Lemma calls_try_except {A : Type} (P : Request -> Prop) (m : M E A)
      (h : Exn -> M E A) :
  calls_satisfy P m -> (forall e, calls_satisfy P (h e)) ->
  calls_satisfy P (try_except m h).
Proof.
  intros Hm Hh w. unfold try_except.
  destruct (Hm w) as (c1 & H1 & Q1).
  destruct (m w) as [[a|e] w1]; cbn [snd] in H1.
  - exists c1. now split.
  - destruct (Hh e w1) as (c2 & H2 & Q2).
    exists (c1 ++ c2). split.
    + rewrite H2, H1. now rewrite app_assoc.
    + apply Forall_app. now split.
Qed.

Lemma calls_post (P : Request -> Prop) (req : Request) :
  P req -> calls_satisfy P (requests_post (E := E) req).
Proof.
  intros HQ w. exists [req]. unfold requests_post.
  destruct (remote_post E (w_remote w) req) as [[o d] s]. cbn.
  split; [reflexivity | now constructor].
Qed.

Lemma calls_weaken {A : Type} (P P' : Request -> Prop) (m : M E A) :
  (forall r, P r -> P' r) -> calls_satisfy P m -> calls_satisfy P' m.
Proof.
  intros HQ Hm w. destruct (Hm w) as (c & H & Hc).
  exists c. split; [exact H|]. eapply Forall_impl; eassumption.
Qed.

Lemma returns_ret {A : Type} (a : A) : returns (ret (E := E) a).
Proof. intros w. now exists a, w. Qed.

Lemma returns_bind {A B : Type} (m : M E A) (k : A -> M E B) :
  returns m -> (forall a, returns (k a)) -> returns (bind m k).
Proof.
  intros Hm Hk w. unfold bind.
  destruct (Hm w) as (a & w1 & H1). rewrite H1. apply Hk.
Qed.

Lemma returns_sleep (d : Q) : 0 <= d -> returns (sleep (E := E) d).
Proof.
  intros H w. unfold sleep. apply Qle_bool_iff in H. rewrite H. eauto.
Qed.

Lemma returns_try_except {A : Type} (m : M E A) (h : Exn -> M E A) :
  (forall e, returns (h e)) -> returns (try_except m h).
Proof.
  intros Hh w. unfold try_except.
  destruct (m w) as [[a|e] w1]; [eauto | apply Hh].
Qed.

End EffectFacts.
End EffectFacts.

(** ** Step 09 as a whole: what it sends, and that it returns *)

Module Step09Whole.
Import EffectFacts HalvingFacts.
Local Open Scope list_scope.

Section Step09Whole.
Context (E : Env).

Lemma calls_post_attempts (P : Request -> Prop) (req : Request) :
  P req ->
  forall (attempts : list Z) (backoff : Q) (last : option Response),
    calls_satisfy P (Step09.post_attempts E attempts req backoff last).
Proof.
  intros HP. induction attempts as [|a rest IH]; intros backoff last.
  - cbn [Step09.post_attempts]. destruct last; [apply calls_ret | apply calls_raise].
  - cbn [Step09.post_attempts]. apply calls_bind; [now apply calls_post|].
    intros [|r].
    + destruct (a =? Step09.MAX_RETRIES)%Z; [apply calls_raise|].
      apply calls_bind; [apply calls_sleep | intros _; apply IH].
    + destruct (is_2xx (status_code r)); [apply calls_ret|].
      destruct (Step09.is_retried_status (status_code r) && (a <? Step09.MAX_RETRIES)%Z);
        [|apply calls_ret].
      apply calls_bind; [apply calls_sleep | intros _; apply IH].
Qed.

Lemma calls_post09 (P : Request -> Prop) (req : Request) :
  P req -> calls_satisfy P (Step09._post_with_retries E req).
Proof. intros HP. now apply calls_post_attempts. Qed.

Lemma incl_firstn (n : nat) (l : list Z) : incl (firstn n l) l.
Proof.
  intros x Hx. rewrite <- (firstn_skipn n l). apply in_or_app. now left.
Qed.

Lemma incl_skipn (n : nat) (l : list Z) : incl (skipn n l) l.
Proof.
  intros x Hx. rewrite <- (firstn_skipn n l). apply in_or_app. now right.
Qed.

Lemma incl_strip (b e : list Z) : incl (Step09.strip_existing b e) b.
Proof. apply incl_filter. Qed.

Lemma within_incl (plan : string) (b b' : list Z) (r : Request) :
  incl b' b -> within plan b' r -> within plan b r.
Proof.
  intros Hi [Ho Hr]. split; [exact Ho|]. eapply incl_tran; eassumption.
Qed.

Lemma calls_bisect_with (plan : string) (batch b : list Z)
      (recur : list Z -> M E (bool * list Z)) :
  incl b batch ->
  (forall b', calls_satisfy (within plan b') (recur b')) ->
  calls_satisfy (within plan batch) (Step09.bisect_with E recur b).
Proof.
  intros Hb Hrec.
  assert (Hhalf : forall b', incl b' b ->
             calls_satisfy (within plan batch) (recur b')).
  { intros b' Hb'. eapply calls_weaken; [|apply Hrec].
    intros r. apply within_incl. eapply incl_tran; eassumption. }
  unfold Step09.bisect_with.
  destruct b as [|x [|y l]].
  - apply calls_bind; [apply Hhalf, incl_firstn|]. intros [okl skl].
    apply calls_bind; [apply Hhalf, incl_skipn|]. intros [okr skr].
    apply calls_ret.
  - apply calls_ret.
  - apply calls_bind; [apply Hhalf, incl_firstn|]. intros [okl skl].
    apply calls_bind; [apply Hhalf, incl_skipn|]. intros [okr skr].
    apply calls_ret.
Qed.

(** Whatever the remote answers, [_add_chunk_or_bisect] only calls the plan
    it was given, and only with members of its batch. *)
Lemma calls_add_chunk_rec (plan : string) (fuel : nat) :
  forall batch : list Z,
    calls_satisfy (within plan batch) (Step09.add_chunk_rec E fuel plan batch).
Proof.
  induction fuel as [|fuel IH]; intros batch.
  - apply calls_raise.
  - destruct batch as [|x l]; [apply calls_ret|].
    set (batch := x :: l).
    assert (Hsend : forall b, incl b batch ->
               calls_satisfy (within plan batch)
                 (Step09._post_with_retries E (mkRequest plan b None))).
    { intros b Hb. apply calls_post09. split; [reflexivity | exact Hb]. }
    assert (Hbis : forall b, incl b batch ->
               calls_satisfy (within plan batch)
                 (Step09.bisect_with E (Step09.add_chunk_rec E fuel plan) b)).
    { intros b Hb. now apply calls_bisect_with. }
    cbn [Step09.add_chunk_rec]. fold batch.
    apply calls_bind; [apply Hsend, incl_refl|]. intros resp.
    destruct (is_2xx (status_code resp)); [apply calls_ret|].
    destruct (status_code resp =? 422)%Z; [|apply calls_ret].
    destruct (Step09.existing_of resp) as [|e es] eqn:He; [apply Hbis, incl_refl|].
    rewrite <- He.
    pose proof (incl_strip batch (Step09.existing_of resp)) as Hrem.
    destruct (Step09.strip_existing batch (Step09.existing_of resp))
      as [|m ms] eqn:Hr; [apply calls_ret|].
    rewrite <- Hr in *.
    apply calls_bind; [apply Hsend, Hrem|]. intros resp2.
    destruct (is_2xx (status_code resp2)); [apply calls_ret|].
    destruct (negb (status_code resp2 =? 422)%Z); [apply calls_ret|].
    destruct (Step09.existing_of resp2) as [|e2 es2] eqn:He2; [apply Hbis, Hrem|].
    rewrite <- He2.
    assert (Hrem2 : incl (Step09.strip_existing
                            (Step09.strip_existing batch (Step09.existing_of resp))
                            (Step09.existing_of resp2)) batch).
    { eapply incl_tran; [apply incl_strip | exact Hrem]. }
    destruct (Step09.strip_existing
                (Step09.strip_existing batch (Step09.existing_of resp))
                (Step09.existing_of resp2)) as [|m2 ms2] eqn:Hr2; [apply calls_ret|].
    rewrite <- Hr2 in *.
    apply calls_bind; [apply Hsend, Hrem2|]. intros resp3.
    destruct (is_2xx (status_code resp3)); [apply calls_ret|].
    apply Hbis, Hrem2.
Qed.

Lemma chunked_from_incl {A : Type} (size fuel : nat) :
  forall l : list A, Forall (fun c => incl c l) (chunked_from fuel size l).
Proof.
  induction fuel as [|fuel IH]; intros l; cbn [chunked_from]; [constructor|].
  destruct l as [|x l']; [constructor|].
  set (l := x :: l'). constructor.
  - intros y Hy. rewrite <- (firstn_skipn size l). apply in_or_app. now left.
  - eapply Forall_impl; [|apply IH].
    intros c Hc y Hy. rewrite <- (firstn_skipn size l).
    apply in_or_app. right. now apply Hc.
Qed.

Lemma chunked_incl {A : Type} (l : list A) (size : nat) :
  Forall (fun c => incl c l) (chunked l size).
Proof. apply chunked_from_incl. Qed.

Lemma calls_chunks_loop (plan : string) (ids : list Z) (chunks : list (list Z)) :
  Forall (fun c => incl c ids) chunks ->
  forall known skipped : list Z,
    calls_satisfy (within plan ids)
      (Step09.chunks_loop E chunks plan known skipped).
Proof.
  induction 1 as [|c chunks Hc _ IH]; intros known skipped.
  - apply calls_ret.
  - cbn [Step09.chunks_loop].
    assert (Hb : incl (filter (fun v => negb (Step09.memZ v known)) c) ids).
    { eapply incl_tran; [apply incl_filter | exact Hc]. }
    destruct (filter (fun v => negb (Step09.memZ v known)) c) as [|b bs] eqn:Hf;
      [apply IH|].
    apply calls_bind.
    + eapply calls_weaken; [|apply calls_add_chunk_rec].
      intros r. now apply within_incl.
    + intros [ok sk]. destruct ok; [apply IH | apply calls_ret].
Qed.

(** Step 09 never sends an id that is not in the list it was given, nor
    to another plan, whatever the remote answers. *)
Theorem step09_sends_only_what_it_was_given (plan : string) (variant_ids : list Z) :
  calls_satisfy (within plan variant_ids)
    (Step09.stoq_add_variants E plan variant_ids).
Proof.
  unfold Step09.stoq_add_variants.
  destruct variant_ids as [|x l]; [apply calls_ret|].
  apply calls_chunks_loop, chunked_incl.
Qed.

(** *** Returning *)

Hypothesis Hreplies : always_replies E.

Lemma post_attempts_returns (req : Request) :
  forall (attempts : list Z) (backoff : Q) (last : option Response),
    attempts <> [] \/ last <> None ->
    0 <= backoff ->
    returns (Step09.post_attempts E attempts req backoff last).
Proof.
  induction attempts as [|a rest IH]; intros backoff last Hne Hb w.
  - cbn [Step09.post_attempts]. destruct last as [r|]; [|destruct Hne; congruence].
    eexists _, _; reflexivity.
  - cbn [Step09.post_attempts]. unfold bind at 1, requests_post.
    destruct (Hreplies (w_remote w) req) as (r & d & s & Hpost). rewrite Hpost.
    destruct (is_2xx (status_code r)); [eexists _, _; reflexivity|].
    destruct (Step09.is_retried_status (status_code r) && (a <? Step09.MAX_RETRIES)%Z);
      [|eexists _, _; reflexivity].
    apply returns_bind; [now apply returns_sleep|]. intros _.
    apply IH; [right; discriminate | lra].
Qed.

Lemma post09_returns (req : Request) : returns (Step09._post_with_retries E req).
Proof.
  apply post_attempts_returns; [left; discriminate|].
  unfold Step09.INITIAL_BACKOFF. lra.
Qed.

Lemma bisect_with_returns (recur : list Z -> M E (bool * list Z)) (b : list Z) :
  (forall b', (List.length b' <= Nat.pred (List.length b))%nat -> returns (recur b')) ->
  returns (Step09.bisect_with E recur b).
Proof.
  intros Hrec. unfold Step09.bisect_with.
  destruct b as [|x [|y l]].
  - apply returns_bind; [apply Hrec; cbn; lia|]. intros [okl skl].
    apply returns_bind; [apply Hrec; cbn; lia|]. intros [okr skr]. apply returns_ret.
  - apply returns_ret.
  - set (b := x :: y :: l) in *.
    assert (H2 : (2 <= List.length b)%nat) by (cbn; lia).
    destruct (half_lt _ H2) as [Ha Hb].
    apply returns_bind.
    { apply Hrec. rewrite length_firstn. lia. }
    intros [okl skl]. apply returns_bind.
    { apply Hrec. rewrite length_skipn. lia. }
    intros [okr skr]. apply returns_ret.
Qed.

Lemma add_chunk_rec_returns (plan : string) (fuel : nat) :
  forall batch : list Z,
    (List.length batch < fuel)%nat ->
    returns (Step09.add_chunk_rec E fuel plan batch).
Proof.
  induction fuel as [|fuel IH]; intros batch Hlen; [lia|].
  destruct batch as [|x l]; [apply returns_ret|].
  set (batch := x :: l) in *.
  assert (Hpos : (1 <= List.length batch)%nat) by (cbn; lia).
  assert (Hbis : forall b, (List.length b <= List.length batch)%nat ->
             returns (Step09.bisect_with E (Step09.add_chunk_rec E fuel plan) b)).
  { intros b Hb. apply bisect_with_returns. intros b' Hb'. apply IH. lia. }
  assert (Hstrip : forall b e,
             (List.length (Step09.strip_existing b e) <= List.length b)%nat).
  { intros b e. apply filter_length_le. }
  cbn [Step09.add_chunk_rec]. fold batch.
  apply returns_bind; [apply post09_returns|]. intros resp.
  destruct (is_2xx (status_code resp)); [apply returns_ret|].
  destruct (status_code resp =? 422)%Z; [|apply returns_ret].
  destruct (Step09.existing_of resp) as [|e es] eqn:He; [now apply Hbis|].
  rewrite <- He.
  pose proof (Hstrip batch (Step09.existing_of resp)) as Hrem.
  destruct (Step09.strip_existing batch (Step09.existing_of resp))
    as [|m ms] eqn:Hr; [apply returns_ret|].
  rewrite <- Hr in *.
  apply returns_bind; [apply post09_returns|]. intros resp2.
  destruct (is_2xx (status_code resp2)); [apply returns_ret|].
  destruct (negb (status_code resp2 =? 422)%Z); [apply returns_ret|].
  destruct (Step09.existing_of resp2) as [|e2 es2] eqn:He2; [now apply Hbis|].
  rewrite <- He2.
  pose proof (Hstrip (Step09.strip_existing batch (Step09.existing_of resp))
                (Step09.existing_of resp2)) as Hrem2.
  destruct (Step09.strip_existing
              (Step09.strip_existing batch (Step09.existing_of resp))
              (Step09.existing_of resp2)) as [|m2 ms2] eqn:Hr2; [apply returns_ret|].
  rewrite <- Hr2 in *.
  apply returns_bind; [apply post09_returns|]. intros resp3.
  destruct (is_2xx (status_code resp3)); [apply returns_ret|].
  apply Hbis. lia.
Qed.

Lemma chunks_loop_returns (plan : string) (chunks : list (list Z)) :
  forall known skipped : list Z,
    returns (Step09.chunks_loop E chunks plan known skipped).
Proof.
  induction chunks as [|c chunks IH]; intros known skipped.
  - apply returns_ret.
  - cbn [Step09.chunks_loop].
    destruct (filter (fun v => negb (Step09.memZ v known)) c) as [|b bs];
      [apply IH|].
    apply returns_bind.
    + apply add_chunk_rec_returns. lia.
    + intros [ok sk]. destruct ok; [apply IH | apply returns_ret].
Qed.

Lemma stoq_add_variants_returns (plan : string) (variant_ids : list Z) :
  returns (Step09.stoq_add_variants E plan variant_ids).
Proof.
  unfold Step09.stoq_add_variants.
  destruct variant_ids; [apply returns_ret | apply chunks_loop_returns].
Qed.

(** The offers of the run that have a plan id. *)
Lemma main_loop_visits_all (offers : list OfferRow) :
  forall (succeeded : nat) (failures : list Step09.Failure) (w : World E),
    exists (succeeded' : nat) (failures' : list Step09.Failure) (w' : World E),
      Step09.main_loop E offers succeeded failures w
      = (Ok (succeeded', failures'), w') /\
      (succeeded' + List.length failures'
       = succeeded + List.length failures
         + List.length (filter (fun o => truthy (row_stoq_offer_id o)) offers))%nat /\
      (forall f, In f failures' ->
         In f failures \/
         exists o, In o offers /\ row_id o = Step09.f_offer_id f /\
                   row_stoq_offer_id o = Some (Step09.f_plan_id f)).
Proof.
  induction offers as [|o offers IH]; intros succeeded failures w.
  - exists succeeded, failures, w. cbn. split; [reflexivity|].
    split; [lia | intros f Hf; now left].
  - cbn [Step09.main_loop filter].
    destruct (row_stoq_offer_id o) as [p|] eqn:Hp; cbn [truthy];
      [destruct (negb (String.eqb p "")) eqn:Hne|].
    + unfold bind at 1, Step09.fetch_variant_ids_for_offer. unfold ret at 1.
      set (ids := sortedZ (nodup Z.eq_dec
                     (Step09.coerce_rows (db_variant_ids E (row_id o))))).
      destruct (stoq_add_variants_returns p ids w) as ([ok info] & w1 & Hadd).
      unfold bind at 1. rewrite Hadd.
      destruct ok.
      * unfold bind at 1.
        destruct (returns_try_except (Step09.mark_offer_done E (row_id o))
                    (fun _ => ret tt) (fun _ => returns_ret tt) w1)
          as ([] & w2 & Hmark).
        rewrite Hmark.
        destruct (IH (S succeeded) failures w2)
          as (s' & f' & w' & Hrun & Hcount & Hin).
        exists s', f', w'. rewrite Hrun. split; [reflexivity|].
        split; [cbn [List.length]; lia|].
        intros f Hf. destruct (Hin f Hf) as [H|(o' & Ho' & H)];
          [now left | right; exists o'; split; [now right | exact H]].
      * destruct (IH succeeded
                    (failures ++ [Step09.mkFailure (row_id o) p info]) w1)
          as (s' & f' & w' & Hrun & Hcount & Hin).
        exists s', f', w'. rewrite Hrun. split; [reflexivity|].
        split; [rewrite length_app in Hcount; cbn [List.length] in *; lia|].
        intros f Hf. destruct (Hin f Hf) as [H|(o' & Ho' & H)].
        -- apply in_app_or in H. destruct H as [H|[<-|[]]]; [now left|].
           right. exists o. split; [now left|]. cbn. now split.
        -- right. exists o'. split; [now right | exact H].
    + destruct (IH succeeded failures w) as (s' & f' & w' & Hrun & Hcount & Hin).
      exists s', f', w'. rewrite Hrun. split; [reflexivity|].
      split; [lia|].
      intros f Hf. destruct (Hin f Hf) as [H|(o' & Ho' & H)];
        [now left | right; exists o'; split; [now right | exact H]].
    + destruct (IH succeeded failures w) as (s' & f' & w' & Hrun & Hcount & Hin).
      exists s', f', w'. rewrite Hrun. split; [reflexivity|].
      split; [lia|].
      intros f Hf. destruct (Hin f Hf) as [H|(o' & Ho' & H)];
        [now left | right; exists o'; split; [now right | exact H]].
Qed.

End Step09Whole.
End Step09Whole.

(** ** Runs over several offers: claims C8 and C9 *)

Module RunFacts.
Import Scenario Step09Whole.
Local Open Scope string_scope.
Local Open Scope list_scope.




(** C9, as stated, fails: a value that [int()] rejects is left out of the
    calls, but nothing in the result counts or lists it. Step 09 gives the
    same result with and without the value ["abc"]; in Step 12 the summary
    of the add call counts one requested member, and the value shows only
    in the notice that [_coerce_ids_to_int] prints. *)
Lemma C9_malformed_value_is_not_in_the_result :
  fst (Step09.main insert_with_text (start insert_with_text tt)) = Ok (1%nat, []) /\
  fst (Step09.main insert_without_text (start insert_without_text tt)) = Ok (1%nat, []) /\
  fst (Step09.stoq_add_variants insert_with_text "offer-1" [5%Z]
         (start insert_with_text tt))
  = Ok (true, Step09.AllProcessed []) /\
  w_posts (snd (Step09.main insert_with_text (start insert_with_text tt)))
  = [mkRequest "offer-1" [5%Z] None] /\
  fst (Step12.main update_with_text (start update_with_text tt))
  = Ok [Step12.mkOutcome "offer-1" [] [5%Z] [(1%nat, ["abc"], false)]
          (Some (true,
                 Step12.mkSummary "offer-1" 1 1 0 [5%Z] [] None,
                 None))].
Proof. repeat split; vm_compute; reflexivity. Qed.

Lemma coerce_rows_In (rows : list PyVal) (n : Z) :
  In n (Step09.coerce_rows rows) <-> exists v, In v rows /\ py_int v = Some n.
Proof.
  induction rows as [|v rows IH]; cbn [Step09.coerce_rows].
  - split; [intros [] | intros (v & [] & _)].
  - assert (Hskip : py_int v = None ->
              (In n (Step09.coerce_rows rows) <->
               exists v0, In v0 (v :: rows) /\ py_int v0 = Some n)).
    { intros Hnone. rewrite IH. split.
      - intros (v0 & Hin & Hv0). exists v0. split; [now right | exact Hv0].
      - intros (v0 & [<-|Hin] & Hv0); [congruence | eauto]. }
    assert (Hkeep : forall m, py_int v = Some m ->
              (In n (m :: Step09.coerce_rows rows) <->
               exists v0, In v0 (v :: rows) /\ py_int v0 = Some n)).
    { intros m Hm. cbn [In]. rewrite IH. split.
      - intros [<-|(v0 & Hin & Hv0)]; [exists v; split; [now left | exact Hm]|].
        exists v0. split; [now right | exact Hv0].
      - intros (v0 & [<-|Hin] & Hv0); [left; congruence | right; eauto]. }
    destruct v as [|z|s].
    + now apply Hskip.
    + now apply (Hkeep z).
    + destruct (py_int (PStr s)) as [m|] eqn:Hs; [now apply (Hkeep m) | now apply Hskip].
Qed.

Lemma coerce_rows_app (rows1 rows2 : list PyVal) :
  Step09.coerce_rows (rows1 ++ rows2)
  = Step09.coerce_rows rows1 ++ Step09.coerce_rows rows2.
Proof.
  induction rows1 as [|v rows1 IH]; [reflexivity|].
  cbn [app Step09.coerce_rows].
  destruct v as [|z|s]; [exact IH | cbn; now rewrite IH |].
  destruct (py_int (PStr s)); [cbn; now rewrite IH | exact IH].
Qed.

Lemma coerce_split_spec (ids : list string) :
  fst (Step12.coerce_split ids)
  = flat_map (fun s => match int_of_str s with Some n => [n] | None => [] end) ids /\
  snd (Step12.coerce_split ids)
  = filter (fun s => match int_of_str s with Some _ => false | None => true end) ids.
Proof.
  induction ids as [|s ids [IH1 IH2]]; [split; reflexivity|].
  cbn [Step12.coerce_split flat_map filter].
  destruct (Step12.coerce_split ids) as [ok bad]. cbn [fst snd] in IH1, IH2.
  destruct (int_of_str s); cbn [fst snd app]; subst; split; reflexivity.
Qed.

(** C9, amended: a desired value that [int()] rejects never reaches a
    call. Step 09 passes it over in silence: the ids it works with are
    exactly the integers of the accepted values, the result is the same as
    if the value were not there, and every call carries only those ids.
    Steps 11 and 12 pass on exactly the integers of the accepted texts;
    the rejected ones are only reported in a printed notice (how many, and
    the first ten), not in any result. *)
Theorem C9_malformed_values_never_reach_a_call :
  (forall (rows : list PyVal) (n : Z),
      In n (Step09.coerce_rows rows) <->
      exists v, In v rows /\ py_int v = Some n) /\
  (forall (rows1 rows2 : list PyVal) (v : PyVal),
      py_int v = None ->
      Step09.coerce_rows (rows1 ++ v :: rows2) = Step09.coerce_rows (rows1 ++ rows2)) /\
  (forall (E : Env) (plan : string) (variant_ids : list Z),
      calls_satisfy (within plan variant_ids)
        (Step09.stoq_add_variants E plan variant_ids)) /\
  (forall (ids : list string),
      let bad := filter (fun s => match int_of_str s with
                                  | Some _ => false
                                  | None => true
                                  end) ids in
      (forall n, In n (fst (Step12._coerce_ids_to_int ids)) <->
                 exists s, In s ids /\ int_of_str s = Some n) /\
      snd (Step12._coerce_ids_to_int ids)
      = match bad with
        | [] => None
        | _ => Some (List.length bad, firstn 10 bad, (10 <? List.length bad)%nat)
        end).
Proof.
  split; [exact coerce_rows_In|]. split; [|split].
  - intros rows1 rows2 v Hv. rewrite !coerce_rows_app.
    cbn [Step09.coerce_rows]. rewrite Hv. now destruct v.
  - intros E plan variant_ids. apply step09_sends_only_what_it_was_given.
  - intros ids bad. destruct (coerce_split_spec ids) as [Hok Hbad].
    unfold Step12._coerce_ids_to_int.
    destruct (Step12.coerce_split ids) as [ok bad']. cbn [fst snd] in *.
    subst ok bad'. fold bad. split; [|reflexivity].
    intros n. rewrite in_flat_map. split.
    + intros (s & Hs & Hn). exists s. split; [exact Hs|].
      destruct (int_of_str s) as [m|]; [|contradiction].
      destruct Hn as [<-|[]]. reflexivity.
    + intros (s & Hs & Hn). exists s. split; [exact Hs|]. rewrite Hn. now left.
Qed.

Lemma C9_malformed_values_witness :
  Step09.coerce_rows ([PInt 1] ++ PStr "abc" :: [PInt 2])
  = Step09.coerce_rows ([PInt 1] ++ [PInt 2]).
Proof.
  apply (proj1 (proj2 C9_malformed_values_never_reach_a_call)
           [PInt 1] [PInt 2] (PStr "abc")).
  reflexivity.
Defined.

End RunFacts.

(** ** Further facts: chunking and the plan of the differencer *)

Module ChunkFacts.
Local Open Scope list_scope.

Lemma chunked_from_concat {A : Type} (size fuel : nat) :
  forall l : list A,
    (0 < size)%nat -> (List.length l <= fuel)%nat ->
    List.concat (chunked_from fuel size l) = l.
Proof.
  induction fuel as [|fuel IH]; intros l Hs Hl.
  - destruct l; [reflexivity | cbn in Hl; lia].
  - destruct l as [|x l']; [reflexivity|].
    cbn [chunked_from List.concat]. set (l := x :: l') in *.
    rewrite IH; [apply firstn_skipn | exact Hs |].
    rewrite length_skipn. subst l. cbn [List.length] in *. lia.
Qed.

Lemma chunked_from_sizes {A : Type} (size fuel : nat) :
  forall l : list A,
    (0 < size)%nat ->
    Forall (fun c => (1 <= List.length c <= size)%nat) (chunked_from fuel size l).
Proof.
  induction fuel as [|fuel IH]; intros l Hs; cbn [chunked_from]; [constructor|].
  destruct l as [|x l']; [constructor|].
  constructor; [|now apply IH].
  rewrite length_firstn. cbn [List.length]. lia.
Qed.

Lemma chunked_from_count {A : Type} (size fuel : nat) :
  forall l : list A,
    (0 < size)%nat -> (List.length l <= fuel)%nat ->
    List.length (chunked_from fuel size l) = ((List.length l + size - 1) / size)%nat.
Proof.
  induction fuel as [|fuel IH]; intros l Hs Hl.
  - destruct l; [|cbn in Hl; lia]. cbn [chunked_from List.length].
    symmetry. apply Nat.div_small. lia.
  - destruct l as [|x l'].
    + cbn [chunked_from List.length]. symmetry. apply Nat.div_small. lia.
    + cbn [chunked_from]. set (l := x :: l') in *. cbn [List.length].
      assert (Hlen : List.length l = S (List.length l')) by reflexivity.
      rewrite IH; [|exact Hs|rewrite length_skipn; lia].
      rewrite length_skipn.
      destruct (Nat.le_gt_cases (List.length l) size) as [Hle|Hgt].
      * replace (List.length l - size)%nat with 0%nat by lia.
        rewrite (Nat.div_small (0 + size - 1) size) by lia.
        apply Nat.div_unique with (r := (List.length l - 1)%nat); lia.
      * replace (List.length l + size - 1)%nat
          with ((List.length l - size + size - 1) + 1 * size)%nat by lia.
        rewrite Nat.div_add by lia. lia.
Qed.

(** X1. Chunking (the [for i in range(0, total, chunk_size)] slices of
    [call_stoq_add_variants], and [chunked] of Steps 09 and 11) loses and
    repeats nothing: the chunks, put end to end, are the list; each holds
    between one and [size] members; there are [ceil(len / size)] of them. *)
Theorem X_chunked_cuts_the_list_into_full_chunks :
  forall (A : Type) (l : list A) (size : nat),
    (0 < size)%nat ->
    List.concat (chunked l size) = l /\
    Forall (fun c => (1 <= List.length c <= size)%nat) (chunked l size) /\
    List.length (chunked l size) = ((List.length l + size - 1) / size)%nat.
Proof.
  intros A l size Hs. unfold chunked. split; [|split].
  - now apply chunked_from_concat.
  - now apply chunked_from_sizes.
  - now apply chunked_from_count.
Qed.

Lemma X_chunked_witness :
  List.concat (chunked [1; 2; 3; 4; 5]%Z 2) = [1; 2; 3; 4; 5]%Z /\
  Forall (fun c => (1 <= List.length c <= 2)%nat) (chunked [1; 2; 3; 4; 5]%Z 2) /\
  List.length (chunked [1; 2; 3; 4; 5]%Z 2) = ((5 + 2 - 1) / 2)%nat.
Proof.
  apply (X_chunked_cuts_the_list_into_full_chunks Z [1; 2; 3; 4; 5]%Z 2). lia.
Defined.

End ChunkFacts.

Module PlanFacts.
Import PyFacts DifferencerFacts Differencer.
Local Open Scope string_scope.
Local Open Scope list_scope.

Lemma In_dec_str (x : string) (l : list string) : In x l \/ ~ In x l.
Proof. destruct (in_dec string_dec x l); [now left | now right]. Qed.

Lemma Sorted_nil_of_no_member (l : list string) :
  (forall x, ~ In x l) -> l = [].
Proof.
  destruct l as [|x l]; [reflexivity|]. intros H. exfalso. apply (H x). now left.
Qed.

(** X2. The plan of the differencer (lines 425-429 of [main], Steps 11 and 12)
    is a difference of sets of texts: no member is both added and removed;
    the remote members that are kept, with those added, are exactly the
    desired members; and when the two sides hold the same members there is
    nothing to add and nothing to remove. *)
Theorem X_plan_turns_remote_into_desired :
  forall desired remote : list PyVal,
    let db := map py_str desired in
    let api := map py_str remote in
    let to_add := fst (plan desired remote) in
    let to_remove := snd (plan desired remote) in
    (forall x, ~ (In x to_add /\ In x to_remove)) /\
    (forall x, In x db <-> (In x api /\ ~ In x to_remove) \/ In x to_add) /\
    ((forall x, In x db <-> In x api) -> to_add = [] /\ to_remove = []).
Proof.
  intros desired remote db api to_add to_remove.
  assert (Ha : forall x, In x to_add <-> In x db /\ ~ In x api).
  { intros x. apply to_add_In. }
  assert (Hr : forall x, In x to_remove <-> In x api /\ ~ In x db).
  { intros x. apply to_remove_In. }
  split; [|split].
  - intros x [H1 H2]. apply Ha in H1. apply Hr in H2. tauto.
  - intros x. rewrite Ha, Hr.
    destruct (In_dec_str x api), (In_dec_str x db); tauto.
  - intros Heq. split; apply Sorted_nil_of_no_member; intros x Hx.
    + apply Ha in Hx. destruct Hx as [H1 H2]. apply H2, Heq, H1.
    + apply Hr in Hx. destruct Hx as [H1 H2]. apply H2, Heq, H1.
Qed.

Lemma X_plan_witness :
  fst (plan [PInt 7; PStr "8"] [PStr "7"; PInt 8]) = [] /\
  snd (plan [PInt 7; PStr "8"] [PStr "7"; PInt 8]) = [].
Proof.
  apply (X_plan_turns_remote_into_desired [PInt 7; PStr "8"] [PStr "7"; PInt 8]).
  intros x. cbn. tauto.
Defined.

End PlanFacts.

(** ** Steps 11 and 12 as a whole: what they send and what they book *)

Module AddWhole.
Import EffectFacts HalvingFacts Step09Whole.
Local Open Scope string_scope.
Local Open Scope list_scope.

Section AddWhole.
Context (E : Env).
Context (offer : string) (pmc : option Z) (mr : Z) (base : Q).

Lemma calls_post_loop (P : Request -> Prop) (req : Request) :
  P req ->
  forall (fuel : nat) (attempt : Z),
    calls_satisfy P (Step12.post_loop E fuel req mr base attempt).
Proof.
  intros HP. induction fuel as [|fuel IH]; intros attempt.
  - apply calls_raise.
  - cbn [Step12.post_loop]. apply calls_bind; [now apply calls_post|].
    intros [|r].
    + destruct (attempt + 1 >? mr)%Z; [apply calls_raise|].
      apply calls_bind; [apply calls_sleep | intros _; apply IH].
    + destruct (Step12.is_transient (status_code r)); [|apply calls_ret].
      destruct (attempt + 1 >? mr)%Z; [apply calls_ret|].
      apply calls_bind; [apply calls_sleep | intros _; apply IH].
Qed.

Lemma calls_try_add_chunk (P : Request -> Prop) (ids : list Z) :
  P (mkRequest offer ids pmc) ->
  calls_satisfy P (Step12._try_add_chunk E offer ids pmc mr base).
Proof.
  intros HP. unfold Step12._try_add_chunk.
  destruct (negb (truthy (STOQ_API_BASE E))); [apply calls_raise|].
  apply calls_bind; [now apply calls_post_loop | intros r; apply calls_ret].
Qed.

Lemma calls_lock_loop (P : Request -> Prop) (ids : list Z)
      (budget factor cap start : Q) :
  P (mkRequest offer ids pmc) ->
  forall (fuel : nat) (sleep_s : Q),
    calls_satisfy P (Step12.lock_wait_loop E fuel offer ids pmc mr base
                       budget factor cap start sleep_s).
Proof.
  intros HP. induction fuel as [|fuel IH]; intros sleep_s.
  - apply calls_raise.
  - cbn [Step12.lock_wait_loop].
    apply calls_bind; [now apply calls_try_add_chunk|].
    intros [[ok body] err]. destruct ok; [apply calls_ret|].
    destruct (Step12._is_job_in_progress err); [|apply calls_ret].
    apply calls_bind; [apply calls_time|]. intros now.
    destruct (Qle_bool budget (now - start)); [apply calls_ret|].
    apply calls_bind; [apply calls_sleep | intros _; apply IH].
Qed.

Lemma calls_add_chunk_locked (P : Request -> Prop) (ids : list Z) :
  P (mkRequest offer ids pmc) ->
  calls_satisfy P (Step12.add_chunk_locked E offer ids pmc mr base).
Proof.
  intros HP. unfold Step12.add_chunk_locked, Step12._try_add_chunk_with_lock_wait.
  apply calls_bind; [apply calls_time|]. intros start.
  now apply calls_lock_loop.
Qed.

Lemma within_request (batch ids : list Z) :
  incl ids batch -> within offer batch (mkRequest offer ids pmc).
Proof. intros H. split; [reflexivity | exact H]. Qed.

Lemma divide12_rec_unfold (fuel : nat) (ids sk ad : list Z) :
  (2 <= List.length ids)%nat ->
  Step12.divide_rec E (S fuel) offer ids pmc mr base sk ad
  = (let mid := (List.length ids / 2)%nat in
     let left := firstn mid ids in
     let right := skipn mid ids in
     bind (Step12.add_chunk_locked E offer left pmc mr base)
       (fun x => match x with
        | (ok, _, _) =>
          bind (if (ok : bool) then ret (sk, ad ++ left)
                else Step12.divide_rec E fuel offer left pmc mr base sk ad)
            (fun y => match y with
             | (sk1, ad1) =>
               bind (Step12.add_chunk_locked E offer left pmc mr base)
                 (fun z => match z with
                  | (ok2, _, _) =>
                    if (ok2 : bool) then ret (sk1, ad1 ++ right)
                    else Step12.divide_rec E fuel offer right pmc mr base sk1 ad1
                  end)
             end)
        end)).
Proof.
  intros H. destruct ids as [|x [|y l]]; cbn [List.length] in H; try lia.
  reflexivity.
Qed.

Lemma divide_rec_short (ids : list Z) :
  (List.length ids < 2)%nat -> ids = [] \/ exists x, ids = [x].
Proof.
  destruct ids as [|x [|y l]]; cbn; intros H; [now left | right; eauto | lia].
Qed.

Lemma calls_divide12 (batch : list Z) (fuel : nat) :
  forall ids sk ad : list Z,
    incl ids batch ->
    calls_satisfy (within offer batch)
      (Step12.divide_rec E fuel offer ids pmc mr base sk ad).
Proof.
  induction fuel as [|fuel IH]; intros ids sk ad Hin; [apply calls_raise|].
  destruct (Nat.le_gt_cases 2 (List.length ids)) as [H2|H2].
  - rewrite divide12_rec_unfold by exact H2. cbv zeta.
    assert (HL : incl (firstn (List.length ids / 2) ids) batch).
    { eapply incl_tran; [apply incl_firstn | exact Hin]. }
    assert (HR : incl (skipn (List.length ids / 2) ids) batch).
    { eapply incl_tran; [apply incl_skipn | exact Hin]. }
    apply calls_bind; [apply calls_add_chunk_locked, within_request, HL|].
    intros [[ok b] e]. apply calls_bind.
    { destruct ok; [apply calls_ret | now apply IH]. }
    intros [sk1 ad1].
    apply calls_bind; [apply calls_add_chunk_locked, within_request, HL|].
    intros [[ok2 b2] e2]. destruct ok2; [apply calls_ret | now apply IH].
  - destruct (divide_rec_short ids H2) as [->|[x ->]]; apply calls_ret.
Qed.

Lemma calls_divide11 (batch : list Z) (fuel : nat) :
  forall ids sk ad : list Z,
    incl ids batch ->
    calls_satisfy (within offer batch)
      (Step11.divide_rec E fuel offer ids pmc mr base sk ad).
Proof.
  induction fuel as [|fuel IH]; intros ids sk ad Hin; [apply calls_raise|].
  destruct (Nat.le_gt_cases 2 (List.length ids)) as [H2|H2].
  - rewrite Bisection11.divide11_rec_unfold by exact H2. cbv zeta.
    assert (HL : incl (firstn (List.length ids / 2) ids) batch).
    { eapply incl_tran; [apply incl_firstn | exact Hin]. }
    assert (HR : incl (skipn (List.length ids / 2) ids) batch).
    { eapply incl_tran; [apply incl_skipn | exact Hin]. }
    apply calls_bind; [apply calls_try_add_chunk, within_request, HL|].
    intros [[ok b] e]. apply calls_bind.
    { destruct ok; [apply calls_ret | now apply IH]. }
    intros [sk1 ad1].
    apply calls_bind; [apply calls_try_add_chunk, within_request, HR|].
    intros [[ok2 b2] e2]. destruct ok2; [apply calls_ret | now apply IH].
  - destruct (divide_rec_short ids H2) as [->|[x ->]]; apply calls_ret.
Qed.

Lemma calls_add_chunks12 (batch : list Z) (chunks : list (list Z)) :
  Forall (fun c => incl c batch) chunks ->
  forall (ad sk : list Z) (fe : option string),
    calls_satisfy (within offer batch)
      (Step12.add_chunks E chunks offer pmc mr base ad sk fe).
Proof.
  induction 1 as [|c chunks Hc _ IH]; intros ad sk fe; [apply calls_ret|].
  cbn [Step12.add_chunks].
  apply calls_bind; [apply calls_add_chunk_locked, within_request, Hc|].
  intros [[ok b] e]. destruct ok; [apply IH|].
  destruct (Step12.looks_like_422 e); [|apply IH].
  apply calls_bind; [now apply calls_divide12|]. intros [sk1 ad1]. apply IH.
Qed.

Lemma calls_add_chunks11 (batch : list Z) (chunks : list (list Z)) :
  Forall (fun c => incl c batch) chunks ->
  forall (ad sk : list Z) (fe : option string),
    calls_satisfy (within offer batch)
      (Step11.add_chunks E chunks offer pmc mr base ad sk fe).
Proof.
  induction 1 as [|c chunks Hc _ IH]; intros ad sk fe; [apply calls_ret|].
  cbn [Step11.add_chunks].
  apply calls_bind; [apply calls_try_add_chunk, within_request, Hc|].
  intros [[ok b] e]. destruct ok; [apply IH|].
  destruct (Step12.looks_like_422 e); [|apply IH].
  apply calls_bind; [now apply calls_divide11|]. intros [sk1 ad1]. apply IH.
Qed.

End AddWhole.

(** X3. Whatever the remote answers (errors, locks and retries included),
    [call_stoq_add_variants] of Steps 11 and 12 only calls the offer it was
    given, and every call carries only ids of [variant_ids]. *)
Theorem X_add_calls_stay_within_the_given_ids :
  forall (E : Env) (offer : string) (variant_ids : list Z) (pmc : option Z)
         (cs : nat) (mr : Z) (base : Q) (wsf : bool) (pre : string),
    calls_satisfy (within offer variant_ids)
      (Step12.call_stoq_add_variants E offer variant_ids pmc cs mr base wsf pre) /\
    calls_satisfy (within offer variant_ids)
      (Step11.call_stoq_add_variants E offer variant_ids pmc cs mr base wsf pre).
Proof.
  intros E offer ids pmc cs mr base wsf pre. split.
  - unfold Step12.call_stoq_add_variants.
    destruct (cs =? 0)%nat; [apply calls_raise|].
    apply calls_bind; [apply calls_add_chunks12, chunked_incl|].
    intros [[ad sk] fe]. apply calls_bind; [|intros f; apply calls_ret].
    destruct wsf, sk; try apply calls_ret.
    apply calls_bind; [apply calls_write_file | intros _; apply calls_ret].
  - unfold Step11.call_stoq_add_variants.
    destruct (cs =? 0)%nat; [apply calls_raise|].
    apply calls_bind; [apply calls_add_chunks11, chunked_incl|].
    intros [[ad sk] fe]. apply calls_bind; [|intros f; apply calls_ret].
    destruct wsf, sk; try apply calls_ret.
    apply calls_bind; [apply calls_write_file | intros _; apply calls_ret].
Qed.

(** X4. The same for Step 09: [stoq_add_variants] never sends an id that is
    not in the list it was given, nor to another plan, whatever the remote
    answers. *)
Theorem X_step09_calls_stay_within_the_given_ids :
  forall (E : Env) (plan : string) (variant_ids : list Z),
    calls_satisfy (within plan variant_ids)
      (Step09.stoq_add_variants E plan variant_ids) /\
    forall batch : list Z,
      calls_satisfy (within plan batch) (Step09._add_chunk_or_bisect E plan batch).
Proof.
  intros E plan ids. split.
  - apply step09_sends_only_what_it_was_given.
  - intros batch. apply calls_add_chunk_rec.
Qed.

End AddWhole.

(** ** The books of the bisection *)

Module BookFacts.
Import HalvingFacts AddWhole.
Local Open Scope string_scope.
Local Open Scope list_scope.

Lemma ensures_ret {E : Env} {A : Type} (R : A -> Prop) (a : A) :
  R a -> ensures R (ret (E := E) a).
Proof. intros H w a' w' Heq. inversion Heq; subst. exact H. Qed.

Lemma ensures_raise {E : Env} {A : Type} (R : A -> Prop) (e : Exn) :
  ensures R (raise (E := E) (A := A) e).
Proof. intros w a w' Heq. discriminate Heq. Qed.

Lemma ensures_bind {E : Env} {A B : Type} (R1 : A -> Prop) (R2 : B -> Prop)
      (m : M E A) (k : A -> M E B) :
  ensures R1 m -> (forall a, R1 a -> ensures R2 (k a)) ->
  ensures R2 (bind m k).
Proof.
  intros Hm Hk w b w' Heq. unfold bind in Heq.
  destruct (m w) as [[a|e] w1] eqn:Hmw; [|discriminate].
  eapply Hk; [eapply Hm; exact Hmw | exact Heq].
Qed.

Lemma ensures_any {E : Env} {A : Type} (m : M E A) : ensures (fun _ => True) m.
Proof. intros w a w' _. exact I. Qed.

Lemma ensures_weaken {E : Env} {A : Type} (R R' : A -> Prop) (m : M E A) :
  (forall a, R a -> R' a) -> ensures R m -> ensures R' m.
Proof. intros H Hm w a w' Heq. apply H. eapply Hm. exact Heq. Qed.

Lemma booked_added (ids sk ad : list Z) : booked_once ids sk ad (sk, ad ++ ids).
Proof.
  exists [], ids. cbn [fst snd]. rewrite app_nil_r. repeat split.
  apply Permutation_refl.
Qed.

Lemma booked_skipped (x : Z) (sk ad : list Z) : booked_once [x] sk ad (sk ++ [x], ad).
Proof.
  exists [x], []. cbn [fst snd]. rewrite app_nil_r. repeat split.
  apply Permutation_refl.
Qed.

Lemma booked_nothing (sk ad : list Z) : booked_once [] sk ad (sk, ad).
Proof.
  exists [], []. cbn [fst snd]. rewrite !app_nil_r. repeat split. constructor.
Qed.

Lemma booked_then (l r sk ad : list Z) (mid out : list Z * list Z) :
  booked_once l sk ad mid ->
  booked_once r (fst mid) (snd mid) out ->
  booked_once (l ++ r) sk ad out.
Proof.
  intros (s1 & a1 & Hs1 & Ha1 & Hp1) (s2 & a2 & Hs2 & Ha2 & Hp2).
  exists (s1 ++ s2), (a1 ++ a2).
  rewrite Hs2, Ha2, Hs1, Ha1, <- !app_assoc. repeat split.
  apply Permutation_trans with ((s1 ++ a1) ++ (s2 ++ a2)).
  - rewrite <- !app_assoc. apply Permutation_app_head.
    rewrite !app_assoc. apply Permutation_app_tail. apply Permutation_app_comm.
  - now apply Permutation_app.
Qed.

Section Books.
Context (E : Env) (offer : string) (pmc : option Z) (mr : Z) (base : Q).

Lemma divide11_books (fuel : nat) :
  forall ids sk ad : list Z,
    ensures (booked_once ids sk ad)
      (Step11.divide_rec E fuel offer ids pmc mr base sk ad).
Proof.
  induction fuel as [|fuel IH]; intros ids sk ad; [apply ensures_raise|].
  destruct (Nat.le_gt_cases 2 (List.length ids)) as [H2|H2].
  - rewrite Bisection11.divide11_rec_unfold by exact H2. cbv zeta.
    set (left := firstn (List.length ids / 2) ids).
    set (right := skipn (List.length ids / 2) ids).
    assert (Hsplit : left ++ right = ids) by apply firstn_skipn.
    eapply ensures_bind; [apply ensures_any|]. intros [[ok b] e] _.
    apply ensures_bind with (R1 := booked_once left sk ad).
    { destruct ok; [apply ensures_ret, booked_added | apply IH]. }
    intros [sk1 ad1] H1.
    eapply ensures_bind; [apply ensures_any|]. intros [[ok2 b2] e2] _.
    rewrite <- Hsplit.
    destruct ok2.
    + apply ensures_ret. eapply booked_then; [exact H1 | apply booked_added].
    + eapply ensures_weaken; [|apply IH].
      intros out Hout. eapply booked_then; [exact H1 | exact Hout].
  - destruct (divide_rec_short ids H2) as [->|[x ->]]; apply ensures_ret;
      [apply booked_nothing | apply booked_skipped].
Qed.

Lemma divide12_books (fuel : nat) :
  forall ids sk ad : list Z,
    ensures (booked_once ids sk ad)
      (Step12.divide_rec E fuel offer ids pmc mr base sk ad).
Proof.
  induction fuel as [|fuel IH]; intros ids sk ad; [apply ensures_raise|].
  destruct (Nat.le_gt_cases 2 (List.length ids)) as [H2|H2].
  - rewrite (divide12_rec_unfold E offer pmc mr base fuel ids sk ad H2). cbv zeta.
    set (left := firstn (List.length ids / 2) ids).
    set (right := skipn (List.length ids / 2) ids).
    assert (Hsplit : left ++ right = ids) by apply firstn_skipn.
    eapply ensures_bind; [apply ensures_any|]. intros [[ok b] e] _.
    apply ensures_bind with (R1 := booked_once left sk ad).
    { destruct ok; [apply ensures_ret, booked_added | apply IH]. }
    intros [sk1 ad1] H1.
    eapply ensures_bind; [apply ensures_any|]. intros [[ok2 b2] e2] _.
    rewrite <- Hsplit.
    destruct ok2.
    + apply ensures_ret. eapply booked_then; [exact H1 | apply booked_added].
    + eapply ensures_weaken; [|apply IH].
      intros out Hout. eapply booked_then; [exact H1 | exact Hout].
  - destruct (divide_rec_short ids H2) as [->|[x ->]]; apply ensures_ret;
      [apply booked_nothing | apply booked_skipped].
Qed.

End Books.

(** X5. Whatever the remote answers, when [_divide_and_conquer_on_422] of
    Step 11 or of Step 12 returns, it has appended every member of the
    batch exactly once, to [skipped_invalid] or to [added_ok], and has
    left what these lists held before in place. *)
Theorem X_bisection_books_every_member_once :
  forall (E : Env) (offer : string) (ids : list Z) (pmc : option Z) (mr : Z)
         (base : Q) (sk ad : list Z),
    ensures (booked_once ids sk ad)
      (Step11._divide_and_conquer_on_422 E offer ids pmc mr base sk ad) /\
    ensures (booked_once ids sk ad)
      (Step12._divide_and_conquer_on_422 E offer ids pmc mr base sk ad).
Proof.
  intros E offer ids pmc mr base sk ad. split.
  - apply divide11_books.
  - apply divide12_books.
Qed.

Lemma X_bisection_books_witness :
  booked_once [1; 2; 3]%Z [] []
    ([2%Z], [1; 3]%Z).
Proof.
  apply (proj1 (X_bisection_books_every_member_once Scenario.bad2 "offer-42"
                  [1; 2; 3]%Z None 3%Z 1 [] [])
           (Scenario.start Scenario.bad2 tt) ([2%Z], [1; 3]%Z)
           (snd (Step11._divide_and_conquer_on_422 Scenario.bad2 "offer-42"
                   [1; 2; 3]%Z None 3%Z 1 [] []
                   (Scenario.start Scenario.bad2 tt)))).
  vm_compute. reflexivity.
Defined.

Lemma accounted_step (c : list Z) (chunks : list (list Z)) (ad sk a0 s0 r0 : list Z)
      (fe fe1 : option string) (out : Step12.Acc) :
  Permutation (a0 ++ s0 ++ r0) c ->
  (fe1 = None -> fe = None /\ s0 = [] /\ r0 = [] /\ a0 = c) ->
  accounted chunks (ad ++ a0) (sk ++ s0) fe1 out ->
  accounted (c :: chunks) ad sk fe out.
Proof.
  destruct out as [[ad' sk'] fe'].
  intros Hp Hfe (a & s & rest & Ha & Hs & Hperm & Hnone).
  exists (a0 ++ a), (s0 ++ s), (r0 ++ rest).
  rewrite Ha, Hs, <- !app_assoc. split; [reflexivity|]. split; [reflexivity|].
  split.
  - cbn [List.concat].
    apply Permutation_trans with ((a0 ++ s0 ++ r0) ++ (a ++ s ++ rest)).
    + rewrite <- !app_assoc. apply Permutation_app_head.
      apply Permutation_trans with (s0 ++ a ++ s ++ r0 ++ rest).
      { apply Permutation_app_swap_app. }
      apply Permutation_app_head.
      apply Permutation_trans with (a ++ r0 ++ s ++ rest).
      { apply Permutation_app_head, Permutation_app_swap_app. }
      apply Permutation_app_swap_app.
    + now apply Permutation_app.
  - intros Hn. destruct (Hnone Hn) as (H1 & -> & -> & ->).
    destruct (Hfe H1) as (H0 & -> & -> & ->). repeat split; assumption.
Qed.

Lemma accounted_start (ad sk : list Z) (fe : option string) :
  accounted [] ad sk fe (ad, sk, fe).
Proof.
  exists [], [], []. rewrite !app_nil_r.
  split; [reflexivity|]. split; [reflexivity|]. split; [constructor|].
  intros H. repeat split. exact H.
Qed.

Lemma first_error_set (fe : option string) (msg : string) :
  match fe with None => Some msg | Some _ => fe end = None -> False.
Proof. destruct fe; discriminate. Qed.

Section Accounting.
Context (E : Env) (offer : string) (pmc : option Z) (mr : Z) (base : Q).

Lemma add_chunks12_accounted (chunks : list (list Z)) :
  forall (ad sk : list Z) (fe : option string),
    ensures (accounted chunks ad sk fe)
      (Step12.add_chunks E chunks offer pmc mr base ad sk fe).
Proof.
  induction chunks as [|c chunks IH]; intros ad sk fe.
  - apply ensures_ret. apply accounted_start.
  - cbn [Step12.add_chunks].
    eapply ensures_bind; [apply ensures_any|]. intros [[ok b] e] _.
    destruct ok; [|destruct (Step12.looks_like_422 e)].
    + eapply ensures_weaken; [|apply IH]. intros out Hout.
      apply accounted_step with (a0 := c) (s0 := []) (r0 := []) (fe1 := fe).
      * rewrite app_nil_r. apply Permutation_refl.
      * intros H. repeat split; assumption.
      * rewrite app_nil_r. exact Hout.
    + apply ensures_bind with (R1 := booked_once c sk ad).
      { apply divide12_books. }
      intros [sk1 ad1] (s & a & Hs & Ha & Hp). cbn [fst snd] in Hs, Ha. subst sk1 ad1.
      eapply ensures_weaken; [|apply IH]. intros out Hout.
      eapply accounted_step with (a0 := a) (s0 := s) (r0 := []); [| |exact Hout].
      * rewrite app_nil_r.
        apply Permutation_trans with (s ++ a); [apply Permutation_app_comm|exact Hp].
      * intros H. exfalso. eapply first_error_set, H.
    + eapply ensures_weaken; [|apply IH]. intros out Hout.
      eapply accounted_step with (a0 := []) (s0 := []) (r0 := c).
      * apply Permutation_refl.
      * intros H. exfalso. eapply first_error_set, H.
      * rewrite !app_nil_r. exact Hout.
Qed.

Lemma add_chunks11_accounted (chunks : list (list Z)) :
  forall (ad sk : list Z) (fe : option string),
    ensures (accounted chunks ad sk fe)
      (Step11.add_chunks E chunks offer pmc mr base ad sk fe).
Proof.
  induction chunks as [|c chunks IH]; intros ad sk fe.
  - apply ensures_ret. apply accounted_start.
  - cbn [Step11.add_chunks].
    eapply ensures_bind; [apply ensures_any|]. intros [[ok b] e] _.
    destruct ok; [|destruct (Step12.looks_like_422 e)].
    + eapply ensures_weaken; [|apply IH]. intros out Hout.
      apply accounted_step with (a0 := c) (s0 := []) (r0 := []) (fe1 := fe).
      * rewrite app_nil_r. apply Permutation_refl.
      * intros H. repeat split; assumption.
      * rewrite app_nil_r. exact Hout.
    + apply ensures_bind with (R1 := booked_once c sk ad).
      { apply divide11_books. }
      intros [sk1 ad1] (s & a & Hs & Ha & Hp). cbn [fst snd] in Hs, Ha. subst sk1 ad1.
      eapply ensures_weaken; [|apply IH]. intros out Hout.
      eapply accounted_step with (a0 := a) (s0 := s) (r0 := []); [| |exact Hout].
      * rewrite app_nil_r.
        apply Permutation_trans with (s ++ a); [apply Permutation_app_comm|exact Hp].
      * intros H. exfalso. eapply first_error_set, H.
    + eapply ensures_weaken; [|apply IH]. intros out Hout.
      eapply accounted_step with (a0 := []) (s0 := []) (r0 := c).
      * apply Permutation_refl.
      * intros H. exfalso. eapply first_error_set, H.
      * rewrite !app_nil_r. exact Hout.
Qed.

End Accounting.

Lemma accounted_summary (ids : list Z) (size : nat) (offer : string)
      (ad sk : list Z) (fe : option string) (fname : option string) :
  (0 < size)%nat ->
  accounted (chunked ids size) [] [] None (ad, sk, fe) ->
  (sk = [] -> fname = None) ->
  summary_accounts ids
    (Step12.overall_ok ad sk,
     Step12.mkSummary offer (List.length ids) (List.length ad)
       (List.length sk) (firstn 10 ad) (firstn 10 sk) fname,
     fe).
Proof.
  intros Hsize (a & s & rest & Ha & Hs & Hp & Hnone) Hf.
  cbn [app] in Ha, Hs. subst ad sk.
  unfold chunked in Hp, Hnone.
  rewrite ChunkFacts.chunked_from_concat in Hp, Hnone by (assumption || lia).
  unfold summary_accounts.
  cbn [Step12.requested_count Step12.added_ok_count Step12.skipped_invalid_count
       Step12.added_ok_sample Step12.skipped_file].
  split; [reflexivity|]. split.
  - apply Permutation_length in Hp. rewrite !length_app in Hp. lia.
  - intros Hn. destruct (Hnone Hn) as (_ & -> & -> & ->).
    repeat split; try reflexivity.
    + now apply Hf.
    + intros Hne. destruct ids; [congruence|]. reflexivity.
Qed.

(** X6. Whatever the remote answers, the summary [call_stoq_add_variants]
    returns (Steps 11 and 12) accounts for the ids it was given: all are
    counted as requested, added and skipped together never exceed them, and
    a call that reports no error has added every id, skipped none, written
    no file and, for a list that is not empty, answers [True]. *)
Theorem X_add_summary_accounts_for_the_ids :
  forall (E : Env) (offer : string) (ids : list Z) (pmc : option Z)
         (size : nat) (mr : Z) (base : Q) (wsf : bool) (prefix : string),
    ensures (summary_accounts ids)
      (Step12.call_stoq_add_variants E offer ids pmc size mr base wsf prefix) /\
    ensures (summary_accounts ids)
      (Step11.call_stoq_add_variants E offer ids pmc size mr base wsf prefix).
Proof.
  intros E offer ids pmc size mr base wsf prefix.
  unfold Step12.call_stoq_add_variants, Step11.call_stoq_add_variants.
  destruct (Nat.eqb_spec size 0) as [->|Hsize].
  { split; apply ensures_raise. }
  assert (Hpos : (0 < size)%nat) by lia.
  split.
  - eapply ensures_bind; [apply add_chunks12_accounted|].
    intros [[ad sk] fe] Hacc.
    destruct wsf, sk as [|x sk];
      try (apply ensures_bind with (R1 := fun f => f = None);
           [now apply ensures_ret|]; intros f ->; apply ensures_ret;
           apply (accounted_summary ids size); [assumption|assumption|reflexivity]).
    all: eapply ensures_bind; [apply ensures_any|]; intros f _; apply ensures_ret;
      apply (accounted_summary ids size); [assumption|assumption|discriminate].
  - eapply ensures_bind; [apply add_chunks11_accounted|].
    intros [[ad sk] fe] Hacc.
    destruct wsf, sk as [|x sk];
      try (apply ensures_bind with (R1 := fun f => f = None);
           [now apply ensures_ret|]; intros f ->; apply ensures_ret;
           apply (accounted_summary ids size); [assumption|assumption|reflexivity]).
    all: eapply ensures_bind; [apply ensures_any|]; intros f _; apply ensures_ret;
      apply (accounted_summary ids size); [assumption|assumption|discriminate].
Qed.

Lemma X_add_summary_witness :
  summary_accounts [1; 2; 3]%Z
    (true,
     Step12.mkSummary "offer-42" 3 2 1 [1; 3]%Z [2%Z] (Some "skipped_offer-42"),
     Some "Some IDs could not be added (likely already present). Example error: Unprocessable Entity").
Proof.
  apply (proj2 (X_add_summary_accounts_for_the_ids Scenario.bad2 "offer-42"
                  [1; 2; 3]%Z None 100 3%Z 1 true "skipped")
           (Scenario.start Scenario.bad2 tt) _
           (snd (Step11.call_stoq_add_variants Scenario.bad2 "offer-42"
                   [1; 2; 3]%Z None 100 3%Z 1 true "skipped"
                   (Scenario.start Scenario.bad2 tt)))).
  vm_compute. reflexivity.
Defined.

End BookFacts.

(** ** The loops come to an end *)

Module EndFacts.
Import HalvingFacts AddWhole LockFacts.
Local Open Scope string_scope.
Local Open Scope list_scope.

Lemma never_ret {E : Env} {A : Type} (e : Exn) (a : A) :
  never e (ret (E := E) a).
Proof. intros w. discriminate. Qed.

Lemma never_raise {E : Env} {A : Type} (e e' : Exn) :
  e' <> e -> never e (raise (E := E) (A := A) e').
Proof. intros Hne w H. apply Hne. inversion H. reflexivity. Qed.

Lemma never_bind {E : Env} {A B : Type} (e : Exn) (m : M E A) (k : A -> M E B) :
  never e m -> (forall a, never e (k a)) -> never e (bind m k).
Proof.
  intros Hm Hk w. unfold bind. specialize (Hm w).
  destruct (m w) as [[a|e'] w1]; [apply Hk|].
  cbn [fst] in *. intros H. apply Hm. inversion H. reflexivity.
Qed.

Lemma never_write_file {E : Env} (e : Exn) (name : string) (ids : list Z) :
  never e (write_file (E := E) name ids).
Proof. intros w. discriminate. Qed.

Lemma never_sleep {E : Env} (e : Exn) (d : Q) :
  e <> ValueError -> never e (sleep (E := E) d).
Proof.
  intros Hne w. unfold sleep. destruct (Qle_bool 0 d); [discriminate|].
  cbn [fst]. intros H. apply Hne. inversion H. reflexivity.
Qed.

Section Post12.
Context (E : Env) (req : Request) (mr : Z) (base : Q).

Lemma post_loop_bounded (fuel : nat) :
  forall (attempt : Z) (w : World E) (run : Result Response * World E),
    (Z.to_nat (mr - attempt) < fuel)%nat ->
    Step12.post_loop E fuel req mr base attempt w = run ->
    (exists n : nat,
        (1 <= n <= S (Z.to_nat (mr - attempt)))%nat /\
        w_posts (snd run) = w_posts w ++ repeat req n /\
        List.length (w_sleeps (snd run))
        = (List.length (w_sleeps w) + (n - 1))%nat) /\
    fst run <> Raise OutOfFuel /\
    (never_back E -> w_clock w <= w_clock (snd run)).
Proof.
  induction fuel as [|fuel IH]; intros attempt w run Hf Hrun; [lia|].
  cbn [Step12.post_loop] in Hrun. unfold bind at 1, requests_post in Hrun.
  destruct (remote_post E (w_remote w) req) as [[o d] s1] eqn:Hpost.
  assert (Hd : never_back E -> 0 <= d).
  { intros H. specialize (H (w_remote w) req). now rewrite Hpost in H. }
  assert (Hone : forall x : Result Response,
             x <> Raise OutOfFuel ->
             (x, posted w req d s1) = run ->
             (exists n : nat,
                 (1 <= n <= S (Z.to_nat (mr - attempt)))%nat /\
                 w_posts (snd run) = w_posts w ++ repeat req n /\
                 List.length (w_sleeps (snd run))
                 = (List.length (w_sleeps w) + (n - 1))%nat) /\
             fst run <> Raise OutOfFuel /\
             (never_back E -> w_clock w <= w_clock (snd run))).
  { intros x Hx <-. cbn [fst snd]. split; [|split].
    - exists 1%nat. cbn [posted w_posts w_sleeps repeat]. repeat split; lia.
    - exact Hx.
    - intros H. cbn [posted w_clock]. specialize (Hd H). lra. }
  assert (Hnext : forall delay : Q,
             (attempt + 1 >? mr)%Z = false ->
             bind (sleep delay)
               (fun _ => Step12.post_loop E fuel req mr base (attempt + 1))
               (posted w req d s1) = run ->
             (exists n : nat,
                 (1 <= n <= S (Z.to_nat (mr - attempt)))%nat /\
                 w_posts (snd run) = w_posts w ++ repeat req n /\
                 List.length (w_sleeps (snd run))
                 = (List.length (w_sleeps w) + (n - 1))%nat) /\
             fst run <> Raise OutOfFuel /\
             (never_back E -> w_clock w <= w_clock (snd run))).
  { intros delay Hgt Hr. unfold bind at 1, sleep in Hr.
    rewrite Z.gtb_ltb in Hgt. apply Z.ltb_ge in Hgt.
    destruct (Qle_bool 0 delay) eqn:Hs.
    - apply Qle_bool_iff in Hs.
      destruct (IH (attempt + 1)%Z (slept (posted w req d s1) delay) run
                   ltac:(lia) Hr)
        as ((n & Hn & Hposts & Hsleeps) & Hfuel & Hclock).
      split; [|split].
      + exists (S n). split; [lia|]. split.
        * rewrite Hposts. cbn [slept posted w_posts repeat].
          now rewrite <- app_assoc.
        * rewrite Hsleeps. cbn [slept posted w_sleeps].
          rewrite length_app. cbn [List.length]. lia.
      + exact Hfuel.
      + intros H. specialize (Hclock H). specialize (Hd H).
        cbn [slept posted w_clock] in Hclock. lra.
    - apply (Hone (Raise ValueError)); [discriminate|exact Hr]. }
  destruct o as [|r].
  - destruct (attempt + 1 >? mr)%Z eqn:Hgt.
    + apply (Hone (Raise RequestException)); [discriminate|exact Hrun].
    + exact (Hnext _ eq_refl Hrun).
  - destruct (Step12.is_transient (status_code r)).
    + destruct (attempt + 1 >? mr)%Z eqn:Hgt.
      * apply (Hone (Ok r)); [discriminate|exact Hrun].
      * exact (Hnext _ eq_refl Hrun).
    + apply (Hone (Ok r)); [discriminate|exact Hrun].
Qed.

End Post12.

Section Try12.
Context (E : Env) (offer : string) (ids : list Z) (pmc : option Z) (mr : Z) (base : Q).

Let req : Request := mkRequest offer ids pmc.

Lemma try_add_chunk_bounded (w : World E) (run : Result Step12.AddResult * World E) :
  Step12._try_add_chunk E offer ids pmc mr base w = run ->
  (exists n : nat,
      (n <= S (Z.to_nat mr))%nat /\
      w_posts (snd run) = w_posts w ++ repeat req n) /\
  fst run <> Raise OutOfFuel /\
  (never_back E -> w_clock w <= w_clock (snd run)).
Proof.
  intros Hrun. unfold Step12._try_add_chunk in Hrun.
  destruct (negb (truthy (STOQ_API_BASE E))).
  - subst run. cbn [raise fst snd]. split; [|split].
    + exists 0%nat. cbn [repeat]. rewrite app_nil_r. split; [lia|reflexivity].
    + discriminate.
    + intros _. lra.
  - unfold bind, Step12._post_with_retries in Hrun. fold req in Hrun.
    destruct (post_loop_bounded E req mr base (S (Z.to_nat mr)) 0%Z w _
                ltac:(rewrite Z.sub_0_r; lia) eq_refl)
      as ((n & Hn & Hposts & _) & Hfuel & Hclock).
    rewrite Z.sub_0_r in Hn.
    destruct (Step12.post_loop E (S (Z.to_nat mr)) req mr base 0 w)
      as [[r|e] w1]; subst run; cbn [ret fst snd] in *.
    + split; [exists n; split; [lia|exact Hposts]|].
      split; [discriminate|auto].
    + split; [exists n; split; [lia|exact Hposts]|].
      split; [|auto]. intros H. apply Hfuel. inversion H. reflexivity.
Qed.

End Try12.

Section Lock.
Context (E : Env).
Hypothesis Hforward : never_back E.
Context (offer : string) (ids : list Z) (pmc : option Z) (mr : Z) (base : Q).

Let req : Request := mkRequest offer ids pmc.

(** The loop of the lock wait with the settings of every call site: it
    probes at most 181 times. *)
Lemma lock_loop_ends (fuel : nat) :
  forall (i : nat) (start : Q) (w : World E)
         (run : Result Step12.AddResult * World E),
    (181 <= fuel + i)%nat ->
    (i <= 180)%nat ->
    inject_Z (Z.of_nat i) <= w_clock w - start ->
    Step12.lock_wait_loop E fuel offer ids pmc mr base 180 (18 # 10) 12
      start (lock_pause i) w = run ->
    (exists n : nat,
        (n <= (181 - i) * S (Z.to_nat mr))%nat /\
        w_posts (snd run) = w_posts w ++ repeat req n) /\
    fst run <> Raise OutOfFuel /\
    w_clock w <= w_clock (snd run).
Proof.
  induction fuel as [|fuel IH]; intros i start w run Hfuel Hi Hel Hrun; [lia|].
  cbn [Step12.lock_wait_loop] in Hrun. unfold bind at 1 in Hrun.
  destruct (try_add_chunk_bounded E offer ids pmc mr base w _ eq_refl)
    as ((n1 & Hn1 & Hposts1) & Hfuel1 & Hclock1).
  specialize (Hclock1 Hforward). fold req in Hposts1.
  destruct (Step12._try_add_chunk E offer ids pmc mr base w)
    as [[[[ok body] err]|e] w1]; cbn [fst snd] in *.
  - assert (Hstop : forall x : Step12.AddResult,
               (Ok x, w1) = run ->
               (exists n : nat,
                   (n <= (181 - i) * S (Z.to_nat mr))%nat /\
                   w_posts (snd run) = w_posts w ++ repeat req n) /\
               fst run <> Raise OutOfFuel /\
               w_clock w <= w_clock (snd run)).
    { intros x <-. cbn [fst snd]. split; [|split].
      - exists n1. split; [nia|exact Hposts1].
      - discriminate.
      - exact Hclock1. }
    destruct ok; [exact (Hstop _ Hrun)|].
    destruct (Step12._is_job_in_progress err); [|exact (Hstop _ Hrun)].
    unfold bind at 1, time in Hrun.
    destruct (Qle_bool 180 (w_clock w1 - start)) eqn:Hb; [exact (Hstop _ Hrun)|].
    assert (Hlt : w_clock w1 - start < 180).
    { apply Qnot_le_lt. intros H. apply Qle_bool_iff in H. congruence. }
    assert (Hi' : (i < 180)%nat).
    { assert (Hq : inject_Z (Z.of_nat i) < inject_Z 180).
      { change (inject_Z 180) with 180. lra. }
      rewrite <- Zlt_Qlt in Hq. lia. }
    pose proof (lock_pause_ge_1 i) as Hp.
    unfold bind at 1, sleep in Hrun.
    assert (Hs : Qle_bool 0 (lock_pause i) = true) by (apply Qle_bool_iff; lra).
    rewrite Hs in Hrun.
    change (Qmin 12 (lock_pause i * (18 # 10))) with (lock_pause (S i)) in Hrun.
    destruct (IH (S i) start (slept w1 (lock_pause i)) run) as
      ((n2 & Hn2 & Hposts2) & Hfuel2 & Hclock2).
    { lia. } { lia. }
    { cbn [slept w_clock]. rewrite Nat2Z.inj_succ.
      unfold Z.succ. rewrite inject_Z_plus.
      change (inject_Z 1) with 1. lra. }
    { exact Hrun. }
    split; [|split].
    + exists (n1 + n2)%nat. split; [nia|].
      rewrite Hposts2. cbn [slept w_posts]. rewrite Hposts1.
      now rewrite <- app_assoc, repeat_app.
    + exact Hfuel2.
    + cbn [slept w_clock] in Hclock2. lra.
  - subst run. cbn [fst snd]. split; [|split].
    + exists n1. split; [nia|exact Hposts1].
    + intros H. apply Hfuel1. inversion H. reflexivity.
    + exact Hclock1.
Qed.

Lemma add_chunk_locked_ends (w : World E)
      (run : Result Step12.AddResult * World E) :
  Step12.add_chunk_locked E offer ids pmc mr base w = run ->
  (exists n : nat,
      (n <= 181 * S (Z.to_nat mr))%nat /\
      w_posts (snd run) = w_posts w ++ repeat req n) /\
  fst run <> Raise OutOfFuel.
Proof.
  intros Hrun.
  unfold Step12.add_chunk_locked, Step12._try_add_chunk_with_lock_wait in Hrun.
  unfold bind at 1, time in Hrun.
  destruct (lock_loop_ends Step12.lock_probes 0 (w_clock w) w run)
    as (Hn & Hfuel & _).
  - unfold Step12.lock_probes. lia.
  - lia.
  - change (inject_Z (Z.of_nat 0)) with 0. lra.
  - exact Hrun.
  - split; [exact Hn|exact Hfuel].
Qed.

End Lock.

Section Whole12.
Context (E : Env).
Hypothesis Hforward : never_back E.
Context (offer : string) (pmc : option Z) (mr : Z) (base : Q).

Lemma add_chunk_locked_never (ids : list Z) :
  ends (Step12.add_chunk_locked E offer ids pmc mr base).
Proof.
  intros w. now destruct (add_chunk_locked_ends E Hforward offer ids pmc mr base w _ eq_refl).
Qed.

Lemma divide12_ends (fuel : nat) :
  forall ids sk ad : list Z,
    (List.length ids <= fuel)%nat -> (1 <= fuel)%nat ->
    ends (Step12.divide_rec E fuel offer ids pmc mr base sk ad).
Proof.
  induction fuel as [|fuel IH]; intros ids sk ad Hlen Hfuel; [lia|].
  destruct (Nat.le_gt_cases 2 (List.length ids)) as [H2|H2].
  - rewrite (divide12_rec_unfold E offer pmc mr base fuel ids sk ad H2). cbv zeta.
    destruct (halves_split ids H2) as (_ & Hl & Hr & Hmid).
    apply never_bind; [apply add_chunk_locked_never|]. intros [[ok b] e].
    apply never_bind.
    { destruct ok; [apply never_ret | apply IH; lia]. }
    intros [sk1 ad1].
    apply never_bind; [apply add_chunk_locked_never|]. intros [[ok2 b2] e2].
    destruct ok2; [apply never_ret | apply IH; lia].
  - destruct (divide_rec_short ids H2) as [->|[x ->]]; apply never_ret.
Qed.

Lemma add_chunks12_ends (chunks : list (list Z)) :
  forall (ad sk : list Z) (fe : option string),
    ends (Step12.add_chunks E chunks offer pmc mr base ad sk fe).
Proof.
  induction chunks as [|c chunks IH]; intros ad sk fe; [apply never_ret|].
  cbn [Step12.add_chunks].
  apply never_bind; [apply add_chunk_locked_never|]. intros [[ok b] e].
  destruct ok; [apply IH|].
  destruct (Step12.looks_like_422 e); [|apply IH].
  apply never_bind; [apply divide12_ends; lia|].
  intros [sk1 ad1]. apply IH.
Qed.

Lemma call12_ends (ids : list Z) (size : nat) (wsf : bool) (prefix : string) :
  ends (Step12.call_stoq_add_variants E offer ids pmc size mr base wsf prefix).
Proof.
  unfold Step12.call_stoq_add_variants.
  destruct (size =? 0)%nat; [apply never_raise; discriminate|].
  apply never_bind; [apply add_chunks12_ends|]. intros [[ad sk] fe].
  apply never_bind; [|intros f; apply never_ret].
  destruct wsf, sk; apply never_ret.
Qed.

End Whole12.

Section Whole11.
Context (E : Env) (offer : string) (pmc : option Z) (mr : Z) (base : Q).

Lemma try_add_chunk_never (ids : list Z) :
  ends (Step12._try_add_chunk E offer ids pmc mr base).
Proof.
  intros w. now destruct (try_add_chunk_bounded E offer ids pmc mr base w _ eq_refl)
    as (_ & H & _).
Qed.

Lemma divide11_ends (fuel : nat) :
  forall ids sk ad : list Z,
    (List.length ids <= fuel)%nat -> (1 <= fuel)%nat ->
    ends (Step11.divide_rec E fuel offer ids pmc mr base sk ad).
Proof.
  induction fuel as [|fuel IH]; intros ids sk ad Hlen Hfuel; [lia|].
  destruct (Nat.le_gt_cases 2 (List.length ids)) as [H2|H2].
  - rewrite Bisection11.divide11_rec_unfold by exact H2. cbv zeta.
    destruct (halves_split ids H2) as (_ & Hl & Hr & Hmid).
    apply never_bind; [apply try_add_chunk_never|]. intros [[ok b] e].
    apply never_bind.
    { destruct ok; [apply never_ret | apply IH; lia]. }
    intros [sk1 ad1].
    apply never_bind; [apply try_add_chunk_never|]. intros [[ok2 b2] e2].
    destruct ok2; [apply never_ret | apply IH; lia].
  - destruct (divide_rec_short ids H2) as [->|[x ->]]; apply never_ret.
Qed.

Lemma add_chunks11_ends (chunks : list (list Z)) :
  forall (ad sk : list Z) (fe : option string),
    ends (Step11.add_chunks E chunks offer pmc mr base ad sk fe).
Proof.
  induction chunks as [|c chunks IH]; intros ad sk fe; [apply never_ret|].
  cbn [Step11.add_chunks].
  apply never_bind; [apply try_add_chunk_never|]. intros [[ok b] e].
  destruct ok; [apply IH|].
  destruct (Step12.looks_like_422 e); [|apply IH].
  apply never_bind; [apply divide11_ends; lia|].
  intros [sk1 ad1]. apply IH.
Qed.

Lemma call11_ends (ids : list Z) (size : nat) (wsf : bool) (prefix : string) :
  ends (Step11.call_stoq_add_variants E offer ids pmc size mr base wsf prefix).
Proof.
  unfold Step11.call_stoq_add_variants.
  destruct (size =? 0)%nat; [apply never_raise; discriminate|].
  apply never_bind; [apply add_chunks11_ends|]. intros [[ad sk] fe].
  apply never_bind; [|intros f; apply never_ret].
  destruct wsf, sk; apply never_ret.
Qed.

End Whole11.

Section Post09.
Context (E : Env) (req : Request).

(** One turn of the [for] loop of Step 09: it stops with a value or a
    network error, or it pauses and goes on while attempts are left. *)
Lemma post_attempts_turn (attempt : Z) (rest : list Z) (backoff : Q)
      (last : option Response) (w : World E) :
  Qle_bool 0 backoff = true ->
  (attempt <= Step09.MAX_RETRIES)%Z ->
  exists (d : Q) (s : RS E),
    (exists x : Result Response,
        x <> Raise OutOfFuel /\ x <> Raise UnboundLocalError /\
        Step09.post_attempts E (attempt :: rest) req backoff last w
        = (x, posted w req d s)) \/
    ((attempt < Step09.MAX_RETRIES)%Z /\
     exists last' : option Response,
       Step09.post_attempts E (attempt :: rest) req backoff last w
       = Step09.post_attempts E rest req (backoff * 2) last'
           (slept (posted w req d s) backoff)).
Proof.
  intros Hb Hle.
  remember (Step09.post_attempts E (attempt :: rest) req backoff last w)
    as run eqn:Hrun.
  cbn [Step09.post_attempts] in Hrun. unfold bind at 1, requests_post in Hrun.
  destruct (remote_post E (w_remote w) req) as [[o d] s].
  exists d, s. destruct o as [|r]; cbv beta iota in Hrun.
  - destruct (attempt =? Step09.MAX_RETRIES)%Z eqn:Heq.
    + left. exists (Raise RequestException). repeat split; (discriminate || exact Hrun).
    + right. apply Z.eqb_neq in Heq. split; [lia|].
      unfold bind at 1 in Hrun. rewrite (RetryFacts.sleep09 E _ _ Hb) in Hrun. eauto.
  - destruct (is_2xx (status_code r)).
    + left. exists (Ok r). repeat split; (discriminate || exact Hrun).
    + destruct (Step09.is_retried_status (status_code r)); cbn [andb] in Hrun.
      * destruct (attempt <? Step09.MAX_RETRIES)%Z eqn:Hlt.
        -- right. apply Z.ltb_lt in Hlt. split; [exact Hlt|].
           unfold bind at 1 in Hrun.
           rewrite (RetryFacts.sleep09 E _ _ Hb) in Hrun. eauto.
        -- left. exists (Ok r). repeat split; (discriminate || exact Hrun).
      * left. exists (Ok r). repeat split; (discriminate || exact Hrun).
Qed.

Lemma post09_bounded (w : World E) (run : Result Response * World E) :
  Step09._post_with_retries E req w = run ->
  (exists n : nat,
      (1 <= n <= 3)%nat /\
      w_posts (snd run) = w_posts w ++ repeat req n /\
      w_sleeps (snd run) = w_sleeps w ++ firstn (n - 1) [1; 2]) /\
  fst run <> Raise OutOfFuel /\ fst run <> Raise UnboundLocalError.
Proof.
  intros Hrun. unfold Step09._post_with_retries in Hrun.
  change (Step09.range_from_1 Step09.MAX_RETRIES) with [1; 2; 3]%Z in Hrun.
  destruct (post_attempts_turn 1 [2; 3]%Z Step09.INITIAL_BACKOFF None w
              eq_refl ltac:(discriminate))
    as (d1 & s1 & [(x & Hx1 & Hx2 & H1)|(_ & l1 & H1)]); rewrite H1 in Hrun.
  { subst run. cbn [fst snd posted w_posts w_sleeps]. split; [|now split].
    exists 1%nat. cbn [repeat firstn Nat.sub]. rewrite app_nil_r.
    repeat split; lia. }
  destruct (post_attempts_turn 2 [3]%Z (Step09.INITIAL_BACKOFF * 2) l1
              (slept (posted w req d1 s1) Step09.INITIAL_BACKOFF)
              eq_refl ltac:(discriminate))
    as (d2 & s2 & [(x & Hx1 & Hx2 & H2)|(_ & l2 & H2)]); rewrite H2 in Hrun.
  { subst run. cbn [fst snd slept posted w_posts w_sleeps]. split; [|now split].
    exists 2%nat. cbn [repeat firstn Nat.sub]. rewrite <- !app_assoc.
    repeat split; lia. }
  destruct (post_attempts_turn 3 []%Z (Step09.INITIAL_BACKOFF * 2 * 2) l2
              (slept (posted (slept (posted w req d1 s1) Step09.INITIAL_BACKOFF)
                             req d2 s2) (Step09.INITIAL_BACKOFF * 2))
              eq_refl ltac:(discriminate))
    as (d3 & s3 & [(x & Hx1 & Hx2 & H3)|(Hlt & _)]);
    [rewrite H3 in Hrun | unfold Step09.MAX_RETRIES in Hlt; lia].
  subst run. cbn [fst snd slept posted w_posts w_sleeps]. split; [|now split].
  exists 3%nat. cbn [repeat firstn Nat.sub]. rewrite <- !app_assoc.
  repeat split; lia.
Qed.

Lemma post09_never (e : Exn) :
  e = OutOfFuel \/ e = UnboundLocalError ->
  never e (Step09._post_with_retries E req).
Proof.
  intros He w.
  destruct (post09_bounded w _ eq_refl) as (_ & H1 & H2).
  destruct He as [->| ->]; assumption.
Qed.

End Post09.

Section Whole09.
Context (E : Env) (e : Exn).
Hypothesis He : e = OutOfFuel \/ e = UnboundLocalError.

Lemma bisect_with_never (recur : list Z -> M E (bool * list Z)) (b : list Z) :
  (forall b', (List.length b' <= Nat.pred (List.length b))%nat -> never e (recur b')) ->
  never e (Step09.bisect_with E recur b).
Proof.
  intros Hrec. unfold Step09.bisect_with.
  destruct b as [|x [|y l]].
  - apply never_bind; [apply Hrec; cbn; lia|]. intros [okl skl].
    apply never_bind; [apply Hrec; cbn; lia|]. intros [okr skr]. apply never_ret.
  - apply never_ret.
  - set (b := x :: y :: l) in *.
    assert (H2 : (2 <= List.length b)%nat) by (cbn; lia).
    destruct (half_lt _ H2) as [Ha Hb].
    apply never_bind.
    { apply Hrec. rewrite length_firstn. lia. }
    intros [okl skl]. apply never_bind.
    { apply Hrec. rewrite length_skipn. lia. }
    intros [okr skr]. apply never_ret.
Qed.

Lemma add_chunk_rec_never (plan : string) (fuel : nat) :
  forall batch : list Z,
    (List.length batch < fuel)%nat ->
    never e (Step09.add_chunk_rec E fuel plan batch).
Proof.
  induction fuel as [|fuel IH]; intros batch Hlen; [lia|].
  destruct batch as [|x l]; [apply never_ret|].
  set (batch := x :: l) in *.
  assert (Hpos : (1 <= List.length batch)%nat) by (cbn; lia).
  assert (Hbis : forall b, (List.length b <= List.length batch)%nat ->
             never e (Step09.bisect_with E (Step09.add_chunk_rec E fuel plan) b)).
  { intros b Hb. apply bisect_with_never. intros b' Hb'. apply IH. lia. }
  assert (Hstrip : forall b x,
             (List.length (Step09.strip_existing b x) <= List.length b)%nat).
  { intros b x0. apply filter_length_le. }
  cbn [Step09.add_chunk_rec]. fold batch.
  apply never_bind; [now apply post09_never|]. intros resp.
  destruct (is_2xx (status_code resp)); [apply never_ret|].
  destruct (status_code resp =? 422)%Z; [|apply never_ret].
  destruct (Step09.existing_of resp) as [|e1 es] eqn:He1; [now apply Hbis|].
  rewrite <- He1.
  pose proof (Hstrip batch (Step09.existing_of resp)) as Hrem.
  destruct (Step09.strip_existing batch (Step09.existing_of resp))
    as [|m ms] eqn:Hr; [apply never_ret|].
  rewrite <- Hr in *.
  apply never_bind; [now apply post09_never|]. intros resp2.
  destruct (is_2xx (status_code resp2)); [apply never_ret|].
  destruct (negb (status_code resp2 =? 422)%Z); [apply never_ret|].
  destruct (Step09.existing_of resp2) as [|e2 es2] eqn:He2; [now apply Hbis|].
  rewrite <- He2.
  pose proof (Hstrip (Step09.strip_existing batch (Step09.existing_of resp))
                (Step09.existing_of resp2)) as Hrem2.
  destruct (Step09.strip_existing
              (Step09.strip_existing batch (Step09.existing_of resp))
              (Step09.existing_of resp2)) as [|m2 ms2] eqn:Hr2; [apply never_ret|].
  rewrite <- Hr2 in *.
  apply never_bind; [now apply post09_never|]. intros resp3.
  destruct (is_2xx (status_code resp3)); [apply never_ret|].
  apply Hbis. lia.
Qed.

Lemma chunks_loop_never (plan : string) (chunks : list (list Z)) :
  forall known skipped : list Z,
    never e (Step09.chunks_loop E chunks plan known skipped).
Proof.
  induction chunks as [|c chunks IH]; intros known skipped.
  - apply never_ret.
  - cbn [Step09.chunks_loop].
    destruct (filter (fun v => negb (Step09.memZ v known)) c) as [|b bs];
      [apply IH|].
    apply never_bind.
    + apply add_chunk_rec_never. lia.
    + intros [ok sk]. destruct ok; [apply IH | apply never_ret].
Qed.

Lemma stoq_add_variants_never (plan : string) (variant_ids : list Z) :
  never e (Step09.stoq_add_variants E plan variant_ids).
Proof.
  unfold Step09.stoq_add_variants.
  destruct variant_ids; [apply never_ret | apply chunks_loop_never].
Qed.

End Whole09.

(** X7. Whatever the remote does, [_post_with_retries] sends the same request
    again and again and nothing else, pausing between two calls only.
    Steps 11 and 12: at least once and at most [max_retries + 1] times.
    Step 09: at most three times, with pauses of one and two seconds, and
    the [return resp] after its loop (line 94) is never reached. *)
Theorem X_post_with_retries_is_bounded :
  forall (E : Env) (req : Request) (w : World E),
    (forall (max_retries : Z) (base_backoff : Q),
        let run := Step12._post_with_retries E req max_retries base_backoff w in
        (exists n : nat,
            (1 <= n <= S (Z.to_nat max_retries))%nat /\
            w_posts (snd run) = w_posts w ++ repeat req n /\
            List.length (w_sleeps (snd run))
            = (List.length (w_sleeps w) + (n - 1))%nat) /\
        fst run <> Raise OutOfFuel) /\
    (let run := Step09._post_with_retries E req w in
     (exists n : nat,
         (1 <= n <= 3)%nat /\
         w_posts (snd run) = w_posts w ++ repeat req n /\
         w_sleeps (snd run) = w_sleeps w ++ firstn (n - 1) [1; 2]) /\
     fst run <> Raise OutOfFuel /\ fst run <> Raise UnboundLocalError).
Proof.
  intros E req w. split.
  - intros mr base run.
    destruct (post_loop_bounded E req mr base (S (Z.to_nat mr)) 0%Z w run
                ltac:(rewrite Z.sub_0_r; lia) eq_refl)
      as (Hn & Hfuel & _).
    rewrite Z.sub_0_r in Hn. split; assumption.
  - intros run. exact (post09_bounded E req w run eq_refl).
Qed.

(** X8. When no call takes a negative time, the lock wait of Step 12 comes to
    an end: with the settings of its call sites (a budget of 180 seconds,
    pauses from one second up) it probes the offer at most 181 times, so
    the batch is sent at most [181 * (max_retries + 1)] times, and nothing
    else is sent. *)
Theorem X_lock_wait_comes_to_an_end :
  forall (E : Env) (offer : string) (ids : list Z) (pmc : option Z) (mr : Z)
         (base : Q) (w : World E),
    never_back E ->
    let run := Step12.add_chunk_locked E offer ids pmc mr base w in
    (exists n : nat,
        (n <= 181 * S (Z.to_nat mr))%nat /\
        w_posts (snd run) = w_posts w ++ repeat (mkRequest offer ids pmc) n) /\
    fst run <> Raise OutOfFuel.
Proof.
  intros E offer ids pmc mr base w Hforward run.
  exact (add_chunk_locked_ends E Hforward offer ids pmc mr base w run eq_refl).
Qed.

Lemma X_lock_wait_witness :
  let run := Step12.add_chunk_locked Scenario.held "offer-42" [1; 2]%Z None 3 1
               (Scenario.start Scenario.held tt) in
  (exists n : nat,
      (n <= 181 * S (Z.to_nat 3))%nat /\
      w_posts (snd run)
      = w_posts (Scenario.start Scenario.held tt)
        ++ repeat (mkRequest "offer-42" [1; 2]%Z None) n) /\
  fst run <> Raise OutOfFuel.
Proof.
  apply (X_lock_wait_comes_to_an_end Scenario.held "offer-42" [1; 2]%Z None 3 1
           (Scenario.start Scenario.held tt)).
  intros s req. vm_compute. discriminate.
Defined.

(** X9. The add operation of each step comes to an end, whatever the remote
    answers: the bisection and the chunk loop of Step 11 and of Step 09
    always, those of Step 12, which wait for locks, when no call takes a
    negative time. In Step 09 no path reaches the unbound [resp]. *)
Theorem X_add_operations_come_to_an_end :
  forall (E : Env) (offer : string) (ids : list Z),
    (never_back E ->
     forall (pmc : option Z) (size : nat) (mr : Z) (base : Q) (wsf : bool)
            (prefix : string),
       ends (Step12.call_stoq_add_variants E offer ids pmc size mr base wsf prefix)) /\
    (forall (pmc : option Z) (size : nat) (mr : Z) (base : Q) (wsf : bool)
            (prefix : string),
        ends (Step11.call_stoq_add_variants E offer ids pmc size mr base wsf prefix)) /\
    ends (Step09.stoq_add_variants E offer ids) /\
    never UnboundLocalError (Step09.stoq_add_variants E offer ids).
Proof.
  intros E offer ids. split; [|split; [|split]].
  - intros Hforward pmc size mr base wsf prefix. now apply call12_ends.
  - intros pmc size mr base wsf prefix. apply call11_ends.
  - apply stoq_add_variants_never. now left.
  - apply stoq_add_variants_never. now right.
Qed.

Lemma X_add_operations_witness :
  ends (Step12.call_stoq_add_variants Scenario.bad2 "offer-42" [1; 2; 3]%Z
          None 75 3 1 true "skipped_invalid_add").
Proof.
  apply (proj1 (X_add_operations_come_to_an_end Scenario.bad2 "offer-42" [1; 2; 3]%Z)).
  intros s req. unfold Scenario.bad2, Scenario.env, Scenario.rejecting.
  cbn [remote_post].
  destruct (existsb _ _); vm_compute; discriminate.
Defined.

End EndFacts.

(** ** One bad member in a batch: what Steps 11 and 09 do with it *)

Module IsolationFacts.
Import HalvingFacts.
Local Open Scope string_scope.
Local Open Scope list_scope.

(** The remote of [Scenario.bad2] rejects exactly the batches that hold
    member 2. *)
Lemma bad2_rejects_member_2 (generic : Response -> Prop) :
  generic Scenario.unprocessable -> one_bad_member Scenario.bad2 2 generic.
Proof.
  intros Hgen [] req.
  unfold Scenario.bad2, Scenario.env, remote_post, Scenario.rejecting, holds.
  assert (Heq : existsb (fun v => Step09.memZ v [2%Z]) (shopify_variant_ids req)
                = Step09.memZ 2 (shopify_variant_ids req)).
  { induction (shopify_variant_ids req) as [|a l IH]; [reflexivity|].
    unfold Step09.memZ in *. simpl existsb. simpl existsb in IH.
    rewrite IH, orb_false_r. now rewrite (Z.eqb_sym a 2). }
  rewrite Heq. destruct (Step09.memZ 2 (shopify_variant_ids req)).
  - exists Scenario.unprocessable, (1 # 10), tt.
    split; [reflexivity|]. split; [reflexivity|exact Hgen].
  - exists Scenario.ok_response, (1 # 10), tt. split; reflexivity.
Qed.



(** X11. Step 09, [stoq_add_variants] on one chunk of distinct ids of which
    exactly [k] always fails validation with a generic 422: the call
    succeeds, [k] is the one skipped id, every other id went through in an
    accepted call, and at most [2 * ceil(log2 N) + 1] calls were made. *)
Theorem X_step09_isolates_the_bad_member :
  forall (E : Env) (k : Z) (plan : string) (variant_ids : list Z) (w : World E),
    one_bad_member E k generic_422 ->
    NoDup variant_ids -> In k variant_ids ->
    (List.length variant_ids <= Step09.CHUNK_SIZE)%nat ->
    exists (w' : World E) (calls : list Request),
      Step09.stoq_add_variants E plan variant_ids w
      = (Ok (true, Step09.AllProcessed [k]), w') /\
      w_posts w' = w_posts w ++ calls /\
      (List.length calls <= 2 * Nat.log2_up (List.length variant_ids) + 1)%nat /\
      accepted k calls = without k variant_ids.
Proof.
  intros E k plan variant_ids w Hbad Hnd Hin Hlen.
  destruct (Bisection09.step09_one_bad_member_isolated E k Hbad plan variant_ids w
              Hnd Hin Hlen)
    as (w' & calls & _ & Hrun & Hposts & Hcount & Hacc).
  exists w', calls. repeat split; assumption.
Qed.

Lemma X_step09_isolates_witness :
  exists (w' : World Scenario.bad2) (calls : list Request),
    Step09.stoq_add_variants Scenario.bad2 "plan-42" [1; 2; 3; 4; 5]%Z
      (Scenario.start Scenario.bad2 tt)
    = (Ok (true, Step09.AllProcessed [2%Z]), w') /\
    w_posts w' = w_posts (Scenario.start Scenario.bad2 tt) ++ calls /\
    (List.length calls <= 2 * Nat.log2_up 5 + 1)%nat /\
    accepted 2 calls = without 2 [1; 2; 3; 4; 5]%Z.
Proof.
  apply (X_step09_isolates_the_bad_member Scenario.bad2 2 "plan-42"
           [1; 2; 3; 4; 5]%Z (Scenario.start Scenario.bad2 tt)).
  - apply bad2_rejects_member_2. reflexivity.
  - repeat constructor; cbn; lia.
  - cbn. lia.
  - unfold Step09.CHUNK_SIZE. cbn. lia.
Defined.

End IsolationFacts.

(** ** Sorting integers *)

Module SortFacts.
Local Open Scope list_scope.

Lemma insert_sortedZ_perm (x : Z) (l : list Z) :
  Permutation (x :: l) (insert_sortedZ x l).
Proof.
  induction l as [|y l IH]; simpl.
  - apply Permutation_refl.
  - destruct (x <=? y)%Z.
    + apply Permutation_refl.
    + eapply perm_trans; [apply perm_swap | now apply perm_skip].
Qed.

Lemma sortedZ_perm (l : list Z) : Permutation l (sortedZ l).
Proof.
  induction l as [|x l IH]; simpl.
  - apply perm_nil.
  - eapply perm_trans; [apply perm_skip, IH | apply insert_sortedZ_perm].
Qed.

Lemma sortedZ_In (x : Z) (l : list Z) : In x (sortedZ l) <-> In x l.
Proof.
  split; intros H.
  - eapply Permutation_in; [apply Permutation_sym, sortedZ_perm | exact H].
  - eapply Permutation_in; [apply sortedZ_perm | exact H].
Qed.

Lemma sortedZ_NoDup (l : list Z) : NoDup l -> NoDup (sortedZ l).
Proof.
  intros H. eapply Permutation_NoDup; [apply sortedZ_perm | exact H].
Qed.

Lemma insert_sortedZ_hd (a x : Z) (l : list Z) :
  (a <= x)%Z -> HdRel Z.le a l -> HdRel Z.le a (insert_sortedZ x l).
Proof.
  intros Hax Hl. destruct l as [|y l]; simpl.
  - now constructor.
  - destruct (x <=? y)%Z; constructor; [assumption | now inversion Hl].
Qed.

Lemma insert_sortedZ_Sorted (x : Z) (l : list Z) :
  Sorted Z.le l -> Sorted Z.le (insert_sortedZ x l).
Proof.
  induction l as [|y l IH]; intros Hs; simpl.
  - repeat constructor.
  - destruct (x <=? y)%Z eqn:Hxy.
    + constructor; [assumption | constructor; now apply Z.leb_le].
    + inversion Hs as [|? ? Hs' Hhd]; subst. constructor.
      * now apply IH.
      * apply insert_sortedZ_hd; [|assumption].
        apply Z.leb_gt in Hxy. lia.
Qed.

Lemma sortedZ_Sorted (l : list Z) : Sorted Z.le (sortedZ l).
Proof.
  induction l as [|x l IH]; simpl.
  - constructor.
  - now apply insert_sortedZ_Sorted.
Qed.

Lemma SortedZ_strict (l : list Z) :
  Sorted Z.le l -> NoDup l -> Sorted Z.lt l.
Proof.
  induction 1 as [|a l Hs IH Hhd]; intros Hnd.
  - constructor.
  - inversion Hnd as [|? ? Hnin Hnd']; subst. constructor.
    + now apply IH.
    + destruct Hhd as [|b l Hab]; constructor.
      assert (a <> b) by (intros ->; apply Hnin; now left). lia.
Qed.

(** [sorted(set(l))]: the members of [l], each once, in rising order. *)
Lemma sorted_set_spec (l : list Z) :
  Sorted Z.lt (sortedZ (nodup Z.eq_dec l)) /\
  NoDup (sortedZ (nodup Z.eq_dec l)) /\
  (forall z, In z (sortedZ (nodup Z.eq_dec l)) <-> In z l).
Proof.
  assert (Hnd : NoDup (sortedZ (nodup Z.eq_dec l))).
  { apply sortedZ_NoDup, NoDup_nodup. }
  split; [|split].
  - apply SortedZ_strict; [apply sortedZ_Sorted | exact Hnd].
  - exact Hnd.
  - intros z. rewrite sortedZ_In. apply nodup_In.
Qed.

(** X12. The ids Step 09 reads for an offer, and the ids Step 11 removes, are
    [sorted(set(...))] of the values [int()] accepts: each such integer
    occurs once, in strictly rising order, however often and in whatever
    order the rows hold it; the rows [int()] rejects, and [None], leave
    no trace. *)
Theorem X_ids_come_out_once_and_in_order :
  forall (E : Env) (offer : string) (vids : list string) (w : World E),
    (exists ids : list Z,
        Step09.fetch_variant_ids_for_offer E offer w = (Ok ids, w) /\
        Sorted Z.lt ids /\
        forall z, In z ids <->
                  exists v, In v (db_variant_ids E offer) /\ py_int v = Some z) /\
    (Sorted Z.lt (Step11Remove.unique_vids vids) /\
     forall z, In z (Step11Remove.unique_vids vids) <->
               exists s, In s vids /\ int_of_str s = Some z).
Proof.
  intros E offer vids w. split.
  - eexists. split; [reflexivity|].
    destruct (sorted_set_spec (Step09.coerce_rows (db_variant_ids E offer)))
      as (Hs & _ & Hin).
    split; [exact Hs|]. intros z. rewrite Hin. apply RunFacts.coerce_rows_In.
  - unfold Step11Remove.unique_vids, Step12._coerce_ids_to_int.
    destruct (RunFacts.coerce_split_spec vids) as [Hok _].
    destruct (Step12.coerce_split vids) as [ok bad]. cbn [fst] in *. subst ok.
    destruct (sorted_set_spec
                (flat_map (fun s => match int_of_str s with
                                    | Some n => [n] | None => [] end) vids))
      as (Hs & _ & Hin).
    split; [exact Hs|]. intros z. rewrite Hin, in_flat_map. split.
    + intros (s & Hs1 & Hs2). exists s. split; [exact Hs1|].
      destruct (int_of_str s); [|contradiction].
      destruct Hs2 as [->|[]]. reflexivity.
    + intros (s & Hs1 & Hs2). exists s. split; [exact Hs1|].
      rewrite Hs2. now left.
Qed.

End SortFacts.

(** ** Step 11: the removal *)

Module RemoveFacts.
Import SortFacts EffectFacts BookFacts.
Local Open Scope string_scope.
Local Open Scope list_scope.

Lemma quiet_ret {E : Env} {A : Type} (a : A) : returns_quietly (ret (E := E) a).
Proof. intros w. now exists a, w. Qed.

Lemma quiet_bind {E : Env} {A B : Type} (m : M E A) (k : A -> M E B) :
  returns_quietly m -> (forall a, returns_quietly (k a)) ->
  returns_quietly (bind m k).
Proof.
  intros Hm Hk w. unfold bind.
  destruct (Hm w) as (a & w1 & H1 & Hp1). rewrite H1.
  destruct (Hk a w1) as (b & w2 & H2 & Hp2).
  exists b, w2. split; [exact H2 | congruence].
Qed.

Lemma quiet_sleep {E : Env} (d : Q) : 0 <= d -> returns_quietly (sleep (E := E) d).
Proof.
  intros H w. unfold sleep. apply Qle_bool_iff in H. rewrite H.
  now exists tt, (slept w d).
Qed.

Lemma pow2_pause_nonneg (attempt : Z) :
  0 <= Step11Remove.RETRY_BASE_SLEEP * inject_Z (2 ^ (attempt - 1)).
Proof.
  unfold Step11Remove.RETRY_BASE_SLEEP.
  assert (H : (0 <= 2 ^ (attempt - 1))%Z) by (apply Z.pow_nonneg; lia).
  rewrite Zle_Qle in H. change (inject_Z 0) with 0 in H. lra.
Qed.

Section Removal.
Context (E : Env) (D : DeleteApi E).

Lemma quiet_delete (req : Request) :
  returns_quietly (Step11Remove.requests_delete E D req).
Proof.
  intros w. unfold Step11Remove.requests_delete.
  destruct (remote_delete D (w_remote w) req) as [[o d] s].
  eexists _, _. split; reflexivity.
Qed.

Lemma quiet_with_retries_from (req : Request) (attempts : list Z) :
  forall last_err : option string,
    returns_quietly (Step11Remove.with_retries_from E D attempts req last_err).
Proof.
  induction attempts as [|a rest IH]; intros last_err; [apply quiet_ret|].
  cbn [Step11Remove.with_retries_from].
  apply quiet_bind; [apply quiet_delete|]. intros [o msg].
  assert (Hgo : forall le,
             returns_quietly
               (bind (if (a <? Step11Remove.RETRY_TIMES)%Z
                      then sleep (Step11Remove.RETRY_BASE_SLEEP
                                  * inject_Z (2 ^ (a - 1)))
                      else ret tt)
                  (fun _ => Step11Remove.with_retries_from E D rest req le))).
  { intros le. apply quiet_bind; [|intros _; apply IH].
    destruct (a <? Step11Remove.RETRY_TIMES)%Z;
      [apply quiet_sleep, pow2_pause_nonneg | apply quiet_ret]. }
  destruct o as [|r]; [apply Hgo|].
  destruct (is_2xx (status_code r)); [apply quiet_ret | apply Hgo].
Qed.

Hypothesis Hbase : truthy (STOQ_API_BASE E) = true.
Hypothesis Hkey : truthy (STOQ_API_ACCESS_KEY E) = true.

Lemma quiet_call_remove (offer : string) (ids : list Z) :
  returns_quietly (Step11Remove.call_stoq_remove_variants E D offer ids).
Proof.
  unfold Step11Remove.call_stoq_remove_variants. rewrite Hbase, Hkey.
  cbn [negb].
  apply quiet_bind; [apply quiet_with_retries_from|]. intros [[[ok r] b] e].
  apply quiet_bind; [|intros _; apply quiet_ret].
  apply quiet_sleep. unfold Step11Remove.RATE_LIMIT_SLEEP. lra.
Qed.

Lemma quiet_retry_loop (offer : string) (batch : list Z) (left : nat) :
  forall backoff : Q,
    0 <= backoff ->
    returns_quietly (Step11Remove.retry_remove_loop E D left offer batch backoff).
Proof.
  induction left as [|left IH]; intros backoff Hb;
    cbn [Step11Remove.retry_remove_loop];
    (apply quiet_bind; [apply quiet_call_remove|]); intros [[ok b] e];
    destruct ok; try apply quiet_ret.
  destruct (Step11Remove.transient_text e); [|apply quiet_ret].
  apply quiet_bind; [now apply quiet_sleep|]. intros _. apply IH. lra.
Qed.

Lemma quiet_remove_each (offer iname : string) (batch : list Z) :
  forall (rm : list Z) (fl : list Step11Remove.FailedRow),
    returns_quietly (Step11Remove.remove_each E D batch offer iname rm fl).
Proof.
  induction batch as [|v batch IH]; intros rm fl; [apply quiet_ret|].
  cbn [Step11Remove.remove_each].
  apply quiet_bind; [apply quiet_call_remove|]. intros [[ok b] e].
  destruct ok; (apply quiet_bind;
    [apply quiet_sleep; unfold Step11Remove.REMOVE_RATE_SLEEP; lra
    |intros _; apply IH]).
Qed.

Lemma quiet_remove_batches (offer iname : string) (batches : list (list Z)) :
  forall (rm : list Z) (fl : list Step11Remove.FailedRow),
    returns_quietly (Step11Remove.remove_batches E D batches offer iname rm fl).
Proof.
  induction batches as [|b batches IH]; intros rm fl; [apply quiet_ret|].
  cbn [Step11Remove.remove_batches].
  apply quiet_bind.
  { apply quiet_retry_loop. lra. }
  intros [[ok body] e]. destruct ok.
  - apply quiet_bind;
      [apply quiet_sleep; unfold Step11Remove.REMOVE_RATE_SLEEP; lra
      |intros _; apply IH].
  - apply quiet_bind; [apply quiet_remove_each|]. intros [rm1 fl1]. apply IH.
Qed.

Lemma quiet_remove_chunked (offer : string) (vids : list string)
      (names : list (string * string)) (size : nat) :
  (0 < size)%nat ->
  returns_quietly (Step11Remove.remove_variants_chunked E D offer vids names size).
Proof.
  intros Hs. unfold Step11Remove.remove_variants_chunked.
  destruct (Nat.eqb_spec size 0) as [->|_]; [lia|].
  apply quiet_bind; [apply quiet_remove_batches|].
  intros [rm fl]. apply quiet_ret.
Qed.

End Removal.

Lemma removal_booked_start (offer : string) (rm : list Z)
      (fl : list Step11Remove.FailedRow) :
  removal_booked offer [] rm fl (rm, fl).
Proof.
  exists [], []. cbn [fst snd map app]. rewrite !app_nil_r.
  repeat split; constructor.
Qed.

Lemma removal_booked_then (offer : string) (b rest rm : list Z)
      (fl : list Step11Remove.FailedRow)
      (mid out : list Z * list Step11Remove.FailedRow) :
  removal_booked offer b rm fl mid ->
  removal_booked offer rest (fst mid) (snd mid) out ->
  removal_booked offer (b ++ rest) rm fl out.
Proof.
  intros (a1 & f1 & Ha1 & Hf1 & Hp1 & Hr1) (a2 & f2 & Ha2 & Hf2 & Hp2 & Hr2).
  exists (a1 ++ a2), (f1 ++ f2).
  rewrite Ha2, Hf2, Ha1, Hf1, <- !app_assoc.
  split; [reflexivity|]. split; [reflexivity|]. split.
  - rewrite map_app.
    apply Permutation_trans
      with ((a1 ++ map Step11Remove.f_variant_id f1)
            ++ (a2 ++ map Step11Remove.f_variant_id f2)).
    + rewrite <- !app_assoc. apply Permutation_app_head.
      apply Permutation_app_swap_app.
    + now apply Permutation_app.
  - apply Forall_app. now split.
Qed.

Lemma removal_booked_whole (offer : string) (b rm : list Z)
      (fl : list Step11Remove.FailedRow) :
  removal_booked offer b rm fl (rm ++ b, fl).
Proof.
  exists b, []. cbn [fst snd map]. rewrite !app_nil_r.
  repeat split; [apply Permutation_refl | constructor].
Qed.

Lemma removal_booked_failed (offer iname err : string) (v : Z) (rm : list Z)
      (fl : list Step11Remove.FailedRow) :
  removal_booked offer [v] rm fl
    (rm, fl ++ [Step11Remove.mkFailed "remove" offer v iname err]).
Proof.
  exists [], [Step11Remove.mkFailed "remove" offer v iname err].
  cbn [fst snd map app Step11Remove.f_variant_id]. rewrite app_nil_r.
  repeat split; [apply Permutation_refl|].
  constructor; [split; reflexivity | constructor].
Qed.

Lemma NoDup_app_disjoint {A : Type} (l1 l2 : list A) (a : A) :
  NoDup (l1 ++ l2) -> In a l1 -> ~ In a l2.
Proof.
  intros Hnd Hin H2. apply in_split in Hin. destruct Hin as (p & q & ->).
  rewrite <- app_assoc in Hnd. cbn [app] in Hnd.
  apply NoDup_remove_2 in Hnd. apply Hnd.
  apply in_or_app. right. apply in_or_app. now right.
Qed.

Section Books.
Context (E : Env) (D : DeleteApi E) (offer iname : string).

Lemma remove_each_books (batch : list Z) :
  forall (rm : list Z) (fl : list Step11Remove.FailedRow),
    ensures (removal_booked offer batch rm fl)
      (Step11Remove.remove_each E D batch offer iname rm fl).
Proof.
  induction batch as [|v batch IH]; intros rm fl.
  - apply ensures_ret, removal_booked_start.
  - cbn [Step11Remove.remove_each].
    eapply ensures_bind; [apply ensures_any|]. intros [[ok b] e] _.
    change (v :: batch) with ([v] ++ batch).
    destruct ok; cbv iota;
      (eapply ensures_bind; [apply ensures_any|]); intros _ _;
      (eapply ensures_weaken; [|apply IH]); intros out Hout.
    + apply removal_booked_then with (mid := (rm ++ [v], fl));
        [apply removal_booked_whole | exact Hout].
    + apply removal_booked_then
        with (mid := (rm, fl ++ [Step11Remove.mkFailed "remove" offer v iname
                                   (Step11Remove.error_or_unknown e)]));
        [apply removal_booked_failed | exact Hout].
Qed.

Lemma remove_batches_books (batches : list (list Z)) :
  forall (rm : list Z) (fl : list Step11Remove.FailedRow),
    ensures (removal_booked offer (List.concat batches) rm fl)
      (Step11Remove.remove_batches E D batches offer iname rm fl).
Proof.
  induction batches as [|b batches IH]; intros rm fl.
  - apply ensures_ret, removal_booked_start.
  - cbn [Step11Remove.remove_batches List.concat].
    eapply ensures_bind; [apply ensures_any|]. intros [[ok body] e] _.
    destruct ok.
    + eapply ensures_bind; [apply ensures_any|]. intros _ _.
      eapply ensures_weaken; [|apply IH]. intros out Hout.
      apply removal_booked_then with (mid := (rm ++ b, fl));
        [apply removal_booked_whole | exact Hout].
    + apply ensures_bind with (R1 := removal_booked offer b rm fl).
      { apply remove_each_books. }
      intros [rm1 fl1] H1.
      eapply ensures_weaken; [|apply IH]. intros out Hout.
      apply removal_booked_then with (mid := (rm1, fl1)); [exact H1 | exact Hout].
Qed.

End Books.

Lemma removal_booked_accounts (offer iname : string) (vids : list string)
      (rm : list Z) (fl : list Step11Remove.FailedRow) :
  removal_booked offer (Step11Remove.unique_vids vids) [] [] (rm, fl) ->
  removal_accounts offer vids
    (Step11Remove.mkRemoveSummary offer iname
       (List.length (Step11Remove.unique_vids vids))
       (List.length rm) (List.length fl) (firstn 10 rm) (firstn 5 fl) fl).
Proof.
  intros (a & f & Ha & Hf & Hp & Hrows). cbn [fst snd app] in Ha, Hf. subst a f.
  assert (Hnd : NoDup (rm ++ map Step11Remove.f_variant_id fl)).
  { eapply Permutation_NoDup; [apply Permutation_sym, Hp|].
    unfold Step11Remove.unique_vids. apply sorted_set_spec. }
  unfold removal_accounts.
  cbn [Step11Remove.offer_id Step11Remove.requested Step11Remove.removed_ok_count
       Step11Remove.failed_count Step11Remove.removed_ok_sample
       Step11Remove.failed].
  split; [reflexivity|]. split; [reflexivity|]. split.
  { apply Permutation_length in Hp. rewrite length_app, length_map in Hp. lia. }
  split; [reflexivity|]. split; [now apply NoDup_app_remove_l in Hnd|]. split.
  { apply NoDup_app_remove_r in Hnd.
    rewrite <- (firstn_skipn 10 rm) in Hnd. now apply NoDup_app_remove_r in Hnd. }
  split.
  - intros z Hz. apply Step09Whole.incl_firstn in Hz. split.
    + eapply Permutation_in; [exact Hp|]. apply in_or_app. now left.
    + now apply (NoDup_app_disjoint _ _ z Hnd).
  - intros r Hr. split.
    + eapply Permutation_in; [exact Hp|]. apply in_or_app. right.
      now apply in_map.
    + rewrite Forall_forall in Hrows. now apply Hrows.
Qed.

Lemma remove_chunked_accounts (E : Env) (D : DeleteApi E) (offer : string)
      (vids : list string) (names : list (string * string)) (size : nat) :
  ensures (removal_accounts offer vids)
    (Step11Remove.remove_variants_chunked E D offer vids names size).
Proof.
  unfold Step11Remove.remove_variants_chunked.
  destruct (Nat.eqb_spec size 0) as [->|Hs]; [apply ensures_raise|].
  eapply ensures_bind; [apply remove_batches_books|].
  intros [rm fl] Hb. apply ensures_ret.
  apply removal_booked_accounts.
  unfold chunked in Hb.
  rewrite ChunkFacts.chunked_from_concat in Hb by lia. exact Hb.
Qed.

(** X13. Step 11, [remove_variants_chunked]. With the two settings of the
    end point in place and a positive batch size it always returns a
    summary, whatever the remote does, network errors included, and sends
    no POST; and the summary it returns accounts for the ids: every
    distinct integer among [vids] is counted once, as removed or as
    failed. *)
Theorem X_removal_returns_and_accounts_for_every_id :
  forall (E : Env) (D : DeleteApi E) (offer : string) (vids : list string)
         (names : list (string * string)) (size : nat),
    ensures (removal_accounts offer vids)
      (Step11Remove.remove_variants_chunked E D offer vids names size) /\
    (truthy (STOQ_API_BASE E) = true ->
     truthy (STOQ_API_ACCESS_KEY E) = true ->
     (0 < size)%nat ->
     returns_quietly
       (Step11Remove.remove_variants_chunked E D offer vids names size)).
Proof.
  intros E D offer vids names size. split.
  - apply remove_chunked_accounts.
  - intros Hbase Hkey Hs. now apply quiet_remove_chunked.
Qed.

Lemma X_removal_witness :
  removal_accounts "offer-42" ["3"; "1"; "x"; "3"]
    (Step11Remove.mkRemoveSummary "offer-42" "" 2 1 1 [1%Z]
       [Step11Remove.mkFailed "remove" "offer-42" 3 "" "HTTP 404: Not Found"]
       [Step11Remove.mkFailed "remove" "offer-42" 3 "" "HTTP 404: Not Found"]) /\
  returns_quietly
    (Step11Remove.remove_variants_chunked Scenario.bad2 Scenario.cut_off
       "offer-42" ["3"; "1"; "x"; "3"] [] 10).
Proof.
  split.
  - apply (proj1 (X_removal_returns_and_accounts_for_every_id Scenario.bad2
                    Scenario.keeps_3 "offer-42" ["3"; "1"; "x"; "3"] [] 10)
             (Scenario.start Scenario.bad2 tt) _
             (snd (Step11Remove.remove_variants_chunked Scenario.bad2
                     Scenario.keeps_3 "offer-42" ["3"; "1"; "x"; "3"] [] 10
                     (Scenario.start Scenario.bad2 tt)))).
    vm_compute. reflexivity.
  - apply (proj2 (X_removal_returns_and_accounts_for_every_id Scenario.bad2
                    Scenario.cut_off "offer-42" ["3"; "1"; "x"; "3"] [] 10)).
    + reflexivity.
    + reflexivity.
    + lia.
Defined.

Lemma only_ret {E : Env} {A : Type} (a : A) : only_removes (ret (E := E) a).
Proof. intros w. repeat split. Qed.

Lemma only_raise {E : Env} {A : Type} (e : Exn) :
  only_removes (raise (E := E) (A := A) e).
Proof. intros w. repeat split. Qed.

Lemma only_bind {E : Env} {A B : Type} (m : M E A) (k : A -> M E B) :
  only_removes m -> (forall a, only_removes (k a)) -> only_removes (bind m k).
Proof.
  intros Hm Hk w. unfold bind. destruct (Hm w) as (H1 & H2 & H3).
  destruct (m w) as [[a|e] w1]; cbn [snd] in *.
  - destruct (Hk a w1) as (K1 & K2 & K3). repeat split; congruence.
  - repeat split; assumption.
Qed.

Lemma only_sleep {E : Env} (d : Q) : only_removes (sleep (E := E) d).
Proof. intros w. unfold sleep. destruct (Qle_bool 0 d); repeat split. Qed.

Section OnlyRemoves.
Context (E : Env) (D : DeleteApi E).

Lemma only_delete (req : Request) :
  only_removes (Step11Remove.requests_delete E D req).
Proof.
  intros w. unfold Step11Remove.requests_delete.
  destruct (remote_delete D (w_remote w) req) as [[o d] s]. repeat split.
Qed.

Lemma only_with_retries_from (req : Request) (attempts : list Z) :
  forall last_err : option string,
    only_removes (Step11Remove.with_retries_from E D attempts req last_err).
Proof.
  induction attempts as [|a rest IH]; intros last_err; [apply only_ret|].
  cbn [Step11Remove.with_retries_from].
  apply only_bind; [apply only_delete|]. intros [o msg].
  assert (Hgo : forall le,
             only_removes
               (bind (if (a <? Step11Remove.RETRY_TIMES)%Z
                      then sleep (Step11Remove.RETRY_BASE_SLEEP
                                  * inject_Z (2 ^ (a - 1)))
                      else ret tt)
                  (fun _ => Step11Remove.with_retries_from E D rest req le))).
  { intros le. apply only_bind; [|intros _; apply IH].
    destruct (a <? Step11Remove.RETRY_TIMES)%Z; [apply only_sleep | apply only_ret]. }
  destruct o as [|r]; [apply Hgo|].
  destruct (is_2xx (status_code r)); [apply only_ret | apply Hgo].
Qed.

Lemma only_call_remove (offer : string) (ids : list Z) :
  only_removes (Step11Remove.call_stoq_remove_variants E D offer ids).
Proof.
  unfold Step11Remove.call_stoq_remove_variants.
  destruct (negb (truthy (STOQ_API_BASE E))); [apply only_raise|].
  destruct (negb (truthy (STOQ_API_ACCESS_KEY E))); [apply only_raise|].
  apply only_bind; [apply only_with_retries_from|]. intros [[[ok r] b] e].
  apply only_bind; [apply only_sleep | intros _; apply only_ret].
Qed.

Lemma only_retry_loop (offer : string) (batch : list Z) (left : nat) :
  forall backoff : Q,
    only_removes (Step11Remove.retry_remove_loop E D left offer batch backoff).
Proof.
  induction left as [|left IH]; intros backoff;
    cbn [Step11Remove.retry_remove_loop];
    (apply only_bind; [apply only_call_remove|]); intros [[ok b] e];
    destruct ok; try apply only_ret.
  destruct (Step11Remove.transient_text e); [|apply only_ret].
  apply only_bind; [apply only_sleep|]. intros _. apply IH.
Qed.

Lemma only_remove_each (offer iname : string) (batch : list Z) :
  forall (rm : list Z) (fl : list Step11Remove.FailedRow),
    only_removes (Step11Remove.remove_each E D batch offer iname rm fl).
Proof.
  induction batch as [|v batch IH]; intros rm fl; [apply only_ret|].
  cbn [Step11Remove.remove_each].
  apply only_bind; [apply only_call_remove|]. intros [[ok b] e].
  destruct ok; (apply only_bind; [apply only_sleep | intros _; apply IH]).
Qed.

Lemma only_remove_batches (offer iname : string) (batches : list (list Z)) :
  forall (rm : list Z) (fl : list Step11Remove.FailedRow),
    only_removes (Step11Remove.remove_batches E D batches offer iname rm fl).
Proof.
  induction batches as [|b batches IH]; intros rm fl; [apply only_ret|].
  cbn [Step11Remove.remove_batches].
  apply only_bind; [apply only_retry_loop|].
  intros [[ok body] e]. destruct ok.
  - apply only_bind; [apply only_sleep | intros _; apply IH].
  - apply only_bind; [apply only_remove_each|]. intros [rm1 fl1]. apply IH.
Qed.

Lemma only_remove_chunked (offer : string) (vids : list string)
      (names : list (string * string)) (size : nat) :
  only_removes (Step11Remove.remove_variants_chunked E D offer vids names size).
Proof.
  unfold Step11Remove.remove_variants_chunked.
  destruct (size =? 0)%nat; [apply only_raise|].
  apply only_bind; [apply only_remove_batches|].
  intros [rm fl]. apply only_ret.
Qed.

Lemma only_get_variants (offer : string) :
  only_removes (Step12.get_variants_from_stoq_api E offer).
Proof.
  unfold Step12.get_variants_from_stoq_api.
  destruct (negb (truthy (STOQ_API_BASE E))); [apply only_raise|].
  apply only_bind.
  - intros w. unfold httpx_get.
    destruct (remote_get E (w_remote w) offer) as [o s]. repeat split.
  - intros [|status vs]; [apply only_raise|].
    destruct ((400 <=? status) && (status <? 600))%Z;
      [apply only_raise | apply only_ret].
Qed.

Lemma only_main_body (row : option string * option string * option string) :
  only_removes (Step11Remove.main_body E D row).
Proof.
  destruct row as [[[offer|] [plan|]] name]; cbn [Step11Remove.main_body];
    try apply only_raise.
  destruct (negb (truthy (Some offer)) || negb (truthy (Some plan)));
    [apply only_raise|].
  apply only_bind; [apply only_get_variants|]. intros api.
  apply only_bind; [apply only_ret|]. intros db.
  apply only_remove_chunked.
Qed.

Lemma only_main_loop (rows : list (option string * option string * option string)) :
  only_removes (Step11Remove.main_loop E D rows).
Proof.
  induction rows as [|row rows IH]; [apply only_ret|].
  cbn [Step11Remove.main_loop].
  apply only_bind; [apply only_main_body|]. intros sm.
  apply only_bind; [exact IH|]. intros ss. apply only_ret.
Qed.

Lemma main_body_names_the_offer (row : option string * option string * option string) :
  ensures (fun sm => fst (fst row) = Some (Step11Remove.offer_id sm))
    (Step11Remove.main_body E D row).
Proof.
  destruct row as [[[offer|] [plan|]] name]; cbn [Step11Remove.main_body];
    try apply ensures_raise.
  destruct (negb (truthy (Some offer)) || negb (truthy (Some plan)));
    [apply ensures_raise|].
  eapply ensures_bind; [apply ensures_any|]. intros api _.
  eapply ensures_bind; [apply ensures_any|]. intros db _.
  eapply ensures_weaken; [|apply remove_chunked_accounts].
  intros sm (Hoff & _). cbn [fst]. now rewrite Hoff.
Qed.

Lemma main_loop_names_the_offers
      (rows : list (option string * option string * option string)) :
  ensures (Forall2 (fun row sm => fst (fst row) = Some (Step11Remove.offer_id sm)) rows)
    (Step11Remove.main_loop E D rows).
Proof.
  induction rows as [|row rows IH].
  - apply ensures_ret. constructor.
  - cbn [Step11Remove.main_loop].
    eapply ensures_bind; [apply main_body_names_the_offer|]. intros sm Hsm.
    eapply ensures_bind; [exact IH|]. intros ss Hss.
    apply ensures_ret. now constructor.
Qed.

End OnlyRemoves.

(** X14. Step 11, [main]: whatever the remote and the data store hold, the
    run sends no POST, writes no file and marks no offer as done: it only
    removes, although it also computes what would have to be added. When
    it returns it has produced one summary for each offer row, in order,
    each naming the offer of its row. *)
Theorem X_step11_main_only_removes :
  forall (E : Env) (D : DeleteApi E),
    only_removes (Step11Remove.main E D) /\
    ensures
      (Forall2 (fun row sm => fst (fst row) = Some (Step11Remove.offer_id sm))
         (db_offers_update E))
      (Step11Remove.main E D).
Proof.
  intros E D. unfold Step11Remove.main. split.
  - apply only_bind.
    + unfold Step12.make_supabase.
      destruct (negb (truthy (SUPABASE_URL E)) || negb (truthy (SUPABASE_KEY E)));
        [apply only_raise | apply only_ret].
    + intros _. apply only_bind; [apply only_ret|]. intros rows.
      apply only_main_loop.
  - eapply ensures_bind; [apply ensures_any|]. intros _ _.
    apply ensures_bind with (R1 := fun rows => rows = db_offers_update E).
    + now apply ensures_ret.
    + intros rows ->. apply main_loop_names_the_offers.
Qed.

Lemma X_step11_main_witness :
  Forall2 (fun row sm => fst (fst row) = Some (Step11Remove.offer_id sm))
    (db_offers_update Scenario.stale_offer)
    [Step11Remove.mkRemoveSummary "offer-2" "" 1 1 0 [7%Z] [] []].
Proof.
  apply (proj2 (X_step11_main_only_removes Scenario.stale_offer
                  Scenario.obliging)
           (Scenario.start Scenario.stale_offer tt) _
           (snd (Step11Remove.main Scenario.stale_offer Scenario.obliging
                   (Scenario.start Scenario.stale_offer tt)))).
  vm_compute. reflexivity.
Defined.

End RemoveFacts.

(** ** A remote that accepts every call *)

Module AcceptFacts.
Import HalvingFacts CallFacts.
Local Open Scope string_scope.
Local Open Scope list_scope.

Lemma one_call_none (E : Env) (offer : string) (pmc : option Z) (w : World E) :
  one_call_each E offer pmc [] w w.
Proof. unfold one_call_each. cbn [map]. now rewrite app_nil_r. Qed.

Lemma one_call_more (E : Env) (offer : string) (pmc : option Z) (c : list Z)
      (chunks : list (list Z)) (w w' : World E) (d : Q) (s : RS E) :
  one_call_each E offer pmc chunks (posted w (mkRequest offer c pmc) d s) w' ->
  one_call_each E offer pmc (c :: chunks) w w'.
Proof.
  intros (Hp & Hs & Hf). unfold one_call_each.
  cbn [posted w_posts w_sleeps w_files map] in *.
  rewrite Hp, <- app_assoc. repeat split; assumption.
Qed.

Lemma filter_nothing_known (l : list Z) :
  filter (fun v => negb (Step09.memZ v [])) l = l.
Proof.
  induction l as [|a l IH]; [reflexivity|].
  cbn [filter]. unfold Step09.memZ at 1. cbn [existsb negb]. now rewrite IH.
Qed.

Section Accepting.
Context (E : Env).
Hypothesis Haccepts : always_accepts E.

Section Add.
Hypothesis Hbase : truthy (STOQ_API_BASE E) = true.
Context (offer : string) (pmc : option Z) (mr : Z) (base : Q).

Lemma add_chunks12_accepted (chunks : list (list Z)) :
  forall (ad sk : list Z) (fe : option string) (w : World E),
    exists w' : World E,
      Step12.add_chunks E chunks offer pmc mr base ad sk fe w
      = (Ok (ad ++ List.concat chunks, sk, fe), w') /\
      one_call_each E offer pmc chunks w w'.
Proof.
  induction chunks as [|c chunks IH]; intros ad sk fe w.
  - exists w. cbn [Step12.add_chunks List.concat]. rewrite app_nil_r.
    split; [reflexivity | apply one_call_none].
  - destruct (Haccepts (w_remote w) (mkRequest offer c pmc))
      as (r & d & s & Hpost & H2).
    destruct (Bisection11.status_2xx_final r H2) as (Hfin & j & Hres).
    cbn [Step12.add_chunks]. unfold bind at 1.
    rewrite (add_chunk_locked_final E Hbase offer c pmc mr base w r d s
               Hpost Hfin (or_introl H2)).
    rewrite Hres.
    destruct (IH (ad ++ c) sk fe (posted w (mkRequest offer c pmc) d s))
      as (w' & Hrun & Hcalls).
    exists w'. rewrite Hrun. cbn [List.concat]. rewrite <- app_assoc.
    split; [reflexivity|]. eapply one_call_more. exact Hcalls.
Qed.

Lemma add_chunks11_accepted (chunks : list (list Z)) :
  forall (ad sk : list Z) (fe : option string) (w : World E),
    exists w' : World E,
      Step11.add_chunks E chunks offer pmc mr base ad sk fe w
      = (Ok (ad ++ List.concat chunks, sk, fe), w') /\
      one_call_each E offer pmc chunks w w'.
Proof.
  induction chunks as [|c chunks IH]; intros ad sk fe w.
  - exists w. cbn [Step11.add_chunks List.concat]. rewrite app_nil_r.
    split; [reflexivity | apply one_call_none].
  - destruct (Haccepts (w_remote w) (mkRequest offer c pmc))
      as (r & d & s & Hpost & H2).
    destruct (Bisection11.status_2xx_final r H2) as (Hfin & j & Hres).
    cbn [Step11.add_chunks]. unfold bind at 1, Step11._try_add_chunk.
    rewrite (try_add_chunk_final E Hbase offer c pmc mr base w r d s Hpost Hfin).
    rewrite Hres.
    destruct (IH (ad ++ c) sk fe (posted w (mkRequest offer c pmc) d s))
      as (w' & Hrun & Hcalls).
    exists w'. rewrite Hrun. cbn [List.concat]. rewrite <- app_assoc.
    split; [reflexivity|]. eapply one_call_more. exact Hcalls.
Qed.

Lemma call12_accepted (ids : list Z) (size : nat) (wsf : bool) (prefix : string)
      (w : World E) :
  (0 < size)%nat ->
  exists w' : World E,
    Step12.call_stoq_add_variants E offer ids pmc size mr base wsf prefix w
    = (Ok ((0 <? List.length ids)%nat,
           Step12.mkSummary offer (List.length ids) (List.length ids) 0
             (firstn 10 ids) [] None,
           None), w') /\
    one_call_each E offer pmc (chunked ids size) w w'.
Proof.
  intros Hs. unfold Step12.call_stoq_add_variants.
  destruct (Nat.eqb_spec size 0) as [->|_]; [lia|].
  destruct (add_chunks12_accepted (chunked ids size) [] [] None w)
    as (w' & Hrun & Hcalls).
  exists w'. unfold bind at 1. rewrite Hrun. cbn [app].
  unfold chunked at 1 2 3. rewrite ChunkFacts.chunked_from_concat by lia.
  split; [|exact Hcalls].
  destruct wsf; unfold bind, ret; cbn [List.length firstn];
    unfold Step12.overall_ok; cbn [List.length Nat.eqb orb];
    now rewrite andb_true_r.
Qed.

Lemma call11_accepted (ids : list Z) (size : nat) (wsf : bool) (prefix : string)
      (w : World E) :
  (0 < size)%nat ->
  exists w' : World E,
    Step11.call_stoq_add_variants E offer ids pmc size mr base wsf prefix w
    = (Ok ((0 <? List.length ids)%nat,
           Step12.mkSummary offer (List.length ids) (List.length ids) 0
             (firstn 10 ids) [] None,
           None), w') /\
    one_call_each E offer pmc (chunked ids size) w w'.
Proof.
  intros Hs. unfold Step11.call_stoq_add_variants.
  destruct (Nat.eqb_spec size 0) as [->|_]; [lia|].
  destruct (add_chunks11_accepted (chunked ids size) [] [] None w)
    as (w' & Hrun & Hcalls).
  exists w'. unfold bind at 1. rewrite Hrun. cbn [app].
  unfold chunked at 1 2 3. rewrite ChunkFacts.chunked_from_concat by lia.
  split; [|exact Hcalls].
  destruct wsf; unfold bind, ret; cbn [List.length firstn];
    unfold Step12.overall_ok; cbn [List.length Nat.eqb orb];
    now rewrite andb_true_r.
Qed.

End Add.

Lemma add_chunk09_accepted (plan : string) (batch : list Z) (w : World E) :
  batch <> [] ->
  exists (d : Q) (s : RS E),
    Step09._add_chunk_or_bisect E plan batch w
    = (Ok (true, []), posted w (mkRequest plan batch None) d s).
Proof.
  intros Hne.
  destruct (Haccepts (w_remote w) (mkRequest plan batch None))
    as (r & d & s & Hpost & H2).
  exists d, s. unfold Step09._add_chunk_or_bisect.
  destruct batch as [|x l]; [congruence|].
  cbn [Step09.add_chunk_rec]. unfold bind at 1.
  rewrite (Step09Calls.post_final E _ w r d s Hpost (or_introl H2)).
  now rewrite H2.
Qed.

Lemma chunks_loop_accepted (plan : string) (chunks : list (list Z)) :
  forall w : World E,
    Forall (fun c => c <> []) chunks ->
    exists w' : World E,
      Step09.chunks_loop E chunks plan [] [] w
      = (Ok (true, Step09.AllProcessed []), w') /\
      one_call_each E plan None chunks w w'.
Proof.
  induction chunks as [|c chunks IH]; intros w Hne.
  - exists w. split; [reflexivity | apply one_call_none].
  - inversion Hne as [|? ? Hc Hrest]; subst.
    cbn [Step09.chunks_loop]. rewrite filter_nothing_known.
    destruct (add_chunk09_accepted plan c w Hc) as (d & s & Hrun).
    destruct c as [|x l]; [congruence|].
    unfold bind at 1. rewrite Hrun. cbn [app].
    destruct (IH (posted w (mkRequest plan (x :: l) None) d s) Hrest)
      as (w' & Hloop & Hcalls).
    exists w'. split; [exact Hloop|]. eapply one_call_more. exact Hcalls.
Qed.

Lemma stoq_add09_accepted (plan : string) (ids : list Z) (w : World E) :
  exists w' : World E,
    Step09.stoq_add_variants E plan ids w
    = (Ok (true, match ids with
                 | [] => Step09.NoVariants
                 | _ => Step09.AllProcessed []
                 end), w') /\
    one_call_each E plan None (chunked ids Step09.CHUNK_SIZE) w w'.
Proof.
  unfold Step09.stoq_add_variants. destruct ids as [|x l].
  - exists w. split; [reflexivity | apply one_call_none].
  - apply chunks_loop_accepted.
    eapply Forall_impl;
      [|apply (ChunkFacts.chunked_from_sizes Step09.CHUNK_SIZE
                 (List.length (x :: l)) (x :: l))].
    + intros c Hc ->. cbn in Hc. lia.
    + unfold Step09.CHUNK_SIZE. lia.
Qed.

End Accepting.

(** X15. When the remote accepts every call, the add operation of each step
    sends every chunk exactly once and in order, never sleeps and writes
    no file; Steps 11 and 12 report every id as added, none skipped and no
    error, and answer [True] unless the list is empty; Step 09 answers
    [True] with an empty skipped list. *)
Theorem X_accepted_chunks_are_sent_once :
  forall E : Env,
    always_accepts E ->
    (truthy (STOQ_API_BASE E) = true ->
     forall (offer : string) (ids : list Z) (pmc : option Z) (size : nat)
            (mr : Z) (base : Q) (wsf : bool) (prefix : string) (w : World E),
       (0 < size)%nat ->
       let summary :=
         (Ok ((0 <? List.length ids)%nat,
              Step12.mkSummary offer (List.length ids) (List.length ids) 0
                (firstn 10 ids) [] None,
              None (A := string))) in
       (exists w' : World E,
           Step12.call_stoq_add_variants E offer ids pmc size mr base wsf prefix w
           = (summary, w') /\
           one_call_each E offer pmc (chunked ids size) w w') /\
       (exists w' : World E,
           Step11.call_stoq_add_variants E offer ids pmc size mr base wsf prefix w
           = (summary, w') /\
           one_call_each E offer pmc (chunked ids size) w w')) /\
    (forall (plan : string) (ids : list Z) (w : World E),
        exists w' : World E,
          Step09.stoq_add_variants E plan ids w
          = (Ok (true, match ids with
                       | [] => Step09.NoVariants
                       | _ => Step09.AllProcessed []
                       end), w') /\
          one_call_each E plan None (chunked ids Step09.CHUNK_SIZE) w w').
Proof.
  intros E Haccepts. split.
  - intros Hbase offer ids pmc size mr base wsf prefix w Hs summary. split.
    + now apply call12_accepted.
    + now apply call11_accepted.
  - intros plan ids w. now apply stoq_add09_accepted.
Qed.

Lemma X_accepted_chunks_witness :
  exists w' : World Scenario.second_offer,
    Step12.call_stoq_add_variants Scenario.second_offer "offer-2" [1; 2; 3]%Z
      None 2 3 1 true "skipped" (Scenario.start Scenario.second_offer tt)
    = (Ok (true, Step12.mkSummary "offer-2" 3 3 0 [1; 2; 3]%Z [] None, None), w') /\
    one_call_each Scenario.second_offer "offer-2" None [[1; 2]; [3]]%Z
      (Scenario.start Scenario.second_offer tt) w'.
Proof.
  apply (proj1 (proj1 (X_accepted_chunks_are_sent_once Scenario.second_offer
                         (fun s req =>
                            ex_intro _ Scenario.ok_response
                              (ex_intro _ (1 # 10)
                                 (ex_intro _ tt (conj eq_refl eq_refl)))))
                  eq_refl "offer-2" [1; 2; 3]%Z None 2%nat 3%Z 1 true "skipped"
                  (Scenario.start Scenario.second_offer tt) ltac:(lia))).
Defined.

End AcceptFacts.

(** ** Step 09: what is reported, and what is marked as done *)

Module ReportFacts.
Import HalvingFacts EffectFacts BookFacts SortFacts.
Local Open Scope string_scope.
Local Open Scope list_scope.

Lemma skipped_none (batch : list Z) (ok : bool) : skipped_of batch (ok, []).
Proof. split; [intros x [] | intros _; constructor]. Qed.

Lemma skipped_all (batch : list Z) (ok : bool) : skipped_of batch (ok, batch).
Proof. split; [apply incl_refl | auto]. Qed.

Lemma skipped_of_part (b batch : list Z) (out : bool * list Z) :
  incl b batch -> (NoDup batch -> NoDup b) ->
  skipped_of b out -> skipped_of batch out.
Proof.
  intros Hin Hnd [H1 H2]. split.
  - eapply incl_tran; eassumption.
  - intros H. apply H2, Hnd, H.
Qed.

Lemma strip_part (batch existing : list Z) :
  incl (Step09.strip_existing batch existing) batch /\
  (NoDup batch -> NoDup (Step09.strip_existing batch existing)).
Proof.
  split; [apply incl_filter | apply NoDup_filter].
Qed.

Section Report.
Context (E : Env).

Lemma bisect_with_skipped (recur : list Z -> M E (bool * list Z)) (b : list Z) :
  (forall b', ensures (skipped_of b') (recur b')) ->
  ensures (skipped_of b) (Step09.bisect_with E recur b).
Proof.
  intros Hrec. unfold Step09.bisect_with.
  assert (Hboth :
    ensures (skipped_of b)
      (bind (recur (firstn (List.length b / 2) b))
         (fun x => match x with
                   | (ok_left, skipped_left) =>
                       bind (recur (skipn (List.length b / 2) b))
                         (fun y => match y with
                                   | (ok_right, skipped_right) =>
                                       ret (ok_left && ok_right,
                                            skipped_left ++ skipped_right)
                                   end)
                   end))).
  { eapply ensures_bind; [apply Hrec|]. intros [okl skl] [Hl1 Hl2].
    eapply ensures_bind; [apply Hrec|]. intros [okr skr] [Hr1 Hr2].
    apply ensures_ret. cbn [snd] in *. split.
    - intros x Hx. rewrite <- (firstn_skipn (List.length b / 2) b).
      apply in_app_or in Hx. apply in_or_app.
      destruct Hx as [Hx|Hx]; [left; now apply Hl1 | right; now apply Hr1].
    - intros Hnd. rewrite <- (firstn_skipn (List.length b / 2) b) in Hnd.
      apply NoDup_app.
      + apply Hl2. now apply NoDup_app_remove_r in Hnd.
      + apply Hr2. now apply NoDup_app_remove_l in Hnd.
      + intros x Hx Hx'. apply Hl1 in Hx. apply Hr1 in Hx'.
        now apply (RemoveFacts.NoDup_app_disjoint _ _ x Hnd). }
  destruct b as [|x [|y l]]; [exact Hboth | | exact Hboth].
  apply ensures_ret. apply skipped_all.
Qed.

Lemma add_chunk_rec_skipped (plan : string) (fuel : nat) :
  forall batch : list Z,
    ensures (skipped_of batch) (Step09.add_chunk_rec E fuel plan batch).
Proof.
  induction fuel as [|fuel IH]; intros batch; [apply ensures_raise|].
  destruct batch as [|x l]; [apply ensures_ret, skipped_none|].
  set (batch := x :: l).
  assert (Hbis : forall b, incl b batch -> (NoDup batch -> NoDup b) ->
             ensures (skipped_of batch)
               (Step09.bisect_with E (Step09.add_chunk_rec E fuel plan) b)).
  { intros b Hb Hnd. eapply ensures_weaken; [|apply bisect_with_skipped, IH].
    intros out. now apply skipped_of_part. }
  cbn [Step09.add_chunk_rec]. fold batch.
  eapply ensures_bind; [apply ensures_any|]. intros resp _.
  destruct (is_2xx (status_code resp)); [apply ensures_ret, skipped_none|].
  destruct (status_code resp =? 422)%Z; [|apply ensures_ret, skipped_all].
  destruct (Step09.existing_of resp) as [|e1 es] eqn:He1;
    [apply Hbis; [apply incl_refl | auto]|].
  rewrite <- He1.
  destruct (strip_part batch (Step09.existing_of resp)) as [Hr1 Hr2].
  destruct (Step09.strip_existing batch (Step09.existing_of resp))
    as [|m ms] eqn:Hr; [apply ensures_ret, skipped_none|].
  rewrite <- Hr in *.
  eapply ensures_bind; [apply ensures_any|]. intros resp2 _.
  destruct (is_2xx (status_code resp2)); [apply ensures_ret, skipped_none|].
  destruct (negb (status_code resp2 =? 422)%Z).
  { apply ensures_ret. split; [exact Hr1 | exact Hr2]. }
  destruct (Step09.existing_of resp2) as [|e2 es2] eqn:He2;
    [now apply Hbis|].
  rewrite <- He2.
  destruct (strip_part (Step09.strip_existing batch (Step09.existing_of resp))
              (Step09.existing_of resp2)) as [Hs1 Hs2].
  destruct (Step09.strip_existing
              (Step09.strip_existing batch (Step09.existing_of resp))
              (Step09.existing_of resp2)) as [|m2 ms2] eqn:Hr';
    [apply ensures_ret, skipped_none|].
  rewrite <- Hr' in *.
  eapply ensures_bind; [apply ensures_any|]. intros resp3 _.
  destruct (is_2xx (status_code resp3)); [apply ensures_ret, skipped_none|].
  apply Hbis; [eapply incl_tran; eassumption | auto].
Qed.

Lemma chunks_loop_reports (plan : string) (ids : list Z) (chunks : list (list Z)) :
  ids <> [] ->
  Forall (fun c => incl c ids) chunks ->
  forall known skipped : list Z,
    incl skipped ids ->
    ensures (report09 ids) (Step09.chunks_loop E chunks plan known skipped).
Proof.
  intros Hne. induction 1 as [|c chunks Hc _ IH]; intros known skipped Hsk.
  - apply ensures_ret. unfold report09. cbn [fst snd].
    destruct (sorted_set_spec skipped) as (Hs & _ & Hin).
    split; [reflexivity|]. split; [exact Hne|]. split; [exact Hs|].
    intros z Hz. apply Hsk. now apply Hin.
  - cbn [Step09.chunks_loop].
    assert (Hb : incl (filter (fun v => negb (Step09.memZ v known)) c) ids).
    { eapply incl_tran; [apply incl_filter | exact Hc]. }
    destruct (filter (fun v => negb (Step09.memZ v known)) c) as [|b bs] eqn:Hf;
      [now apply IH|].
    unfold Step09._add_chunk_or_bisect.
    eapply ensures_bind; [apply add_chunk_rec_skipped|].
    intros [ok sk] [Hsk1 _]. cbn [snd] in Hsk1.
    assert (Hsk' : incl (skipped ++ sk) ids).
    { apply incl_app; [exact Hsk | eapply incl_tran; eassumption]. }
    destruct ok; [now apply IH|].
    apply ensures_ret. unfold report09. cbn [fst snd].
    split; [reflexivity|]. split; [discriminate|]. split; [exact Hb|].
    eapply incl_tran; [apply Step09Whole.incl_firstn | exact Hsk'].
Qed.

Lemma stoq_add_variants_reports (plan : string) (ids : list Z) :
  ensures (report09 ids) (Step09.stoq_add_variants E plan ids).
Proof.
  unfold Step09.stoq_add_variants. destruct ids as [|x l].
  - apply ensures_ret. unfold report09. cbn. now split.
  - apply chunks_loop_reports; [discriminate | | intros z []].
    apply Step09Whole.chunked_incl.
Qed.

End Report.

(** X16. Step 09, whatever the remote answers: the ids [_add_chunk_or_bisect]
    reports as skipped are members of its batch, none twice when the batch
    holds none twice; and [stoq_add_variants] answers [True] with ids of
    the given list, each once and in rising order, as skipped, or [False]
    with a failed chunk that is not empty and holds only given ids. *)
Theorem X_step09_reports_only_given_ids :
  forall (E : Env) (plan : string) (ids : list Z),
    ensures (skipped_of ids) (Step09._add_chunk_or_bisect E plan ids) /\
    ensures (report09 ids) (Step09.stoq_add_variants E plan ids).
Proof.
  intros E plan ids. split.
  - apply add_chunk_rec_skipped.
  - apply stoq_add_variants_reports.
Qed.

Lemma X_step09_reports_witness :
  report09 [5; 2; 3; 3; 9]%Z (true, Step09.AllProcessed [2%Z]).
Proof.
  apply (proj2 (X_step09_reports_only_given_ids Scenario.bad2 "plan-42"
                  [5; 2; 3; 3; 9]%Z)
           (Scenario.start Scenario.bad2 tt) _
           (snd (Step09.stoq_add_variants Scenario.bad2 "plan-42"
                   [5; 2; 3; 3; 9]%Z (Scenario.start Scenario.bad2 tt)))).
  vm_compute. reflexivity.
Defined.

End ReportFacts.

(** ** The runs: what Step 09 marks as done, what Step 12 sends *)

Module MainFacts.
Import HalvingFacts EffectFacts BookFacts AddWhole.
Local Open Scope string_scope.
Local Open Scope list_scope.

Lemma keeps_ret {E : Env} {A X : Type} (f : World E -> X) (a : A) :
  keeps f (ret (E := E) a).
Proof. intros w. reflexivity. Qed.

Lemma keeps_raise {E : Env} {A X : Type} (f : World E -> X) (e : Exn) :
  keeps f (raise (E := E) (A := A) e).
Proof. intros w. reflexivity. Qed.

Lemma keeps_bind {E : Env} {A B X : Type} (f : World E -> X)
      (m : M E A) (k : A -> M E B) :
  keeps f m -> (forall a, keeps f (k a)) -> keeps f (bind m k).
Proof.
  intros Hm Hk w. unfold bind. specialize (Hm w).
  destruct (m w) as [[a|e] w1]; cbn [snd] in *.
  - rewrite (Hk a w1). exact Hm.
  - exact Hm.
Qed.

Lemma done_sleep {E : Env} (d : Q) : keeps w_done (sleep (E := E) d).
Proof. intros w. unfold sleep. now destruct (Qle_bool 0 d). Qed.

Lemma done_post {E : Env} (req : Request) :
  keeps w_done (requests_post (E := E) req).
Proof.
  intros w. unfold requests_post.
  now destruct (remote_post E (w_remote w) req) as [[o d] s].
Qed.

Section Marks.
Context (E : Env).

Lemma done_post_attempts (req : Request) (attempts : list Z) :
  forall (backoff : Q) (last : option Response),
    keeps w_done (Step09.post_attempts E attempts req backoff last).
Proof.
  induction attempts as [|a rest IH]; intros backoff last.
  - cbn [Step09.post_attempts]. destruct last; [apply keeps_ret | apply keeps_raise].
  - cbn [Step09.post_attempts].
    apply keeps_bind; [apply done_post|]. intros [|r].
    + destruct (a =? Step09.MAX_RETRIES)%Z; [apply keeps_raise|].
      apply keeps_bind; [apply done_sleep | intros _; apply IH].
    + destruct (is_2xx (status_code r)); [apply keeps_ret|].
      destruct (Step09.is_retried_status (status_code r) && (a <? Step09.MAX_RETRIES)%Z);
        [|apply keeps_ret].
      apply keeps_bind; [apply done_sleep | intros _; apply IH].
Qed.

Lemma done_post09 (req : Request) :
  keeps w_done (Step09._post_with_retries E req).
Proof. apply done_post_attempts. Qed.

Lemma done_bisect_with (recur : list Z -> M E (bool * list Z)) (b : list Z) :
  (forall b', keeps w_done (recur b')) ->
  keeps w_done (Step09.bisect_with E recur b).
Proof.
  intros Hrec. unfold Step09.bisect_with.
  destruct b as [|x [|y l]]; try apply keeps_ret;
    (apply keeps_bind; [apply Hrec|]); intros [okl skl];
    (apply keeps_bind; [apply Hrec|]); intros [okr skr]; apply keeps_ret.
Qed.

Lemma done_add_chunk_rec (plan : string) (fuel : nat) :
  forall batch : list Z,
    keeps w_done (Step09.add_chunk_rec E fuel plan batch).
Proof.
  induction fuel as [|fuel IH]; intros batch; [apply keeps_raise|].
  destruct batch as [|x l]; [apply keeps_ret|].
  assert (Hbis : forall b,
             keeps w_done (Step09.bisect_with E (Step09.add_chunk_rec E fuel plan) b)).
  { intros b. apply done_bisect_with, IH. }
  cbn [Step09.add_chunk_rec].
  apply keeps_bind; [apply done_post09|]. intros resp.
  destruct (is_2xx (status_code resp)); [apply keeps_ret|].
  destruct (status_code resp =? 422)%Z; [|apply keeps_ret].
  destruct (Step09.existing_of resp) as [|e1 es]; [apply Hbis|].
  destruct (Step09.strip_existing (x :: l) (e1 :: es)) as [|m ms];
    [apply keeps_ret|].
  apply keeps_bind; [apply done_post09|]. intros resp2.
  destruct (is_2xx (status_code resp2)); [apply keeps_ret|].
  destruct (negb (status_code resp2 =? 422)%Z); [apply keeps_ret|].
  destruct (Step09.existing_of resp2) as [|e2 es2]; [apply Hbis|].
  destruct (Step09.strip_existing (m :: ms) (e2 :: es2)) as [|m2 ms2];
    [apply keeps_ret|].
  apply keeps_bind; [apply done_post09|]. intros resp3.
  destruct (is_2xx (status_code resp3)); [apply keeps_ret | apply Hbis].
Qed.

Lemma done_chunks_loop (plan : string) (chunks : list (list Z)) :
  forall known skipped : list Z,
    keeps w_done (Step09.chunks_loop E chunks plan known skipped).
Proof.
  induction chunks as [|c chunks IH]; intros known skipped; [apply keeps_ret|].
  cbn [Step09.chunks_loop].
  destruct (filter (fun v => negb (Step09.memZ v known)) c) as [|b bs];
    [apply IH|].
  apply keeps_bind; [apply done_add_chunk_rec|].
  intros [ok sk]. destruct ok; [apply IH | apply keeps_ret].
Qed.

Lemma done_stoq_add_variants (plan : string) (ids : list Z) :
  keeps w_done (Step09.stoq_add_variants E plan ids).
Proof.
  unfold Step09.stoq_add_variants.
  destruct ids; [apply keeps_ret | apply done_chunks_loop].
Qed.

(** The loop of [main]: the offers it marks, in order. *)
Lemma main_loop_marks (offers : list OfferRow) :
  forall (succeeded : nat) (failures : list Step09.Failure) (w : World E)
         (run : Result (nat * list Step09.Failure) * World E),
    Step09.main_loop E offers succeeded failures w = run ->
    exists marked : list string,
      w_done (snd run) = w_done w ++ marked /\
      incl marked (map row_id (filter has_plan offers)) /\
      forall (s' : nat) (f' : list Step09.Failure),
        fst run = Ok (s', f') ->
        (succeeded + List.length marked <= s')%nat /\
        ((forall o, db_update_ok E o = true) ->
         s' = (succeeded + List.length marked)%nat).
Proof.
  induction offers as [|o offers IH]; intros succeeded failures w run Hrun.
  - exists []. subst run. cbn [Step09.main_loop ret fst snd]. rewrite app_nil_r.
    split; [reflexivity|]. split; [intros x []|].
    intros s' f' Heq. inversion Heq; subst. cbn [List.length]. split; [lia|].
    intros _. lia.
  - cbn [Step09.main_loop] in Hrun. cbn [filter]. unfold has_plan at 1.
    destruct (truthy (row_stoq_offer_id o)) eqn:Hp; [|exact (IH _ _ _ run Hrun)].
    unfold bind at 1, Step09.fetch_variant_ids_for_offer in Hrun.
    unfold ret at 1 in Hrun.
    set (ids := sortedZ (nodup Z.eq_dec
                   (Step09.coerce_rows (db_variant_ids E (row_id o))))) in Hrun.
    set (plan := match row_stoq_offer_id o with Some p => p | None => "" end)
      in Hrun.
    pose proof (done_stoq_add_variants plan ids w) as Hkeep.
    unfold bind at 1 in Hrun.
    destruct (Step09.stoq_add_variants E plan ids w) as [[[ok info]|e] w1];
      cbn [snd] in Hkeep.
    + destruct ok.
      * unfold bind at 1, try_except, Step09.mark_offer_done, db_mark_done in Hrun.
        destruct (db_update_ok E (row_id o)) eqn:Hup.
        -- destruct (IH _ _ _ run Hrun) as (marked & Hdone & Hincl & Hcount).
           exists (row_id o :: marked). rewrite Hdone.
           cbn [w_done map List.length]. rewrite Hkeep, <- app_assoc.
           split; [reflexivity|]. split.
           ++ intros x [<-|Hx]; [now left | right; now apply Hincl].
           ++ intros s' f' Heq. destruct (Hcount s' f' Heq) as [H1 H2].
              split; [lia|]. intros Hall. specialize (H2 Hall). lia.
        -- unfold ret at 1 in Hrun.
           destruct (IH _ _ _ run Hrun) as (marked & Hdone & Hincl & Hcount).
           exists marked. rewrite Hdone, Hkeep.
           split; [reflexivity|]. split.
           ++ intros x Hx. cbn [map]. right. now apply Hincl.
           ++ intros s' f' Heq. destruct (Hcount s' f' Heq) as [H1 H2].
              split; [lia|]. intros Hall.
              rewrite Hall in Hup. discriminate.
      * destruct (IH _ _ _ run Hrun) as (marked & Hdone & Hincl & Hcount).
        exists marked. rewrite Hdone, Hkeep.
        split; [reflexivity|]. split.
        -- intros x Hx. cbn [map]. right. now apply Hincl.
        -- exact Hcount.
    + exists []. subst run. cbn [fst snd]. rewrite app_nil_r.
      split; [now rewrite Hkeep|]. split; [intros x []|].
      intros s' f' Heq. discriminate.
Qed.

End Marks.

(** X17. Step 09, [main]: the offers marked [insert-completed] in a run are
    offers of the table that have a plan id; there are never more of them
    than offers counted as succeeded, and exactly as many when every status
    update goes through. An update that fails is swallowed: the offer still
    counts as succeeded and is not marked. *)
Theorem X_step09_marks_only_succeeded_offers :
  forall (E : Env) (w : World E),
    exists marked : list string,
      w_done (snd (Step09.main E w)) = w_done w ++ marked /\
      incl marked (map row_id (filter has_plan (db_offers_insert E))) /\
      forall (succeeded : nat) (failures : list Step09.Failure),
        fst (Step09.main E w) = Ok (succeeded, failures) ->
        (List.length marked <= succeeded)%nat /\
        ((forall o, db_update_ok E o = true) ->
         succeeded = List.length marked).
Proof.
  intros E w. unfold Step09.main.
  destruct (negb (truthy (STOQ_API_ACCESS_KEY E))).
  { exists []. cbn [raise fst snd]. rewrite app_nil_r.
    split; [reflexivity|]. split; [intros x []|]. intros s f Heq. discriminate. }
  destruct (negb (truthy (SUPABASE_URL E)) || negb (truthy (SUPABASE_KEY E))).
  { exists []. unfold bind, raise. cbn [fst snd]. rewrite app_nil_r.
    split; [reflexivity|]. split; [intros x []|]. intros s f Heq. discriminate. }
  change (bind (ret tt) (fun _ => Step09.main_loop E (db_offers_insert E) 0 []) w)
    with (Step09.main_loop E (db_offers_insert E) 0 [] w).
  destruct (main_loop_marks E (db_offers_insert E) 0 [] w _ eq_refl)
    as (marked & Hdone & Hincl & Hcount).
  exists marked. split; [exact Hdone|]. split; [exact Hincl|].
  intros s f Heq. destruct (Hcount s f Heq) as [H1 H2]. split; [lia|].
  intros Hall. specialize (H2 Hall). lia.
Qed.

Section Sends.
Context (E : Env).

Lemma calls_call12 (offer : string) (ids : list Z) (pmc : option Z) (cs : nat)
      (mr : Z) (base : Q) (wsf : bool) (pre : string) :
  calls_satisfy (within offer ids)
    (Step12.call_stoq_add_variants E offer ids pmc cs mr base wsf pre).
Proof.
  unfold Step12.call_stoq_add_variants.
  destruct (cs =? 0)%nat; [apply calls_raise|].
  apply calls_bind; [apply calls_add_chunks12, Step09Whole.chunked_incl|].
  intros [[ad sk] fe]. apply calls_bind; [|intros f; apply calls_ret].
  destruct wsf, sk; try apply calls_ret.
  apply calls_bind; [apply calls_write_file | intros _; apply calls_ret].
Qed.

Lemma calls_get_variants (P : Request -> Prop) (offer : string) :
  calls_satisfy P (Step12.get_variants_from_stoq_api E offer).
Proof.
  unfold Step12.get_variants_from_stoq_api.
  destruct (negb (truthy (STOQ_API_BASE E))); [apply calls_raise|].
  apply calls_bind.
  - intros w. exists []. unfold httpx_get.
    destruct (remote_get E (w_remote w) offer) as [o s].
    cbn [snd w_posts]. rewrite app_nil_r. split; [reflexivity | constructor].
  - intros [|status vs]; [apply calls_raise|].
    destruct ((400 <=? status) && (status <? 600))%Z;
      [apply calls_raise | apply calls_ret].
Qed.

Lemma to_add_int_wanted (plan : string) (api : list string) (z : Z) :
  In z (fst (Step12._coerce_ids_to_int
               (Step12.to_add api
                  (flat_map (fun o => map py_str (db_variant_ids E o)) [plan])))) ->
  exists v, In v (db_variant_ids E plan) /\ int_of_str (py_str v) = Some z.
Proof.
  unfold Step12._coerce_ids_to_int.
  set (db := flat_map (fun o => map py_str (db_variant_ids E o)) [plan]).
  destruct (RunFacts.coerce_split_spec (Step12.to_add api db)) as [Hok _].
  destruct (Step12.coerce_split (Step12.to_add api db)) as [ok bad].
  cbn [fst] in *. subst ok. intros Hz.
  apply in_flat_map in Hz. destruct Hz as (s & Hs & Hz).
  apply DifferencerFacts.to_add_In in Hs. destruct Hs as [Hs _].
  unfold db in Hs. cbn [flat_map] in Hs. rewrite app_nil_r in Hs.
  apply in_map_iff in Hs. destruct Hs as (v & <- & Hv).
  exists v. split; [exact Hv|].
  destruct (int_of_str (py_str v)); [|contradiction].
  destruct Hz as [->|[]]. reflexivity.
Qed.

Lemma calls_main_body (row : option string * option string * option string) :
  In row (db_offers_update E) ->
  calls_satisfy (wanted E) (Step12.main_body E row).
Proof.
  intros Hrow. destruct row as [[[offer|] [plan|]] name];
    cbn [Step12.main_body]; try apply calls_raise.
  destruct (negb (truthy (Some offer)) || negb (truthy (Some plan)));
    [apply calls_raise|].
  apply calls_bind; [apply calls_get_variants|]. intros api.
  unfold Step12.fetch_variants_for_offer_ids.
  unfold bind at 1, ret at 1.
  set (db := flat_map (fun o => map py_str (db_variant_ids E o)) [plan]).
  pose proof (to_add_int_wanted plan api) as Hw. fold db in Hw.
  destruct (Step12._coerce_ids_to_int (Step12.to_remove api db)) as [rem n1].
  destruct (Step12._coerce_ids_to_int (Step12.to_add api db)) as [add n2].
  cbn [fst] in Hw.
  apply calls_bind; [|intros r; apply calls_ret].
  destruct add as [|a add']; [apply calls_ret|].
  apply calls_bind; [|intros r; apply calls_ret].
  eapply calls_weaken; [|apply calls_call12].
  intros r [Hoff Hids]. exists plan, name. rewrite Hoff.
  split; [exact Hrow|]. intros z Hz. apply Hw, Hids, Hz.
Qed.

Lemma calls_main_loop (rows : list (option string * option string * option string)) :
  incl rows (db_offers_update E) ->
  calls_satisfy (wanted E) (Step12.main_loop E rows).
Proof.
  induction rows as [|row rows IH]; intros Hin; [apply calls_ret|].
  cbn [Step12.main_loop].
  apply calls_bind; [apply calls_main_body, Hin; now left|]. intros o.
  apply calls_bind; [apply IH; intros x Hx; apply Hin; now right|].
  intros os. apply calls_ret.
Qed.

End Sends.

(** X18. Step 12, [main]: whatever the remote answers, every call of the add
    end point that a run makes goes to an offer of the offers table, and
    carries only ids that are the integers of variants the data store
    lists for the plan of that offer. *)
Theorem X_step12_adds_only_what_the_store_lists :
  forall E : Env, calls_satisfy (wanted E) (Step12.main E).
Proof.
  intros E. unfold Step12.main.
  apply calls_bind.
  - unfold Step12.make_supabase.
    destruct (negb (truthy (SUPABASE_URL E)) || negb (truthy (SUPABASE_KEY E)));
      [apply calls_raise | apply calls_ret].
  - intros _. unfold Step12.get_stoq_offer_ids_from_db.
    unfold bind at 1, ret at 1.
    apply calls_main_loop, incl_refl.
Qed.

End MainFacts.

(** ** Step 12: the member the bisection never sends *)

Module LastMemberFacts.
Import HalvingFacts EffectFacts BookFacts AddWhole.
Local Open Scope string_scope.
Local Open Scope list_scope.

Section LastMember.
Context (E : Env) (offer : string) (pmc : option Z) (mr : Z) (base : Q) (x : Z).

Lemma divide12_leaves_out_last (fuel : nat) :
  forall pre sk ad : list Z,
    ~ In x pre -> pre <> [] ->
    calls_satisfy (leaves_out x)
      (Step12.divide_rec E fuel offer (pre ++ [x]) pmc mr base sk ad).
Proof.
  induction fuel as [|fuel IH]; intros pre sk ad Hx Hne; [apply calls_raise|].
  assert (Hlen : List.length (pre ++ [x]) = S (List.length pre)).
  { rewrite length_app. cbn [List.length]. lia. }
  assert (Hpre : (1 <= List.length pre)%nat).
  { destruct pre; [congruence | cbn; lia]. }
  rewrite (divide12_rec_unfold E offer pmc mr base fuel (pre ++ [x]) sk ad)
    by lia.
  cbv zeta. rewrite Hlen.
  destruct (half_lt (S (List.length pre)) ltac:(lia)) as [Hm1 Hm2].
  set (mid := (S (List.length pre) / 2)%nat) in *.
  assert (Hleft : firstn mid (pre ++ [x]) = firstn mid pre).
  { rewrite firstn_app. replace (mid - List.length pre)%nat with 0%nat by lia.
    cbn [firstn]. now rewrite app_nil_r. }
  assert (Hright : skipn mid (pre ++ [x]) = skipn mid pre ++ [x]).
  { rewrite skipn_app. replace (mid - List.length pre)%nat with 0%nat by lia.
    reflexivity. }
  rewrite Hleft, Hright.
  assert (HL : ~ In x (firstn mid pre)).
  { intros H. apply Hx. now apply (Step09Whole.incl_firstn mid pre). }
  assert (HR : ~ In x (skipn mid pre)).
  { intros H. apply Hx. now apply (Step09Whole.incl_skipn mid pre). }
  apply calls_bind; [apply calls_add_chunk_locked; exact HL|].
  intros [[ok b] e]. apply calls_bind.
  { destruct ok; [apply calls_ret|].
    eapply calls_weaken;
      [|apply (calls_divide12 E offer pmc mr base (firstn mid pre)), incl_refl].
    intros r [_ Hr] H. apply HL, Hr, H. }
  intros [sk1 ad1].
  apply calls_bind; [apply calls_add_chunk_locked; exact HL|].
  intros [[ok2 b2] e2]. destruct ok2; [apply calls_ret|].
  destruct (skipn mid pre) as [|y l] eqn:Hs.
  - cbn [app]. destruct fuel; [apply calls_raise | apply calls_ret].
  - apply IH; [exact HR | discriminate].
Qed.

End LastMember.

(** X19. Step 12, [_divide_and_conquer_on_422], whatever the remote answers:
    of a batch of two or more members whose last member occurs only at the
    end, no call of the bisection carries the last member (the second
    probe of each level is sent with the left half, line 313); and yet,
    when the bisection returns, it has booked that member, as added or as
    skipped. *)
Theorem X_step12_bisection_never_sends_the_last_member :
  forall (E : Env) (offer : string) (pre : list Z) (x : Z) (pmc : option Z)
         (mr : Z) (base : Q) (sk ad : list Z),
    pre <> [] -> ~ In x pre ->
    calls_satisfy (leaves_out x)
      (Step12._divide_and_conquer_on_422 E offer (pre ++ [x]) pmc mr base sk ad) /\
    ensures (booked x sk ad)
      (Step12._divide_and_conquer_on_422 E offer (pre ++ [x]) pmc mr base sk ad).
Proof.
  intros E offer pre x pmc mr base sk ad Hne Hx. split.
  - now apply divide12_leaves_out_last.
  - eapply ensures_weaken; [|apply divide12_books].
    intros out (s & a & Hs & Ha & Hp). exists s, a.
    split; [exact Hs|]. split; [exact Ha|].
    eapply Permutation_in; [apply Permutation_sym, Hp|].
    apply in_or_app. right. now left.
Qed.

Lemma X_step12_last_member_witness :
  calls_satisfy (leaves_out 2)
    (Step12._divide_and_conquer_on_422 Scenario.bad2 "offer-42" ([1; 3]%Z ++ [2%Z])
       None 3 1 [] []) /\
  booked 2 [] [] ([], [1; 3; 2]%Z).
Proof.
  split.
  - apply (proj1 (X_step12_bisection_never_sends_the_last_member Scenario.bad2
                    "offer-42" [1; 3]%Z 2 None 3 1 [] []
                    ltac:(discriminate) ltac:(cbn; lia))).
  - apply (proj2 (X_step12_bisection_never_sends_the_last_member Scenario.bad2
                    "offer-42" [1; 3]%Z 2 None 3 1 [] []
                    ltac:(discriminate) ltac:(cbn; lia))
             (Scenario.start Scenario.bad2 tt) _
             (snd (Step12._divide_and_conquer_on_422 Scenario.bad2 "offer-42"
                     ([1; 3]%Z ++ [2%Z]) None 3 1 [] []
                     (Scenario.start Scenario.bad2 tt)))).
    vm_compute. reflexivity.
Defined.

End LastMemberFacts.

(** ** Integers as text, and back *)

Module TextFacts.
Local Open Scope string_scope.
Local Open Scope list_scope.

Lemma int_digits_numeral (d : Decimal.uint) :
  forall acc : Z,
    int_digits (NilEmpty.string_of_uint d) acc true = Some (numeral_value d acc).
Proof.
  induction d; intros acc; cbn [NilEmpty.string_of_uint]; [reflexivity|..];
    cbn [int_digits numeral_value];
    match goal with
    | |- context [digit_of ?c] =>
        let v := eval vm_compute in (digit_of c) in
        change (digit_of c) with v
    end; cbv iota; apply IHd.
Qed.

Lemma int_digits_numeral_first (d : Decimal.uint) (acc : Z) :
  d <> Decimal.Nil ->
  int_digits (NilEmpty.string_of_uint d) acc false = Some (numeral_value d acc).
Proof.
  intros Hne. destruct d; [congruence|..];
    cbn [NilEmpty.string_of_uint int_digits numeral_value];
    match goal with
    | |- context [digit_of ?c] =>
        let v := eval vm_compute in (digit_of c) in
        change (digit_of c) with v
    end; cbv iota; apply int_digits_numeral.
Qed.

Lemma numeral_value_spec (d : Decimal.uint) :
  forall acc : Z,
    numeral_value d acc
    = (Z.of_N (DecimalPos.Unsigned.of_lu (Decimal.rev d))
       + acc * 10 ^ Z.of_N (DecimalPos.Unsigned.usize d))%Z.
Proof.
  induction d; intros acc;
    [cbn; lia|..];
    cbn [numeral_value DecimalPos.Unsigned.usize]; rewrite IHd;
    match goal with
    | |- context [Decimal.rev (?D d)] =>
        change (Decimal.rev (D d)) with (Decimal.revapp d (D Decimal.Nil));
        rewrite (DecimalPos.Unsigned.of_lu_revapp d (D Decimal.Nil));
        let v := eval vm_compute in (DecimalPos.Unsigned.of_lu (D Decimal.Nil)) in
        change (DecimalPos.Unsigned.of_lu (D Decimal.Nil)) with v
    end;
    rewrite N2Z.inj_add, N2Z.inj_mul, N2Z.inj_pow, N2Z.inj_succ;
    rewrite Z.pow_succ_r by apply N2Z.is_nonneg;
    change (Z.of_N 10) with 10%Z; cbn [Z.of_N]; ring.
Qed.

Lemma numeral_value_of_uint (d : Decimal.uint) :
  numeral_value d 0 = Z.of_uint d.
Proof.
  rewrite numeral_value_spec. unfold Z.of_uint.
  rewrite DecimalPos.Unsigned.of_uint_alt. ring.
Qed.

Lemma append_empty (s : string) : (s ++ "")%string = s.
Proof. induction s as [|c s IH]; [reflexivity|]. cbn. now rewrite IH. Qed.

Lemma string_rev_onto_onto (s : string) :
  forall a b : string,
    string_rev_onto (string_rev_onto s a) b = string_rev_onto a (s ++ b)%string.
Proof.
  induction s as [|c s IH]; intros a b; [reflexivity|].
  cbn [string_rev_onto]. rewrite IH. reflexivity.
Qed.

Lemma string_rev_twice (s : string) : string_rev (string_rev s) = s.
Proof.
  unfold string_rev. rewrite string_rev_onto_onto. cbn [string_rev_onto].
  apply append_empty.
Qed.

Lemma no_space_rev_onto (s : string) :
  forall a : string,
    no_space s = true -> no_space a = true ->
    no_space (string_rev_onto s a) = true.
Proof.
  induction s as [|c s IH]; intros a Hs Ha; [exact Ha|].
  cbn [no_space] in Hs. apply andb_true_iff in Hs. destruct Hs as [Hc Hs].
  cbn [string_rev_onto]. apply IH; [exact Hs|].
  cbn [no_space]. now rewrite Hc, Ha.
Qed.

Lemma lstrip_no_space (s : string) : no_space s = true -> lstrip s = s.
Proof.
  destruct s as [|c s]; [reflexivity|]. cbn [no_space lstrip]. intros H.
  apply andb_true_iff in H. destruct H as [Hc _].
  apply negb_true_iff in Hc. now rewrite Hc.
Qed.

Lemma strip_no_space (s : string) : no_space s = true -> strip s = s.
Proof.
  intros H. unfold strip. rewrite (lstrip_no_space s H).
  rewrite lstrip_no_space; [apply string_rev_twice|].
  unfold string_rev. now apply no_space_rev_onto.
Qed.

Lemma no_space_numeral (d : Decimal.uint) :
  no_space (NilEmpty.string_of_uint d) = true.
Proof.
  induction d; cbn [NilEmpty.string_of_uint no_space]; [reflexivity|..];
    rewrite IHd; reflexivity.
Qed.

Lemma no_space_nilzero (d : Decimal.uint) :
  no_space (NilZero.string_of_uint d) = true.
Proof.
  destruct d; [reflexivity|..]; apply (no_space_numeral _).
Qed.

Lemma int_digits_nilzero (d : Decimal.uint) :
  int_digits (NilZero.string_of_uint d) 0 false = Some (Z.of_uint d).
Proof.
  rewrite <- numeral_value_of_uint.
  destruct d; [reflexivity|..];
    apply int_digits_numeral_first; discriminate.
Qed.

Lemma nilzero_head (d : Decimal.uint) :
  exists (c : ascii) (r : string),
    NilZero.string_of_uint d = String c r /\
    c <> "+"%char /\ c <> "-"%char.
Proof.
  destruct d; cbn; eexists _, _; (split; [reflexivity|split; discriminate]).
Qed.

(** [int(str(z))] is [z]. *)
Lemma int_of_str_Z_to_string (z : Z) : int_of_str (Z_to_string z) = Some z.
Proof.
  unfold Z_to_string. pose proof (DecimalZ.of_to z) as Hz.
  destruct (Z.to_int z) as [u|u]; cbn [Z.of_int NilZero.string_of_int] in *.
  - unfold int_of_str. rewrite strip_no_space by apply no_space_nilzero.
    pose proof (int_digits_nilzero u) as Hd.
    destruct (nilzero_head u) as (c & r & Heq & Hplus & Hminus).
    rewrite Heq in *.
    assert (Hbranch :
      match String c r with
      | String "+" r0 => int_digits r0 0 false
      | String "-" r0 => option_map Z.opp (int_digits r0 0 false)
      | t => int_digits t 0 false
      end = int_digits (String c r) 0 false).
    { destruct c as [[|] [|] [|] [|] [|] [|] [|] [|]];
        try reflexivity; congruence. }
    rewrite Hbranch, Hd, Hz. reflexivity.
  - unfold int_of_str.
    rewrite strip_no_space
      by (cbn [no_space]; rewrite no_space_nilzero; reflexivity).
    cbv iota. rewrite int_digits_nilzero. cbn [option_map]. now rewrite Hz.
Qed.

Lemma Z_to_string_inj (z1 z2 : Z) : Z_to_string z1 = Z_to_string z2 -> z1 = z2.
Proof.
  intros H. assert (H' : Some z1 = Some z2).
  { rewrite <- (int_of_str_Z_to_string z1), <- (int_of_str_Z_to_string z2).
    now rewrite H. }
  now inversion H'.
Qed.

Lemma coerce_split_texts (zs : list Z) :
  Step12.coerce_split (map Z_to_string zs) = (zs, []).
Proof.
  induction zs as [|z zs IH]; [reflexivity|].
  cbn [map Step12.coerce_split]. rewrite IH, int_of_str_Z_to_string.
  reflexivity.
Qed.

(** X20. An integer id written as text by [str()] is read back by [int()] as
    the same integer, and different integers have different texts. So the
    ids of the plan survive the trip through text of Steps 11 and 12:
    [_coerce_ids_to_int] gives the integers back, in order, and reports
    nothing as non-numeric; and what Step 11 removes are those integers,
    each once, in rising order. *)
Theorem X_integer_ids_survive_the_text :
  (forall z : Z, py_int (PStr (py_str (PInt z))) = Some z) /\
  (forall z1 z2 : Z, py_str (PInt z1) = py_str (PInt z2) -> z1 = z2) /\
  (forall zs : list Z,
      Step12._coerce_ids_to_int (map (fun z => py_str (PInt z)) zs) = (zs, None)) /\
  (forall zs : list Z,
      Step11Remove.unique_vids (map (fun z => py_str (PInt z)) zs)
      = sortedZ (nodup Z.eq_dec zs)).
Proof.
  split; [|split; [|split]].
  - intros z. apply int_of_str_Z_to_string.
  - intros z1 z2. apply Z_to_string_inj.
  - intros zs. unfold Step12._coerce_ids_to_int.
    change (map (fun z => py_str (PInt z)) zs) with (map Z_to_string zs).
    now rewrite coerce_split_texts.
  - intros zs. unfold Step11Remove.unique_vids, Step12._coerce_ids_to_int.
    change (map (fun z => py_str (PInt z)) zs) with (map Z_to_string zs).
    now rewrite coerce_split_texts.
Qed.

End TextFacts.

(** ** The selection of the steps *)

Module SelectionFacts.
Import HalvingFacts.
Local Open Scope string_scope.
Local Open Scope list_scope.

Lemma zrange_In (i j k : Z) : In k (RunAll.zrange i j) <-> (i <= k < j)%Z.
Proof.
  unfold RunAll.zrange. rewrite in_map_iff. split.
  - intros (n & <- & Hn). apply in_seq in Hn. lia.
  - intros H. exists (Z.to_nat (k - i)). split; [lia|].
    apply in_seq. lia.
Qed.

Lemma NoDup_map_shift (i : Z) (l : list nat) :
  NoDup l -> NoDup (map (fun n => (i + Z.of_nat n)%Z) l).
Proof.
  induction 1 as [|x l Hx Hl IH]; cbn [map]; constructor; [|exact IH].
  rewrite in_map_iff. intros (n & Heq & Hn).
  assert (n = x) by lia. subst. contradiction.
Qed.

Lemma zrange_NoDup (i j : Z) : NoDup (RunAll.zrange i j).
Proof. unfold RunAll.zrange. apply NoDup_map_shift, seq_NoDup. Qed.

Lemma pick_chunk_in_range (chunk : string) (total : Z) (more : list Z) :
  RunAll.pick_chunk chunk total = Ok more ->
  Forall (fun k => (0 <= k < total)%Z) more.
Proof.
  unfold RunAll.pick_chunk.
  destruct (RunAll.split_first "-" (strip chunk)) as [[start end_]|].
  - destruct (int_of_str start) as [a|]; [|discriminate].
    destruct (int_of_str end_) as [b|]; [|discriminate].
    destruct ((a - 1 <? 0) || (b - 1 >=? total) || (a - 1 >? b - 1))%Z eqn:Hc;
      [discriminate|].
    intros [= <-]. apply orb_false_iff in Hc. destruct Hc as [Hc H3].
    apply orb_false_iff in Hc. destruct Hc as [H1 H2].
    apply Z.ltb_ge in H1. rewrite Z.geb_leb in H2. apply Z.leb_gt in H2.
    apply Forall_forall. intros k Hk. apply zrange_In in Hk. lia.
  - destruct (int_of_str (strip chunk)) as [a|]; [|discriminate].
    destruct ((a - 1 <? 0) || (a - 1 >=? total))%Z eqn:Hc; [discriminate|].
    intros [= <-]. apply orb_false_iff in Hc. destruct Hc as [H1 H2].
    apply Z.ltb_ge in H1. rewrite Z.geb_leb in H2. apply Z.leb_gt in H2.
    constructor; [lia | constructor].
Qed.

Lemma pick_chunks_in_range (chunks : list string) (total : Z) :
  forall picked out : list Z,
    Forall (fun k => (0 <= k < total)%Z) picked ->
    RunAll.pick_chunks chunks total picked = Ok out ->
    Forall (fun k => (0 <= k < total)%Z) out.
Proof.
  induction chunks as [|c chunks IH]; intros picked out Hp Hrun.
  - cbn in Hrun. now inversion Hrun; subst.
  - cbn [RunAll.pick_chunks] in Hrun.
    destruct (RunAll.pick_chunk c total) as [more|e] eqn:Hc; [|discriminate].
    apply (IH (picked ++ more) out); [|exact Hrun].
    apply Forall_app. split; [exact Hp|].
    now apply (pick_chunk_in_range c).
Qed.

Lemma pick_chunk_raises (chunk : string) (total : Z) (e : Exn) :
  RunAll.pick_chunk chunk total = Raise e -> e = ValueError.
Proof.
  unfold RunAll.pick_chunk.
  destruct (RunAll.split_first "-" (strip chunk)) as [[start end_]|].
  - destruct (int_of_str start); [|now intros [= <-]].
    destruct (int_of_str end_); [|now intros [= <-]].
    destruct (_ || _ || _)%bool; [now intros [= <-] | discriminate].
  - destruct (int_of_str (strip chunk)); [|now intros [= <-]].
    destruct (_ || _)%bool; [now intros [= <-] | discriminate].
Qed.

Lemma pick_chunks_raises (chunks : list string) (total : Z) :
  forall (picked : list Z) (e : Exn),
    RunAll.pick_chunks chunks total picked = Raise e -> e = ValueError.
Proof.
  induction chunks as [|c chunks IH]; intros picked e Hrun; [discriminate|].
  cbn [RunAll.pick_chunks] in Hrun.
  destruct (RunAll.pick_chunk c total) as [more|e'] eqn:Hc.
  - exact (IH _ _ Hrun).
  - inversion Hrun; subst. exact (pick_chunk_raises _ _ _ Hc).
Qed.

Lemma dedup_spec (picked : list Z) :
  forall seen : list Z,
    NoDup (RunAll.dedup seen picked) /\
    (forall k, In k (RunAll.dedup seen picked) <-> In k picked /\ ~ In k seen).
Proof.
  induction picked as [|x rest IH]; intros seen.
  - cbn. split; [constructor | intros k; tauto].
  - cbn [RunAll.dedup]. destruct (Step09.memZ x seen) eqn:Hm.
    + apply memZ_In in Hm. destruct (IH seen) as [Hnd Hin].
      split; [exact Hnd|]. intros k. rewrite Hin. cbn [In].
      split; [tauto|]. intros [[<-|H] Hs]; [contradiction | tauto].
    + apply memZ_false in Hm. destruct (IH (x :: seen)) as [Hnd Hin].
      split.
      * constructor; [|exact Hnd]. rewrite Hin. cbn [In]. tauto.
      * intros k. cbn [In]. rewrite Hin. cbn [In].
        destruct (Z.eq_dec x k) as [->|Hne]; tauto.
Qed.



End SelectionFacts.
